(** * The internship portal: validation rules, submission and review workflows,
    and the notification endpoint

  A shallow embedding of the TypeScript sources:
  - [lib/validation] ([validateEmail], [validatePhoneNumber],
    [validateSubmissionForm]);
  - [lib/imageUtils] ([validateImageFile]);
  - the submit page ([checkAuth], [handleSubmit] and its render gates);
  - the evaluate page ([loadSubmissions], [handleDecision] and its render
    gates);
  - the route [POST /api/send-email].

  JavaScript strings are sequences of UTF-16 code units; objects used as
  maps are finite maps; calls to the external collaborators (auth, store,
  blob storage, mail transport) are answered by an explicit environment and
  recorded in an event trace. *)

From Stdlib Require Import NArith QArith Lia.
From stdpp Require Import base decidable option list sorting strings gmap fin_maps.

Set Default Proof Using "Type".

(* ===================================================================== *)
(** ** JavaScript strings *)
(* ===================================================================== *)

Module JsString.

(** A UTF-16 code unit. *)
Abbreviation char16 := N.
Abbreviation jsstring := (list char16).

(** An ASCII literal of the source, as code units. *)
Definition js (s : string) : jsstring :=
  (λ a, Ascii.N_of_ascii a) <$> String.list_ascii_of_string s.

Arguments js s : simpl never.

(** ECMAScript [WhiteSpace] and [LineTerminator] code points: what
    [String.prototype.trim] strips and what the class [\s] matches. *)
Definition is_ws (c : char16) : bool :=
  ((9 <=? c) && (c <=? 13) || (c =? 32) || (c =? 160) || (c =? 5760)
   || (8192 <=? c) && (c <=? 8202) || (c =? 8232) || (c =? 8233)
   || (c =? 8239) || (c =? 8287) || (c =? 12288) || (c =? 65279))%N.

(** The class [\d]: the ten ASCII digits. *)
Definition is_digit (c : char16) : bool := ((48 <=? c) && (c <=? 57))%N.

Fixpoint trimStart (s : jsstring) : jsstring :=
  match s with
  | c :: s' => if is_ws c then trimStart s' else s
  | [] => []
  end.

Definition trimEnd (s : jsstring) : jsstring :=
  reverse (trimStart (reverse s)).

(** [s.trim()] *)
Definition trim (s : jsstring) : jsstring := trimEnd (trimStart s).

(** [!s] on a string: the empty string is the only falsy one. *)
Definition falsy_str (s : jsstring) : bool :=
  match s with [] => true | _ => false end.

(** [s.replace(/\D/g, '')]: every non-digit code unit is deleted. *)
Definition replace_non_digits (s : jsstring) : jsstring :=
  filter (λ c, is_digit c = true) s.

(** [s.endsWith(suf)] *)
Definition endsWith (s suf : jsstring) : bool :=
  bool_decide (length suf ≤ length s
               ∧ drop (length s - length suf) s = suf).

(** [s.split(sep).pop()] for a one-unit separator: what follows the last
    separator, the whole string when there is none. *)
Fixpoint split_pop (sep : char16) (s : jsstring) : jsstring :=
  match s with
  | [] => []
  | c :: s' =>
      if bool_decide (sep ∈ s') then split_pop sep s'
      else if bool_decide (c = sep) then s' else s
  end.

End JsString.

(* ===================================================================== *)
(** ** Regular expressions, as far as the sources use them *)
(* ===================================================================== *)

Module Regex.
Import JsString.

(** Patterns without captures or look-around: character classes,
    concatenation, alternation and repetition. *)
Inductive regex : Type :=
| Void
| Eps
| Class (p : char16 → bool)
| Seq (r1 r2 : regex)
| Alt (r1 r2 : regex)
| Star (r : regex).

(** [r+] *)
Definition Plus (r : regex) : regex := Seq r (Star r).

(** The language of a pattern. *)
Inductive matches : regex → jsstring → Prop :=
| MEps : matches Eps []
| MClass p c : p c = true → matches (Class p) [c]
| MSeq r1 r2 s1 s2 :
    matches r1 s1 → matches r2 s2 → matches (Seq r1 r2) (s1 ++ s2)
| MAltL r1 r2 s : matches r1 s → matches (Alt r1 r2) s
| MAltR r1 r2 s : matches r2 s → matches (Alt r1 r2) s
| MStarNil r : matches (Star r) []
| MStarApp r s1 s2 :
    matches r s1 → matches (Star r) s2 → matches (Star r) (s1 ++ s2).

Fixpoint nullable (r : regex) : bool :=
  match r with
  | Void => false
  | Eps => true
  | Class _ => false
  | Seq r1 r2 => nullable r1 && nullable r2
  | Alt r1 r2 => nullable r1 || nullable r2
  | Star _ => true
  end.

Fixpoint deriv (c : char16) (r : regex) : regex :=
  match r with
  | Void => Void
  | Eps => Void
  | Class p => if p c then Eps else Void
  | Seq r1 r2 =>
      if nullable r1 then Alt (Seq (deriv c r1) r2) (deriv c r2)
      else Seq (deriv c r1) r2
  | Alt r1 r2 => Alt (deriv c r1) (deriv c r2)
  | Star r1 => Seq (deriv c r1) (Star r1)
  end.

(** [/^r$/.test(s)]: with both anchors and no [m] flag the whole input has
    to be in the language of [r]. *)
Fixpoint test_anchored (r : regex) (s : jsstring) : bool :=
  match s with
  | [] => nullable r
  | c :: s' => test_anchored (deriv c r) s'
  end.

End Regex.

(* ===================================================================== *)
(** ** Browser files *)
(* ===================================================================== *)

Module File.
Import JsString.

(** The properties of a [File] that the sources read: its name, its size
    in bytes and its content type. *)
Record t : Type := mk { name : jsstring; size : N; type : jsstring }.

#[global] Instance eq_dec : EqDecision t.
Proof. solve_decision. Defined.
End File.

(* ===================================================================== *)
(** ** lib/validation *)
(* ===================================================================== *)

Module Validation.
Import JsString Regex.
Local Open Scope string_scope.
Local Open Scope nat_scope.
Local Open Scope list_scope.
Local Open Scope stdpp_scope.

Record SubmissionFormData : Type := {
  fullName : jsstring;
  phoneNumber : jsstring;
  location : jsstring;
  email : jsstring;
  hobbies : jsstring;
  profilePicture : option File.t;
  sourceCode : option File.t
}.

(** [FormErrors]: an object with one optional message per field, used as a
    map from field name to message. *)
Abbreviation FormErrors := (gmap string string).

(** The class [[^\s@]]. *)
Definition not_ws_at (c : char16) : bool := negb (is_ws c || (c =? 64)%N).

(** [/^[^\s@]+@[^\s@]+\.[^\s@]+$/] *)
Definition emailRegex : regex :=
  Seq (Plus (Class not_ws_at))
    (Seq (Class (λ c, (c =? 64)%N))
       (Seq (Plus (Class not_ws_at))
          (Seq (Class (λ c, (c =? 46)%N))
             (Plus (Class not_ws_at))))).

Definition validateEmail (email : jsstring) : bool :=
  test_anchored emailRegex email.

Definition validatePhoneNumber (phone : jsstring) : bool :=
  let digitsOnly := replace_non_digits phone in
  ((7 <=? length digitsOnly) && (length digitsOnly <=? 15))%nat.

(** The seven blocks of [validateSubmissionForm]; each assigns at most one
    property of [errors]. *)

Definition check_fullName (data : SubmissionFormData) (errors : FormErrors)
  : FormErrors :=
  if falsy_str (trim (fullName data)) then
    <["fullName" := "Full name is required"]> errors
  else if (length (trim (fullName data)) <? 2)%nat then
    <["fullName" := "Full name must be at least 2 characters"]> errors
  else if (100 <? length (trim (fullName data)))%nat then
    <["fullName" := "Full name must be less than 100 characters"]> errors
  else errors.

Definition check_phoneNumber (data : SubmissionFormData) (errors : FormErrors)
  : FormErrors :=
  if falsy_str (trim (phoneNumber data)) then
    <["phoneNumber" := "Phone number is required"]> errors
  else if negb (validatePhoneNumber (phoneNumber data)) then
    <["phoneNumber" := "Please enter a valid phone number"]> errors
  else errors.

Definition check_location (data : SubmissionFormData) (errors : FormErrors)
  : FormErrors :=
  if falsy_str (trim (location data)) then
    <["location" := "Location is required"]> errors
  else if (length (trim (location data)) <? 2)%nat then
    <["location" := "Location must be at least 2 characters"]> errors
  else if (100 <? length (trim (location data)))%nat then
    <["location" := "Location must be less than 100 characters"]> errors
  else errors.

Definition check_email (data : SubmissionFormData) (errors : FormErrors)
  : FormErrors :=
  if falsy_str (trim (email data)) then
    <["email" := "Email address is required"]> errors
  else if negb (validateEmail (email data)) then
    <["email" := "Please enter a valid email address"]> errors
  else errors.

Definition check_hobbies (data : SubmissionFormData) (errors : FormErrors)
  : FormErrors :=
  if falsy_str (trim (hobbies data)) then
    <["hobbies" := "Please tell us about your hobbies and interests"]> errors
  else if (length (trim (hobbies data)) <? 20)%nat then
    <["hobbies" := "Please provide more detail (at least 20 characters)"]> errors
  else if (1000 <? length (trim (hobbies data)))%nat then
    <["hobbies" := "Please keep your response under 1000 characters"]> errors
  else errors.

Definition check_profilePicture (data : SubmissionFormData)
  (errors : FormErrors) : FormErrors :=
  match profilePicture data with
  | None => <["profilePicture" := "Profile picture is required"]> errors
  | Some _ => errors
  end.

Definition check_sourceCode (data : SubmissionFormData) (errors : FormErrors)
  : FormErrors :=
  match sourceCode data with
  | None => <["sourceCode" := "Source code file is required"]> errors
  | Some f =>
      if negb (endsWith (File.name f) (js ".zip")) then
        <["sourceCode" := "Source code must be a .zip file"]> errors
      else if (50 * 1024 * 1024 <? File.size f)%N then
        <["sourceCode" := "Source code file must be less than 50MB"]> errors
      else errors
  end.

Definition validateSubmissionForm (data : SubmissionFormData) : FormErrors :=
  let errors : FormErrors := ∅ in
  let errors := check_fullName data errors in
  let errors := check_phoneNumber data errors in
  let errors := check_location data errors in
  let errors := check_email data errors in
  let errors := check_hobbies data errors in
  let errors := check_profilePicture data errors in
  let errors := check_sourceCode data errors in
  errors.

(** *** The rule of each field, in the words of the specification *)

Definition digit_count (s : jsstring) : nat :=
  foldr (λ c n, if is_digit c then S n else n) 0 s.

Definition plain (s : jsstring) : Prop :=
  s ≠ [] ∧ Forall (λ c, is_ws c = false ∧ c ≠ 64%N) s.

(** The shape [local@domain.tld]: three non-empty parts free of white space
    and of [@], joined by [@] and by a dot. *)
Definition email_shape (s : jsstring) : Prop :=
  ∃ loc dom tld,
    s = loc ++ js "@" ++ dom ++ js "." ++ tld
    ∧ plain loc ∧ plain dom ∧ plain tld.

Definition fullName_valid (d : SubmissionFormData) : Prop :=
  2 ≤ length (trim (fullName d)) ≤ 100.
Definition phoneNumber_valid (d : SubmissionFormData) : Prop :=
  7 ≤ digit_count (phoneNumber d) ≤ 15.
Definition location_valid (d : SubmissionFormData) : Prop :=
  2 ≤ length (trim (location d)) ≤ 100.
Definition email_valid (d : SubmissionFormData) : Prop :=
  email_shape (email d).
Definition hobbies_valid (d : SubmissionFormData) : Prop :=
  20 ≤ length (trim (hobbies d)) ≤ 1000.
Definition profilePicture_valid (d : SubmissionFormData) : Prop :=
  is_Some (profilePicture d).
Definition sourceCode_valid (d : SubmissionFormData) : Prop :=
  ∃ f, sourceCode d = Some f
       ∧ (∃ stem, File.name f = stem ++ js ".zip")
       ∧ (File.size f ≤ 50 * 1024 * 1024)%N.

(** The field a key of the error map stands for fails its rule. *)
Definition field_fails (d : SubmissionFormData) (key : string) : Prop :=
  (key = "fullName" ∧ ¬ fullName_valid d)
  ∨ (key = "phoneNumber" ∧ ¬ phoneNumber_valid d)
  ∨ (key = "location" ∧ ¬ location_valid d)
  ∨ (key = "email" ∧ ¬ email_valid d)
  ∨ (key = "hobbies" ∧ ¬ hobbies_valid d)
  ∨ (key = "profilePicture" ∧ ¬ profilePicture_valid d)
  ∨ (key = "sourceCode" ∧ ¬ sourceCode_valid d).

Definition all_fields_valid (d : SubmissionFormData) : Prop :=
  fullName_valid d ∧ phoneNumber_valid d ∧ location_valid d ∧ email_valid d
  ∧ hobbies_valid d ∧ profilePicture_valid d ∧ sourceCode_valid d.

End Validation.

(* ===================================================================== *)
(** ** lib/imageUtils *)
(* ===================================================================== *)

Module ImageUtils.
Import JsString.
Local Open Scope string_scope.
Local Open Scope list_scope.
Local Open Scope stdpp_scope.

Definition validTypes : list jsstring :=
  [js "image/jpeg"; js "image/jpg"; js "image/png"; js "image/webp"].

(** The result object [{ valid, error? }]. *)
Record ImageValidation : Type := { valid : bool; error : option string }.

Definition validateImageFile (file : File.t) : ImageValidation :=
  if negb (bool_decide (File.type file ∈ validTypes)) then
    {| valid := false;
       error := Some "Please upload a valid image file (JPEG, PNG, or WebP)" |}
  else if (20 * 1024 * 1024 <? File.size file)%N then
    {| valid := false;
       error := Some "Image file is too large. Please select an image under 20MB" |}
  else {| valid := true; error := None |}.

End ImageUtils.

(* ===================================================================== *)
(** ** Handlers as computations: state, exceptions, [try]/[catch]/[finally] *)
(* ===================================================================== *)

Module Handler.
Local Open Scope string_scope.

(** How a block ends: with a value, or with a thrown [Error] of which the
    sources only read the message. *)
Inductive Outcome (A : Type) : Type :=
| Value (a : A)
| Throws (message : string).
Arguments Value {A} a.
Arguments Throws {A} message.

Definition M (S A : Type) : Type := S → Outcome A * S.

Definition ret {S A} (a : A) : M S A := λ s, (Value a, s).

Definition bind {S A B} (m : M S A) (k : A → M S B) : M S B :=
  λ s, match m s with
       | (Value a, s') => k a s'
       | (Throws e, s') => (Throws e, s')
       end.

Definition throw {S A} (message : string) : M S A := λ s, (Throws message, s).

Definition get {S} : M S S := λ s, (Value s, s).
Definition modify {S} (f : S → S) : M S unit := λ s, (Value tt, f s).

(** [try { body } catch (error) { handler error.message }] *)
Definition try_catch {S A} (body : M S A) (handler : string → M S A) : M S A :=
  λ s, match body s with
       | (Value a, s') => (Value a, s')
       | (Throws e, s') => handler e s'
       end.

(** [try { body } finally { fin }]: [fin] runs either way, then the outcome
    of [body] stands. *)
Definition finally {S A} (body : M S A) (fin : M S unit) : M S A :=
  λ s, match body s with
       | (o, s') =>
           match fin s' with
           | (Value _, s'') => (o, s'')
           | (Throws e, s'') => (Throws e, s'')
           end
       end.

(** [message || fallback] *)
Definition or_default (message fallback : string) : string :=
  if String.eqb message "" then fallback else message.

Definition when {S} (b : bool) (m : M S unit) : M S unit :=
  if b then m else ret tt.

(** Sequencing is written [x ← m; k] and [m;; k]. *)
#[global] Instance M_ret {S} : MRet (M S) := λ A a, ret a.
#[global] Instance M_bind {S} : MBind (M S) := λ A B k m, bind m k.

End Handler.


(* ===================================================================== *)
(** ** The external collaborators the pages talk to *)
(* ===================================================================== *)

Module Submission.
Import JsString.

Inductive Status : Type := pending | accepted | rejected.

#[global] Instance Status_eq_dec : EqDecision Status.
Proof. solve_decision. Defined.

(** A row of the [submissions] table. *)
Record t : Type := mk {
  id : jsstring;
  user_id : jsstring;
  full_name : jsstring;
  phone_number : jsstring;
  location : jsstring;
  email : jsstring;
  hobbies : jsstring;
  profile_picture_url : jsstring;
  source_code_url : jsstring;
  status : Status;
  feedback : option jsstring;
  created_at : N
}.

#[global] Instance eq_dec : EqDecision t.
Proof. solve_decision. Defined.

Definition set_decision (st : Status) (fb : jsstring) (r : t) : t :=
  mk (id r) (user_id r) (full_name r) (phone_number r) (location r) (email r)
     (hobbies r) (profile_picture_url r) (source_code_url r) st (Some fb)
     (created_at r).

End Submission.

Module Collab.
Import JsString Handler.
Local Open Scope string_scope.
Local Open Scope list_scope.
Local Open Scope stdpp_scope.

(** The verdict an evaluator may give: ["accepted" | "rejected"]. *)
Inductive Decision : Type := decide_accepted | decide_rejected.

Definition decision_status (d : Decision) : Submission.Status :=
  match d with
  | decide_accepted => Submission.accepted
  | decide_rejected => Submission.rejected
  end.

(** The body the evaluate page posts to [/api/send-email]. *)
Record EmailPayload : Type := {
  to : jsstring;
  name : jsstring;
  decision : Decision;
  feedback : jsstring
}.

(** What is durable: the [submissions] table and the two storage buckets. *)
Record World : Type := {
  submissions_table : list Submission.t;
  blobs : gmap (string * jsstring) File.t
}.

(** How a request to the store or to blob storage ends: answered, answered
    with [{ error }], or with a rejected promise. *)
Inductive Reply : Type := Answered | Errored | Rejected.

#[global] Instance Reply_eq_dec : EqDecision Reply.
Proof. solve_decision. Defined.

(** How [from("profiles").select("role").eq("id", uid).single()] ends: with
    the role of the one matching row, with [{ error }], or rejected. *)
Inductive ProfileReply : Type :=
| ProfileRole (role : jsstring)
| ProfileError
| ProfileRejected.

(** What a handler does that can be observed outside of the page state. *)
Inductive Event : Type :=
| ToastError (message : string)
| ToastLoading (message : string)
| ToastSuccess (message : string)
| ToastDismiss
| ConsoleError (label : string)
| RouterPush (path : string)
| AuthGetUser
| AuthSignOut
| SelectProfileRole (uid : jsstring)
| SelectSubmissionOfUser (uid : jsstring)
| SelectAllSubmissions
| CompressImage (file : File.t)
| StorageUpload (bucket : string) (path : jsstring) (file : File.t)
| InsertSubmission (row : Submission.t)
| UpdateSubmission (id : jsstring) (st : Submission.Status) (fb : jsstring)
| FetchSendEmail (payload : EmailPayload).

(** A running page: its React state, the world, and what happened so far. *)
Record Sys (P : Type) : Type := mkSys {
  page : P;
  world : World;
  trace : list Event
}.
Arguments mkSys {P} page world trace.
Arguments page {P} s.
Arguments world {P} s.
Arguments trace {P} s.

Section Operations.
Context {P : Type}.

Definition emit (e : Event) : M (Sys P) unit :=
  modify (λ s, mkSys (page s) (world s) (trace s ++ [e])).

Definition set_page (f : P → P) : M (Sys P) unit :=
  modify (λ s, mkSys (f (page s)) (world s) (trace s)).

Definition set_world (f : World → World) : M (Sys P) unit :=
  modify (λ s, mkSys (page s) (f (world s)) (trace s)).

(** A request that is sent, then ends as the environment says. The result
    is [None] for [{ error: null }] and [Some tt] for an error object. *)
Definition request (r : Reply) (e : Event) (effect : World → World)
  : M (Sys P) (option unit) :=
  emit e;;
  match r with
  | Answered => set_world effect;; ret None
  | Errored => ret (Some tt)
  | Rejected => throw "Failed to fetch"
  end.

(** [.single()]: the one matching row, and no data otherwise. *)
Definition single {A} (rows : list A) : option A :=
  match rows with
  | [r] => Some r
  | _ => None
  end.

Definition rows_of_user (uid : jsstring) (table : list Submission.t)
  : list Submission.t :=
  filter (λ r, Submission.user_id r = uid) table.

(** [from("submissions").select("id").eq("user_id", uid).single()], of which
    the caller reads [data] only. *)
Definition select_submission_of_user (r : Reply) (uid : jsstring)
  : M (Sys P) (option Submission.t) :=
  emit (SelectSubmissionOfUser uid);;
  s ← get;
  match r with
  | Answered => ret (single (rows_of_user uid (submissions_table (world s))))
  | Errored => ret None
  | Rejected => throw "Failed to fetch"
  end.

(** [from("submissions").insert(row)] *)
Definition insert_submission (r : Reply) (row : Submission.t)
  : M (Sys P) (option unit) :=
  request r (InsertSubmission row)
    (λ w, {| submissions_table := submissions_table w ++ [row];
             blobs := blobs w |}).

(** [from("submissions").update({ status, feedback }).eq("id", id)] *)
Definition update_submission (r : Reply) (id : jsstring)
    (st : Submission.Status) (fb : jsstring) : M (Sys P) (option unit) :=
  request r (UpdateSubmission id st fb)
    (λ w, {| submissions_table :=
               (λ row, if decide (Submission.id row = id)
                       then Submission.set_decision st fb row else row)
               <$> submissions_table w;
             blobs := blobs w |}).

(** [storage.from(bucket).upload(path, file, { upsert: true })] *)
Definition storage_upload (r : Reply) (bucket : string) (path : jsstring)
    (file : File.t) : M (Sys P) (option unit) :=
  request r (StorageUpload bucket path file)
    (λ w, {| submissions_table := submissions_table w;
             blobs := <[(bucket, path) := file]> (blobs w) |}).

End Operations.

End Collab.

(* ===================================================================== *)
(** ** The submit page *)
(* ===================================================================== *)

Module SubmitPage.
Import JsString Handler Collab Validation.
Local Open Scope string_scope.
Local Open Scope nat_scope.
Local Open Scope list_scope.
Local Open Scope stdpp_scope.

(** The answers of the collaborators during one handler call. *)
Record Env : Type := {
  (** [auth.getUser()]: [None] when the promise rejects, [Some None] when
      there is no session, otherwise the id of the user. *)
  getUser : option (option jsstring);
  profile : ProfileReply;
  lookup_reply : Reply;
  (** [imageCompression(file, options)]; [None] when it throws. *)
  imageCompression : File.t → option File.t;
  image_upload_reply : Reply;
  code_upload_reply : Reply;
  insert_reply : Reply;
  (** [getPublicUrl(path).data.publicUrl], per bucket. *)
  publicUrl : string → jsstring → jsstring;
  (** The id and the creation time the store gives to an inserted row. *)
  next_id : jsstring;
  now : N
}.

(** The React state of the page (the picture preview, which only the markup
    reads, is left out). *)
Record State : Type := mkState {
  loading : bool;
  submitting : bool;
  hasSubmission : bool;
  userId : option jsstring;
  formData : SubmissionFormData;
  errors : FormErrors
}.

Definition initial : State :=
  {| loading := true;
     submitting := false;
     hasSubmission := false;
     userId := None;
     formData := {| fullName := []; phoneNumber := []; location := [];
                    email := []; hobbies := [];
                    profilePicture := None; sourceCode := None |};
     errors := ∅ |}.

Definition setLoading (b : bool) (st : State) : State :=
  mkState b (submitting st) (hasSubmission st) (userId st) (formData st) (errors st).
Definition setSubmitting (b : bool) (st : State) : State :=
  mkState (loading st) b (hasSubmission st) (userId st) (formData st) (errors st).
Definition setHasSubmission (b : bool) (st : State) : State :=
  mkState (loading st) (submitting st) b (userId st) (formData st) (errors st).
Definition setUserId (u : option jsstring) (st : State) : State :=
  mkState (loading st) (submitting st) (hasSubmission st) u (formData st) (errors st).
Definition setFormData (f : SubmissionFormData → SubmissionFormData)
    (st : State) : State :=
  mkState (loading st) (submitting st) (hasSubmission st) (userId st)
    (f (formData st)) (errors st).
Definition setErrors (f : FormErrors → FormErrors) (st : State) : State :=
  mkState (loading st) (submitting st) (hasSubmission st) (userId st)
    (formData st) (f (errors st)).

Definition access_denied : M (Sys State) unit :=
  emit (ToastError "Access denied. Developer credentials required.");;
  emit AuthSignOut;;
  emit (RouterPush "/login").

Definition checkAuth (env : Env) : M (Sys State) unit :=
  try_catch
    (emit AuthGetUser;;
     match getUser env with
     | None => throw "Failed to fetch"
     | Some None => emit (RouterPush "/login")
     | Some (Some uid) =>
         emit (SelectProfileRole uid);;
         match profile env with
         | ProfileRejected => throw "Failed to fetch"
         | ProfileError => access_denied
         | ProfileRole role =>
             if bool_decide (role ≠ js "developer") then access_denied
             else
               set_page (setUserId (Some uid));;
               (* Check if user already has a submission *)
               existingSubmission ← select_submission_of_user (lookup_reply env) uid;
               when (bool_decide (is_Some existingSubmission))
                    (set_page (setHasSubmission true));;
               set_page (setLoading false)
         end
     end)
    (λ _, emit (ConsoleError "Auth check error:");;
          emit (RouterPush "/login")).

(** The text inputs of the form, by their [name] attribute. *)
Inductive TextField : Type :=
| fullName_field | phoneNumber_field | location_field | email_field
| hobbies_field.

Definition field_key (f : TextField) : string :=
  match f with
  | fullName_field => "fullName"
  | phoneNumber_field => "phoneNumber"
  | location_field => "location"
  | email_field => "email"
  | hobbies_field => "hobbies"
  end.

Definition set_field (f : TextField) (value : jsstring)
    (d : SubmissionFormData) : SubmissionFormData :=
  match f with
  | fullName_field =>
      Build_SubmissionFormData value (phoneNumber d) (location d) (email d)
        (hobbies d) (profilePicture d) (sourceCode d)
  | phoneNumber_field =>
      Build_SubmissionFormData (fullName d) value (location d) (email d)
        (hobbies d) (profilePicture d) (sourceCode d)
  | location_field =>
      Build_SubmissionFormData (fullName d) (phoneNumber d) value (email d)
        (hobbies d) (profilePicture d) (sourceCode d)
  | email_field =>
      Build_SubmissionFormData (fullName d) (phoneNumber d) (location d) value
        (hobbies d) (profilePicture d) (sourceCode d)
  | hobbies_field =>
      Build_SubmissionFormData (fullName d) (phoneNumber d) (location d)
        (email d) value (profilePicture d) (sourceCode d)
  end.

Definition set_profilePicture (file : File.t) (d : SubmissionFormData)
  : SubmissionFormData :=
  Build_SubmissionFormData (fullName d) (phoneNumber d) (location d) (email d)
    (hobbies d) (Some file) (sourceCode d).

Definition set_sourceCode (file : File.t) (d : SubmissionFormData)
  : SubmissionFormData :=
  Build_SubmissionFormData (fullName d) (phoneNumber d) (location d) (email d)
    (hobbies d) (profilePicture d) (Some file).

(** Assigning [undefined] to a property of [errors] is modelled by removing
    it: the page reads these properties for truthiness only. *)
Definition handleInputChange (f : TextField) (value : jsstring)
  : M (Sys State) unit :=
  s ← get;
  set_page (setFormData (set_field f value));;
  when (bool_decide (is_Some (errors (page s) !! field_key f)))
       (set_page (setErrors (delete (field_key f)))).

Definition handleProfilePictureChange (file : option File.t)
  : M (Sys State) unit :=
  match file with
  | None => mret tt
  | Some file =>
      let validation := ImageUtils.validateImageFile file in
      if negb (ImageUtils.valid validation) then
        set_page (setErrors (λ prev,
          match ImageUtils.error validation with
          | Some e => <["profilePicture" := e]> prev
          | None => delete "profilePicture" prev
          end))
      else
        set_page (setFormData (set_profilePicture file));;
        set_page (setErrors (delete "profilePicture"))
  end.

Definition handleSourceCodeChange (file : option File.t)
  : M (Sys State) unit :=
  match file with
  | None => mret tt
  | Some file =>
      if negb (endsWith (File.name file) (js ".zip")) then
        set_page (setErrors (<["sourceCode" := "File must be a .zip file"]>))
      else if (50 * 1024 * 1024 <? File.size file)%N then
        set_page (setErrors (<["sourceCode" := "File must be less than 50MB"]>))
      else
        set_page (setFormData (set_sourceCode file));;
        set_page (setErrors (delete "sourceCode"))
  end.

(** [compressImage] of lib/imageUtils. *)
Definition compressImage (env : Env) (file : File.t) : M (Sys State) File.t :=
  emit (CompressImage file);;
  match imageCompression env file with
  | Some compressedFile => mret compressedFile
  | None =>
      emit (ConsoleError "Error compressing image:");;
      throw "Failed to compress image"
  end.

(** The non-null assertion [x!], followed by a property access. *)
Definition non_null {A} (x : option A) : M (Sys State) A :=
  match x with
  | Some a => mret a
  | None => throw "Cannot read properties of null"
  end.

Definition handleSubmit (env : Env) : M (Sys State) unit :=
  s ← get;
  let st := page s in
  (* Validate form *)
  let validationErrors := validateSubmissionForm (formData st) in
  if bool_decide (0 < size validationErrors) then
    set_page (setErrors (λ _, validationErrors));;
    emit (ToastError "Please fix the errors in the form")
  else
    set_page (setSubmitting true);;
    finally
      (try_catch
         (match userId st with
          | None | Some [] => emit (ToastError "User not authenticated")
          | Some ((_ :: _) as userId) =>
              (* Compress and upload profile picture *)
              emit (ToastLoading "Compressing profile picture...");;
              picture ← non_null (profilePicture (formData st));
              compressedImage ← compressImage env picture;
              let imageExt := split_pop 46%N (File.name compressedImage) in
              let imagePath := userId ++ js "/profile." ++ imageExt in
              imageUploadError ←
                storage_upload (image_upload_reply env) "profile-pictures"
                  imagePath compressedImage;
              if bool_decide (is_Some imageUploadError) then
                throw "Failed to upload profile picture"
              else
                let imageUrl := publicUrl env "profile-pictures" imagePath in
                (* Upload source code *)
                emit (ToastLoading "Uploading source code...");;
                archive ← non_null (sourceCode (formData st));
                let codeExt := split_pop 46%N (File.name archive) in
                let codePath := userId ++ js "/source-code." ++ codeExt in
                codeUploadError ←
                  storage_upload (code_upload_reply env) "source-code"
                    codePath archive;
                if bool_decide (is_Some codeUploadError) then
                  throw "Failed to upload source code"
                else
                  let codeUrl := publicUrl env "source-code" codePath in
                  (* Insert submission *)
                  emit (ToastLoading "Saving submission...");;
                  submissionError ←
                    insert_submission (insert_reply env)
                      {| Submission.id := next_id env;
                         Submission.user_id := userId;
                         Submission.full_name := trim (fullName (formData st));
                         Submission.phone_number := trim (phoneNumber (formData st));
                         Submission.location := trim (location (formData st));
                         Submission.email := trim (email (formData st));
                         Submission.hobbies := trim (hobbies (formData st));
                         Submission.profile_picture_url := imageUrl;
                         Submission.source_code_url := codeUrl;
                         Submission.status := Submission.pending;
                         Submission.feedback := None;
                         Submission.created_at := now env |};
                  if bool_decide (is_Some submissionError) then
                    throw "Failed to save submission"
                  else
                    emit ToastDismiss;;
                    emit (ToastSuccess "Submission successful! ðŸŽ‰");;
                    set_page (setHasSubmission true)
          end)
         (λ message,
            emit (ConsoleError "Submission error:");;
            emit ToastDismiss;;
            emit (ToastError
                    (or_default message "Failed to submit. Please try again."))))
      (set_page (setSubmitting false)).

Definition handleLogout : M (Sys State) unit :=
  emit AuthSignOut;;
  emit (RouterPush "/login").

(** What the component returns: the loading placeholder, the
    "Submission Received!" card, or the form. *)
Inductive View : Type := LoadingView | SubmittedView | FormView.

Definition render (st : State) : View :=
  if loading st then LoadingView
  else if hasSubmission st then SubmittedView
  else FormView.

(** What can happen to a page: it is (re)loaded, which runs the effect hook
    on fresh state, or the user acts on a control. *)
Inductive Action : Type :=
| Load
| ChangeInput (f : TextField) (value : jsstring)
| ChangeProfilePicture (file : option File.t)
| ChangeSourceCode (file : option File.t)
| SubmitForm
| ClickLogout.

(** A control fires its handler only when the current view contains it and
    it is not disabled. *)
Definition dispatch (a : Action) (env : Env) : M (Sys State) unit :=
  s ← get;
  match a, render (page s) with
  | Load, _ => set_page (λ _, initial);; checkAuth env
  | ChangeInput f value, FormView =>
      if submitting (page s) then mret tt else handleInputChange f value
  | ChangeProfilePicture file, FormView =>
      if submitting (page s) then mret tt else handleProfilePictureChange file
  | ChangeSourceCode file, FormView =>
      if submitting (page s) then mret tt else handleSourceCodeChange file
  | SubmitForm, FormView =>
      if submitting (page s) then mret tt else handleSubmit env
  | ClickLogout, (SubmittedView | FormView) => handleLogout
  | _, _ => mret tt
  end.

Definition step (s : Sys State) (ae : Action * Env) : Sys State :=
  (dispatch ae.1 ae.2 s).2.

Definition run (s : Sys State) (script : list (Action * Env)) : Sys State :=
  foldl step s script.

(** Opening the page in a world. *)
Definition enter (env : Env) (w : World) : Sys State :=
  (checkAuth env (mkSys initial w [])).2.

(** The four steps of an attempt that leave the page, in the order of the
    specification. *)
Inductive Step : Type :=
| compress_step | upload_image_step | upload_archive_step | insert_step.

#[global] Instance Step_eq_dec : EqDecision Step.
Proof. solve_decision. Defined.

Definition step_of (e : Event) : option Step :=
  match e with
  | CompressImage _ => Some compress_step
  | StorageUpload bucket _ _ =>
      if String.eqb bucket "profile-pictures" then Some upload_image_step
      else Some upload_archive_step
  | InsertSubmission _ => Some insert_step
  | _ => None
  end.

Definition steps (t : list Event) : list Step := omap step_of t.

(** One of the steps before the insert is bound to fail. *)
Definition early_step_fails (env : Env) (st : State) : Prop :=
  (∀ picture, profilePicture (formData st) = Some picture →
              imageCompression env picture = None)
  ∨ image_upload_reply env ≠ Answered
  ∨ code_upload_reply env ≠ Answered.

(** Everything an attempt needs is there and every step succeeds. *)
Definition attempt_succeeds (env : Env) (st : State) : Prop :=
  validateSubmissionForm (formData st) = ∅
  ∧ (∃ uid, userId st = Some uid ∧ uid ≠ [])
  ∧ (∃ picture, profilePicture (formData st) = Some picture
                ∧ is_Some (imageCompression env picture))
  ∧ image_upload_reply env = Answered
  ∧ code_upload_reply env = Answered
  ∧ insert_reply env = Answered.

(** At most one row per [user_id]. *)
Definition one_submission_per_user (table : list Submission.t) : Prop :=
  ∀ uid, length (rows_of_user uid table) ≤ 1.

(** The page load of a script step, if it is one, gets its lookup of the
    user's submission answered or rejected, not answered with an error. *)
Definition lookup_not_errored (ae : Action * Env) : Prop :=
  ae.1 = Load → lookup_reply ae.2 ≠ Errored.

(** The environment of a page load signs [uid] in as a developer and
    answers the lookup of the user's submission. *)
Definition signs_in (env : Env) (uid : jsstring) : Prop :=
  getUser env = Some (Some uid)
  ∧ profile env = ProfileRole (js "developer")
  ∧ lookup_reply env = Answered.

(** What the page guarantees between two steps, for a user [uid0] whose
    rows are [rows0]: the table has at most one row per user, the rows of
    [uid0] are as they were, and the form is only shown to a signed-in user
    without a row. *)
Definition page_inv (uid0 : jsstring) (rows0 : list Submission.t)
    (s : Sys State) : Prop :=
  one_submission_per_user (submissions_table (world s))
  ∧ rows_of_user uid0 (submissions_table (world s)) = rows0
  ∧ (render (page s) = FormView →
     ∃ uid, userId (page s) = Some uid
            ∧ rows_of_user uid (submissions_table (world s)) = []).

End SubmitPage.

(* ===================================================================== *)
(** ** The evaluate page *)
(* ===================================================================== *)

Module EvaluatePage.
Import JsString Handler Collab.
Local Open Scope string_scope.
Local Open Scope nat_scope.
Local Open Scope list_scope.
Local Open Scope stdpp_scope.

(** How [fetch("/api/send-email", ...)] ends: the promise rejects, or a
    response arrives whose [ok] flag says whether its status is 2xx. The
    page reads the text of a response that is not ok, and that read can
    reject as well: [FetchResponse false] is a response that is not ok
    whose text is read, [FetchUnreadable message] one whose
    [response.text()] rejects with an error of that message. *)
Inductive FetchReply : Type :=
| FetchRejected
| FetchResponse (ok : bool)
| FetchUnreadable (message : string).

(** The answers of the collaborators during one handler call. *)
Record Env : Type := {
  getUser : option (option jsstring);
  profile : ProfileReply;
  select_all_reply : Reply;
  update_reply : Reply;
  fetch_reply : FetchReply
}.

(** The React state of the page, and whether the change subscription has
    been set up. *)
Record State : Type := mkState {
  loading : bool;
  submissions : list Submission.t;
  selectedSubmission : option Submission.t;
  feedback : jsstring;
  processing : bool;
  subscribed : bool
}.

Definition initial : State :=
  {| loading := true; submissions := []; selectedSubmission := None;
     feedback := []; processing := false; subscribed := false |}.

Definition setLoading (b : bool) (st : State) : State :=
  mkState b (submissions st) (selectedSubmission st) (feedback st)
    (processing st) (subscribed st).
Definition setSubmissions (l : list Submission.t) (st : State) : State :=
  mkState (loading st) l (selectedSubmission st) (feedback st)
    (processing st) (subscribed st).
Definition setSelectedSubmission (o : option Submission.t) (st : State) : State :=
  mkState (loading st) (submissions st) o (feedback st) (processing st)
    (subscribed st).
Definition setFeedback (fb : jsstring) (st : State) : State :=
  mkState (loading st) (submissions st) (selectedSubmission st) fb
    (processing st) (subscribed st).
Definition setProcessing (b : bool) (st : State) : State :=
  mkState (loading st) (submissions st) (selectedSubmission st) (feedback st)
    b (subscribed st).
Definition setSubscribed (b : bool) (st : State) : State :=
  mkState (loading st) (submissions st) (selectedSubmission st) (feedback st)
    (processing st) b.

(** [.order("created_at", { ascending: false })] *)
Definition not_older (a b : Submission.t) : Prop :=
  (Submission.created_at b ≤ Submission.created_at a)%N.

#[global] Instance not_older_dec : RelDecision not_older.
Proof. intros a b. unfold not_older. apply _. Defined.

Definition newest_first (rows : list Submission.t) : list Submission.t :=
  merge_sort not_older rows.

Definition loadSubmissions (env : Env) : M (Sys State) unit :=
  try_catch
    (emit SelectAllSubmissions;;
     s ← get;
     match select_all_reply env with
     | Rejected => throw "Failed to fetch"
     | Errored => emit (ToastError "Failed to load submissions")
     | Answered =>
         set_page (setSubmissions
                     (newest_first (submissions_table (world s))));;
         set_page (setLoading false)
     end)
    (λ _, emit (ConsoleError "Error loading submissions:");;
          emit (ToastError "Failed to load submissions");;
          set_page (setLoading false)).

Definition subscribeToSubmissions : M (Sys State) unit :=
  set_page (setSubscribed true).

Definition access_denied : M (Sys State) unit :=
  emit (ToastError "Access denied. Evaluator credentials required.");;
  emit AuthSignOut;;
  emit (RouterPush "/login").

Definition checkAuth (env : Env) : M (Sys State) unit :=
  try_catch
    (emit AuthGetUser;;
     match getUser env with
     | None => throw "Failed to fetch"
     | Some None => emit (RouterPush "/login")
     | Some (Some uid) =>
         emit (SelectProfileRole uid);;
         match profile env with
         | ProfileRejected => throw "Failed to fetch"
         | ProfileError => access_denied
         | ProfileRole role =>
             if bool_decide (role ≠ js "evaluator") then access_denied
             else loadSubmissions env;; subscribeToSubmissions
         end
     end)
    (λ _, emit (ConsoleError "Auth check error:");;
          emit (RouterPush "/login")).

Definition handleSelectSubmission (submission : Submission.t)
  : M (Sys State) unit :=
  set_page (setSelectedSubmission (Some submission));;
  set_page (setFeedback (default [] (Submission.feedback submission))).

Definition handleDecision (env : Env) (decision : Decision)
  : M (Sys State) unit :=
  s ← get;
  let st := page s in
  match selectedSubmission st with
  | None => mret tt
  | Some selected =>
      if falsy_str (trim (feedback st)) then
        emit (ToastError "Please provide feedback before making a decision")
      else
        set_page (setProcessing true);;
        finally
          (try_catch
             ((* Update submission *)
              updateError ←
                update_submission (update_reply env) (Submission.id selected)
                  (decision_status decision) (trim (feedback st));
              if bool_decide (is_Some updateError) then
                throw "Failed to update submission"
              else
                (* Send email notification *)
                emit (FetchSendEmail
                        {| to := Submission.email selected;
                           name := Submission.full_name selected;
                           decision := decision;
                           Collab.feedback := trim (feedback st) |});;
                match fetch_reply env with
                | FetchRejected => throw "Failed to fetch"
                | FetchResponse ok =>
                    when (negb ok) (emit (ConsoleError "Email API error:"));;
                    emit (ToastSuccess
                            match decision with
                            | decide_accepted => "Candidate accepted! 🎉"
                            | decide_rejected => "Decision recorded."
                            end);;
                    set_page (setSelectedSubmission None);;
                    set_page (setFeedback []);;
                    loadSubmissions env
                | FetchUnreadable message =>
                    (* const errorText = await response.text(); *)
                    throw message
                end)
             (λ message,
                emit (ConsoleError "Decision error:");;
                emit (ToastError
                        (or_default message "Failed to process decision"))))
          (set_page (setProcessing false))
  end.

Definition handleLogout : M (Sys State) unit :=
  emit AuthSignOut;;
  emit (RouterPush "/login").

(** What the component returns: the loading placeholder, the
    "No Submissions Yet" card, or the dashboard with list and details. *)
Inductive View : Type := LoadingView | EmptyView | DashboardView.

Definition render (st : State) : View :=
  if loading st then LoadingView
  else if bool_decide (length (submissions st) = 0) then EmptyView
  else DashboardView.

(** The Accept and Reject buttons are part of the details panel only for a
    selected submission whose status is [pending]. *)
Definition decision_buttons_rendered (st : State) : bool :=
  match render st, selectedSubmission st with
  | DashboardView, Some selected =>
      bool_decide (Submission.status selected = Submission.pending)
  | _, _ => false
  end.

(** [disabled={processing || !feedback.trim()}] *)
Definition decision_buttons_disabled (st : State) : bool :=
  processing st || falsy_str (trim (feedback st)).

(** The feedback box is part of the details panel of any selected
    submission; [disabled={processing || status !== "pending"}]. *)
Definition feedback_box_enabled (st : State) : bool :=
  match render st, selectedSubmission st with
  | DashboardView, Some selected =>
      negb (processing st
            || bool_decide (Submission.status selected ≠ Submission.pending))
  | _, _ => false
  end.

Inductive Action : Type :=
| Load
| SubmissionsChanged
| ClickSubmission (submission : Submission.t)
| TypeFeedback (value : jsstring)
| ClickDecision (decision : Decision)
| ClickLogout.

(** A control fires its handler only when the current view contains it and
    it is not disabled; the subscription callback fires once subscribed. *)
Definition dispatch (a : Action) (env : Env) : M (Sys State) unit :=
  s ← get;
  let st := page s in
  match a with
  | Load => set_page (λ _, initial);; checkAuth env
  | SubmissionsChanged =>
      if subscribed st then loadSubmissions env else mret tt
  | ClickSubmission submission =>
      match render st with
      | DashboardView =>
          if bool_decide (submission ∈ submissions st)
          then handleSelectSubmission submission else mret tt
      | _ => mret tt
      end
  | TypeFeedback value =>
      if feedback_box_enabled st then set_page (setFeedback value)
      else mret tt
  | ClickDecision decision =>
      if decision_buttons_rendered st && negb (decision_buttons_disabled st)
      then handleDecision env decision else mret tt
  | ClickLogout =>
      match render st with
      | LoadingView => mret tt
      | _ => handleLogout
      end
  end.

Definition step (s : Sys State) (ae : Action * Env) : Sys State :=
  (dispatch ae.1 ae.2 s).2.

Definition run (s : Sys State) (script : list (Action * Env)) : Sys State :=
  foldl step s script.

(** No request left the page: neither to the store nor to the endpoint. *)
Definition is_request (e : Event) : bool :=
  match e with
  | UpdateSubmission _ _ _ | InsertSubmission _ | FetchSendEmail _
  | SelectAllSubmissions | SelectSubmissionOfUser _ | SelectProfileRole _
  | StorageUpload _ _ _ | AuthGetUser | AuthSignOut => true
  | _ => false
  end.

(** The requests that change the table or the blobs. *)
Definition is_write (e : Event) : bool :=
  match e with
  | UpdateSubmission _ _ _ | InsertSubmission _ | StorageUpload _ _ _ => true
  | _ => false
  end.

End EvaluatePage.

(* ===================================================================== *)
(** ** The route POST /api/send-email *)
(* ===================================================================== *)

Module SendEmail.
Import JsString Handler.
Local Open Scope string_scope.
Local Open Scope nat_scope.
Local Open Scope list_scope.
Local Open Scope stdpp_scope.

(** A value found under a key of the request body. Arrays and objects are
    not looked into: the route only tests them for truthiness and prints
    them. *)
Inductive JsValue : Type :=
| VNull
| VBool (b : bool)
| VNum (q : Q)
| VStr (s : jsstring)
| VObject.

(** [!!v], where [None] stands for [undefined]. *)
Definition truthy (v : option JsValue) : bool :=
  match v with
  | None => false
  | Some VNull => false
  | Some (VBool b) => b
  | Some (VNum q) => negb (Qeq_bool q 0)
  | Some (VStr s) => negb (falsy_str s)
  | Some VObject => true
  end.

(** What [await request.json()] gives: a rejection when the body is not
    JSON, [null], another value without properties of its own names (a
    number, a string, a boolean, an array), or an object. The messages
    are the runtime's: the one of the error [request.json()] rejects
    with, and the one of the [TypeError] that destructuring [null]
    throws. *)
Inductive Body : Type :=
| BodyUnparsable (message : string)
| BodyNull (message : string)
| BodyOther
| BodyObject (props : gmap string JsValue).

(** [process.env] *)
Record ProcessEnv : Type := {
  MAILJET_API_KEY : option jsstring;
  MAILJET_SECRET_KEY : option jsstring;
  MAILJET_FROM_EMAIL : option jsstring;
  MAILJET_FROM_NAME : option jsstring
}.

(** [!v] for an environment variable. *)
Definition unset (v : option jsstring) : bool :=
  match v with
  | None => true
  | Some s => falsy_str s
  end.

(** [v || fallback] *)
Definition or_else (v : option jsstring) (fallback : jsstring) : jsstring :=
  match v with
  | None => fallback
  | Some s => if falsy_str s then fallback else s
  end.

(** How the call to the mail transport ends: the promise rejects, or a
    response arrives with its [ok] flag; for a response that is not ok the
    route parses its body as JSON, which can fail as well: [json_error]
    is then the message of the error [response.json()] rejects with, and
    [None] when the body is JSON. *)
Inductive MailjetReply : Type :=
| MailjetRejected (message : string)
| MailjetResponse (ok : bool) (json_error : option string).

(** The two message templates (HTML and text part), chosen by the
    decision and filled with the name and the feedback. *)
Inductive Template : Type := WelcomeTemplate | UpdateTemplate.

Record Message : Type := {
  From_Email : jsstring;
  From_Name : jsstring;
  To_Email : JsValue;
  To_Name : JsValue;
  Subject : string;
  Parts : Template;
  Parts_name : JsValue;
  Parts_feedback : JsValue
}.

Inductive ServerEvent : Type :=
| ReadJson
| ReadEnv (variable : string)
| ConsoleError (label : string)
| MailjetSend (key secret : jsstring) (message : Message).

Inductive ResponseBody : Type :=
| error_body (error : string)
| success_body.

(** [NextResponse.json(body, { status })]; the status is 200 when none is
    given. *)
Record Response : Type := { status : N; body : ResponseBody }.

Definition emit (e : ServerEvent) : M (list ServerEvent) unit :=
  modify (λ t, t ++ [e]).

Definition is_accepted (decision : option JsValue) : bool :=
  match decision with
  | Some (VStr s) => bool_decide (s = js "accepted")
  | _ => false
  end.

Definition the (v : option JsValue) : JsValue := default VNull v.

Definition POST (env : ProcessEnv) (mailjet : MailjetReply) (request : Body)
  : M (list ServerEvent) Response :=
  try_catch
    (emit ReadJson;;
     props ←
       match request with
       | BodyUnparsable message => throw message
       | BodyNull message => throw message
       | BodyOther => mret ∅
       | BodyObject props => mret props
       end;
     let to := props !! "to" in
     let name := props !! "name" in
     let decision := props !! "decision" in
     let feedback := props !! "feedback" in
     if negb (truthy to) || negb (truthy name) || negb (truthy decision)
        || negb (truthy feedback) then
       mret {| status := 400; body := error_body "Missing required fields" |}
     else
       emit (ReadEnv "MAILJET_API_KEY");;
       emit (ReadEnv "MAILJET_SECRET_KEY");;
       emit (ReadEnv "MAILJET_FROM_EMAIL");;
       emit (ReadEnv "MAILJET_FROM_NAME");;
       let apiKey := MAILJET_API_KEY env in
       let secretKey := MAILJET_SECRET_KEY env in
       let fromEmail :=
         or_else (MAILJET_FROM_EMAIL env) (js "mariayoussef61@gmail.com") in
       let fromName := or_else (MAILJET_FROM_NAME env) (js "Maria Youssef") in
       if unset apiKey || unset secretKey then
         emit (ConsoleError "Mailjet credentials not configured");;
         mret {| status := 500;
                 body := error_body "Email service not configured" |}
       else
         let subject :=
           if is_accepted decision then "ðŸŽ‰ Welcome to MoonDev!"
           else "MoonDev Internship Application Update" in
         let parts :=
           if is_accepted decision then WelcomeTemplate else UpdateTemplate in
         (* Send email via Mailjet *)
         emit (MailjetSend (default [] apiKey) (default [] secretKey)
                 {| From_Email := fromEmail; From_Name := fromName;
                    To_Email := the to; To_Name := the name;
                    Subject := subject; Parts := parts;
                    Parts_name := the name;
                    Parts_feedback := the feedback |});;
         match mailjet with
         | MailjetRejected message => throw message
         | MailjetResponse ok json_error =>
             if negb ok then
               match json_error with
               | None =>
                   emit (ConsoleError "Mailjet error:");;
                   throw "Failed to send email"
               | Some message => throw message
               end
             else mret {| status := 200; body := success_body |}
         end)
    (λ message,
       emit (ConsoleError "Email sending error:");;
       mret {| status := 500;
               body := error_body (or_default message "Failed to send email") |}).

(** The route called on a request, with an empty log. *)
Definition respond (env : ProcessEnv) (mailjet : MailjetReply) (request : Body)
  : option Response * list ServerEvent :=
  match POST env mailjet request [] with
  | (Value r, t) => (Some r, t)
  | (Throws _, t) => (None, t)
  end.

Definition bad_request : Response :=
  {| status := 400; body := error_body "Missing required fields" |}.

(** One of the four values is missing or falsy. *)
Definition some_field_falsy (props : gmap string JsValue) : bool :=
  negb (truthy (props !! "to")) || negb (truthy (props !! "name"))
  || negb (truthy (props !! "decision")) || negb (truthy (props !! "feedback")).

(** The route did no more than read the body: no credential was read and
    the transport was not asked to send. *)
Definition is_env_read (e : ServerEvent) : bool :=
  match e with ReadEnv _ => true | _ => false end.

Definition is_send (e : ServerEvent) : bool :=
  match e with MailjetSend _ _ _ => true | _ => false end.

Definition only_read_body (log : list ServerEvent) : Prop :=
  Forall (λ e, is_env_read e = false ∧ is_send e = false) log.

End SendEmail.

(* ===================================================================== *)
(** ** Concrete drafts, tables and environments used in examples *)
(* ===================================================================== *)

Module Scenario.
Import JsString Collab Validation.
Local Open Scope string_scope.
Local Open Scope list_scope.
Local Open Scope stdpp_scope.

Definition picture : File.t :=
  File.mk (js "me.png") 204800 (js "image/png").

Definition archive : File.t :=
  File.mk (js "project.zip") 1048576 (js "application/zip").

Definition draft : SubmissionFormData :=
  {| fullName := js "Ada Lovelace";
     phoneNumber := js "+1 555-123-4567";
     location := js "London";
     email := js "ada@example.org";
     hobbies := js "Analytical engines and poetical science";
     profilePicture := Some picture;
     sourceCode := Some archive |}.

Definition ada : jsstring := js "user-ada".

(** The row an earlier submission of [ada] left in the table. *)
Definition earlier_row (st : Submission.Status) : Submission.t :=
  {| Submission.id := js "row-1";
     Submission.user_id := ada;
     Submission.full_name := js "Ada Lovelace";
     Submission.phone_number := js "+1 555-123-4567";
     Submission.location := js "London";
     Submission.email := js "ada@example.org";
     Submission.hobbies := js "Analytical engines and poetical science";
     Submission.profile_picture_url := js "https://blobs/user-ada/profile.png";
     Submission.source_code_url := js "https://blobs/user-ada/source-code.zip";
     Submission.status := st;
     Submission.feedback := None;
     Submission.created_at := 1 |}.

Definition world_with_row (st : Submission.Status) : World :=
  {| submissions_table := [earlier_row st]; blobs := ∅ |}.

(** A developer session of [ada] in which everything works, except that
    the lookup of her submission ends as [lookup] says. *)
Definition submit_env (lookup : Reply) : SubmitPage.Env :=
  {| SubmitPage.getUser := Some (Some ada);
     SubmitPage.profile := ProfileRole (js "developer");
     SubmitPage.lookup_reply := lookup;
     SubmitPage.imageCompression := λ f, Some f;
     SubmitPage.image_upload_reply := Answered;
     SubmitPage.code_upload_reply := Answered;
     SubmitPage.insert_reply := Answered;
     SubmitPage.publicUrl := λ _ path, js "https://blobs/" ++ path;
     SubmitPage.next_id := js "row-2";
     SubmitPage.now := 2 |}.

(** Filling the form with [draft] and submitting it. *)
Definition fill_and_submit (env : SubmitPage.Env)
  : list (SubmitPage.Action * SubmitPage.Env) :=
  [ (SubmitPage.ChangeInput SubmitPage.fullName_field (fullName draft), env);
    (SubmitPage.ChangeInput SubmitPage.phoneNumber_field (phoneNumber draft), env);
    (SubmitPage.ChangeInput SubmitPage.location_field (location draft), env);
    (SubmitPage.ChangeInput SubmitPage.email_field (email draft), env);
    (SubmitPage.ChangeInput SubmitPage.hobbies_field (hobbies draft), env);
    (SubmitPage.ChangeProfilePicture (Some picture), env);
    (SubmitPage.ChangeSourceCode (Some archive), env);
    (SubmitPage.SubmitForm, env) ].

(** [draft] with another hobbies text. *)
Definition with_hobbies (text : jsstring) : SubmissionFormData :=
  {| fullName := fullName draft;
     phoneNumber := phoneNumber draft;
     location := location draft;
     email := email draft;
     hobbies := text;
     profilePicture := profilePicture draft;
     sourceCode := sourceCode draft |}.

(** The submit page of [ada], loaded, with [draft] filled in. *)
Definition filled_form : SubmitPage.State :=
  {| SubmitPage.loading := false;
     SubmitPage.submitting := false;
     SubmitPage.hasSubmission := false;
     SubmitPage.userId := Some ada;
     SubmitPage.formData := draft;
     SubmitPage.errors := ∅ |}.

Definition empty_world : World := {| submissions_table := []; blobs := ∅ |}.

(** The evaluate page with the row of [ada] selected and [fb] typed into
    the feedback box. *)
Definition review_state (st : Submission.Status) (fb : jsstring)
  : EvaluatePage.State :=
  {| EvaluatePage.loading := false;
     EvaluatePage.submissions := [earlier_row st];
     EvaluatePage.selectedSubmission := Some (earlier_row st);
     EvaluatePage.feedback := fb;
     EvaluatePage.processing := false;
     EvaluatePage.subscribed := true |}.

(** An evaluator session in which the update ends as [update] says and
    the notification endpoint answers with a response that is [ok] or
    not. *)
Definition review_env (update : Reply) (ok : bool) : EvaluatePage.Env :=
  {| EvaluatePage.getUser := Some (Some (js "user-eve"));
     EvaluatePage.profile := ProfileRole (js "evaluator");
     EvaluatePage.select_all_reply := Answered;
     EvaluatePage.update_reply := update;
     EvaluatePage.fetch_reply := EvaluatePage.FetchResponse ok |}.

(** An evaluator session in which the update is answered and the
    notification endpoint answers with a response that is not ok and whose
    text cannot be read. *)
Definition unreadable_response : EvaluatePage.Env :=
  {| EvaluatePage.getUser := Some (Some (js "user-eve"));
     EvaluatePage.profile := ProfileRole (js "evaluator");
     EvaluatePage.select_all_reply := Answered;
     EvaluatePage.update_reply := Answered;
     EvaluatePage.fetch_reply :=
       EvaluatePage.FetchUnreadable "The network connection was lost." |}.

(** A server with its transport credentials configured. *)
Definition configured : SendEmail.ProcessEnv :=
  {| SendEmail.MAILJET_API_KEY := Some (js "key");
     SendEmail.MAILJET_SECRET_KEY := Some (js "secret");
     SendEmail.MAILJET_FROM_EMAIL := None;
     SendEmail.MAILJET_FROM_NAME := None |}.

(** The body the evaluate page posts for an accepted candidate, with
    [feedback] as its last value. *)
Definition accepted_request (feedback : SendEmail.JsValue) : SendEmail.Body :=
  SendEmail.BodyObject
    {[ "to" := SendEmail.VStr (js "ada@example.org");
       "name" := SendEmail.VStr (js "Ada Lovelace");
       "decision" := SendEmail.VStr (js "accepted");
       "feedback" := feedback ]}.

End Scenario.

(* ===================================================================== *)
(** ** The login page *)
(* ===================================================================== *)

Module LoginPage.
Import JsString Handler Collab.
Local Open Scope string_scope.
Local Open Scope list_scope.
Local Open Scope stdpp_scope.

(** How [auth.signInWithPassword] ends: the promise rejects, or it answers
    with an error and its message, with no user, or with the id of the
    user. *)
Inductive SignInReply : Type :=
| SignInRejected
| SignInError (message : string)
| SignInNoUser
| SignInUser (uid : jsstring).

Record Env : Type := {
  signIn : SignInReply;
  profile : ProfileReply
}.

Record State : Type := mkState {
  email : jsstring;
  password : jsstring;
  loading : bool;
  showPassword : bool
}.

Definition initial : State :=
  {| email := []; password := []; loading := false; showPassword := false |}.

Inductive LoginEvent : Type :=
| SignIn (email password : jsstring)
| SelectRole (uid : jsstring)
| SignOut
| Toast (message : string)
| LogError (label : string)
| Push (path : string).

#[global] Instance LoginEvent_eq_dec : EqDecision LoginEvent.
Proof. solve_decision. Defined.

(** The page: its React state and what happened so far. *)
Abbreviation Page := (State * list LoginEvent)%type.

Definition emit (e : LoginEvent) : M Page unit :=
  modify (λ s, (s.1, s.2 ++ [e])).

Definition setLoading (b : bool) : M Page unit :=
  modify (λ s, (mkState (email s.1) (password s.1) b (showPassword s.1), s.2)).

Definition handleLogin (env : Env) : M Page unit :=
  s ← get;
  setLoading true;;
  finally
    (try_catch
       (emit (SignIn (email s.1) (password s.1));;
        match signIn env with
        | SignInRejected => throw "Failed to fetch"
        | SignInError message => emit (Toast message);; setLoading false
        | SignInNoUser =>
            emit (Toast "Login failed. Please try again.");; setLoading false
        | SignInUser uid =>
            (* Get user profile to determine role *)
            emit (SelectRole uid);;
            match profile env with
            | ProfileRejected => throw "Failed to fetch"
            | ProfileError =>
                emit (Toast "Failed to retrieve user profile");;
                emit SignOut;;
                setLoading false
            | ProfileRole role =>
                (* Redirect based on role *)
                if bool_decide (role = js "developer") then
                  emit (Push "./submit")
                else if bool_decide (role = js "evaluator") then
                  emit (Push "./evaluate")
                else
                  emit (Toast "Invalid user role");;
                  emit SignOut
            end
        end)
       (λ _, emit (LogError "Login error:");;
             emit (Toast "An unexpected error occurred")))
    (setLoading false).

(** The form is submitted through its button, [disabled={loading}]. *)
Definition submit (env : Env) (s : Page) : Page :=
  if loading s.1 then s else (handleLogin env s).2.

(** Where the page sends the browser, if anywhere. *)
Definition destination (t : list LoginEvent) : list string :=
  omap (λ e, match e with Push path => Some path | _ => None end) t.

Definition signs_out (t : list LoginEvent) : bool :=
  bool_decide (SignOut ∈ t).

End LoginPage.

(* ===================================================================== *)
(** ** Vocabulary for the properties of the pages and of the route *)
(* ===================================================================== *)

Module Vocabulary.
Import JsString Handler Collab Validation.
Local Open Scope string_scope.
Local Open Scope nat_scope.
Local Open Scope list_scope.
Local Open Scope stdpp_scope.

(** A user is signed in and the profile has the role [evaluator]. *)
Definition is_evaluator (env : EvaluatePage.Env) : bool :=
  match EvaluatePage.getUser env, EvaluatePage.profile env with
  | Some (Some _), ProfileRole role => bool_decide (role = js "evaluator")
  | _, _ => false
  end.

(** A text without white space at either end. *)
Definition trimmed (s : jsstring) : Prop :=
  (∀ c, head s = Some c → is_ws c = false)
  ∧ (∀ c, last s = Some c → is_ws c = false).

(** The text columns of a row meet the rules of the form. *)
Definition stored_fields_ok (row : Submission.t) : Prop :=
  (2 ≤ length (Submission.full_name row) ≤ 100
   ∧ trimmed (Submission.full_name row))
  ∧ (7 ≤ digit_count (Submission.phone_number row) ≤ 15
     ∧ trimmed (Submission.phone_number row))
  ∧ (2 ≤ length (Submission.location row) ≤ 100
     ∧ trimmed (Submission.location row))
  ∧ email_shape (Submission.email row)
  ∧ (20 ≤ length (Submission.hobbies row) ≤ 1000
     ∧ trimmed (Submission.hobbies row)).

(** The storage keys an attempt of user [uid] may write. *)
Definition own_key (uid : jsstring) (key : string * jsstring) : Prop :=
  key = ("source-code", uid ++ js "/source-code.zip")
  ∨ ∃ ext, key = ("profile-pictures", uid ++ js "/profile." ++ ext).

(** The messages of the error toasts and of the success toasts of a
    trace, in order. *)
Definition error_toasts (t : list Event) : list string :=
  omap (λ e, match e with ToastError m => Some m | _ => None end) t.

Definition success_toasts (t : list Event) : list string :=
  omap (λ e, match e with ToastSuccess m => Some m | _ => None end) t.

(** What the two file inputs of the submit page let through. *)
Definition picture_ok (file : File.t) : Prop :=
  ImageUtils.valid (ImageUtils.validateImageFile file) = true.

Definition archive_ok (file : File.t) : Prop :=
  endsWith (File.name file) (js ".zip") = true
  ∧ (File.size file ≤ 50 * 1024 * 1024)%N.

Definition files_ok (d : SubmissionFormData) : Prop :=
  (∀ file, profilePicture d = Some file → picture_ok file)
  ∧ (∀ file, sourceCode d = Some file → archive_ok file).

(** A file that is compressed passed the picture check; a file that is
    uploaded as source code passed the archive check. *)
Definition handled_file_ok (e : Event) : Prop :=
  match e with
  | CompressImage file => picture_ok file
  | StorageUpload bucket _ file => bucket = "source-code" → archive_ok file
  | _ => True
  end.

(** The payloads posted to [/api/send-email], in order. *)
Definition notifications (t : list Event) : list EmailPayload :=
  omap (λ e, match e with FetchSendEmail p => Some p | _ => None end) t.

(** The columns of a row that only the submit page writes. *)
Definition frozen_columns (r : Submission.t)
  : jsstring * jsstring * jsstring * jsstring * jsstring * jsstring
    * jsstring * jsstring * jsstring * N :=
  (Submission.id r, Submission.user_id r, Submission.full_name r,
   Submission.phone_number r, Submission.location r, Submission.email r,
   Submission.hobbies r, Submission.profile_picture_url r,
   Submission.source_code_url r, Submission.created_at r).

(** The only actions a read-only details panel could receive. *)
Definition edits_only (ae : EvaluatePage.Action * EvaluatePage.Env) : Prop :=
  (∃ value, ae.1 = EvaluatePage.TypeFeedback value)
  ∨ (∃ decision, ae.1 = EvaluatePage.ClickDecision decision).

(** [JSON.stringify] of the payload of the evaluate page, as the route
    reads it back. *)
Definition payload_body (p : EmailPayload) : SendEmail.Body :=
  SendEmail.BodyObject
    {[ "to" := SendEmail.VStr (to p);
       "name" := SendEmail.VStr (name p);
       "decision" :=
         SendEmail.VStr
           match decision p with
           | decide_accepted => js "accepted"
           | decide_rejected => js "rejected"
           end;
       "feedback" := SendEmail.VStr (feedback p) ]}.

(** The request has all four values and the server has its credentials:
    the route gets as far as asking the transport to send. *)
Definition sendable (env : SendEmail.ProcessEnv) (request : SendEmail.Body)
  : bool :=
  match request with
  | SendEmail.BodyObject props =>
      negb (SendEmail.some_field_falsy props)
      && negb (SendEmail.unset (SendEmail.MAILJET_API_KEY env)
               || SendEmail.unset (SendEmail.MAILJET_SECRET_KEY env))
  | _ => false
  end.

Definition transport_ok (mailjet : SendEmail.MailjetReply) : bool :=
  match mailjet with
  | SendEmail.MailjetResponse true _ => true
  | _ => false
  end.

(** A value of the request that is a non-empty string. *)
Definition given (v : option SendEmail.JsValue) : Prop :=
  ∃ s, v = Some (SendEmail.VStr s) ∧ s ≠ [].

(** An environment variable that is absent or empty, and one that has a
    value. *)
Definition key_unset (v : option jsstring) : Prop := v = None ∨ v = Some [].

Definition key_set (v : option jsstring) : Prop := ∃ s, v = Some s ∧ s ≠ [].

(** The messages handed to the transport, in order. *)
Definition sent_messages (log : list SendEmail.ServerEvent)
  : list SendEmail.Message :=
  omap (λ e, match e with
             | SendEmail.MailjetSend _ _ m => Some m
             | _ => None
             end) log.

End Vocabulary.

(** * More concrete data *)

Module Cases.
Import JsString Collab Validation Scenario.
Local Open Scope string_scope.
Local Open Scope list_scope.
Local Open Scope stdpp_scope.

(** A login of [ada], whose profile has the role [developer]. *)
Definition developer_login : LoginPage.Env :=
  {| LoginPage.signIn := LoginPage.SignInUser ada;
     LoginPage.profile := ProfileRole (js "developer") |}.

(** The row the submit page sends to the store for [draft]. *)
Definition new_row : Submission.t :=
  {| Submission.id := js "row-2";
     Submission.user_id := ada;
     Submission.full_name := js "Ada Lovelace";
     Submission.phone_number := js "+1 555-123-4567";
     Submission.location := js "London";
     Submission.email := js "ada@example.org";
     Submission.hobbies := js "Analytical engines and poetical science";
     Submission.profile_picture_url := js "https://blobs/user-ada/profile.png";
     Submission.source_code_url := js "https://blobs/user-ada/source-code.zip";
     Submission.status := Submission.pending;
     Submission.feedback := None;
     Submission.created_at := 2 |}.

(** An evaluator session in which the update is answered and the request
    to the notification endpoint is rejected. *)
Definition unreachable_endpoint : EvaluatePage.Env :=
  {| EvaluatePage.getUser := Some (Some (js "user-eve"));
     EvaluatePage.profile := ProfileRole (js "evaluator");
     EvaluatePage.select_all_reply := Answered;
     EvaluatePage.update_reply := Answered;
     EvaluatePage.fetch_reply := EvaluatePage.FetchRejected |}.

(** The notification for [ada], accepted with the feedback
    [Great work]. *)
Definition ada_accepted : EmailPayload :=
  {| to := js "ada@example.org";
     name := js "Ada Lovelace";
     decision := decide_accepted;
     feedback := js "Great work" |}.

(** A server without any of its environment variables. *)
Definition unconfigured : SendEmail.ProcessEnv :=
  {| SendEmail.MAILJET_API_KEY := None;
     SendEmail.MAILJET_SECRET_KEY := None;
     SendEmail.MAILJET_FROM_EMAIL := None;
     SendEmail.MAILJET_FROM_NAME := None |}.

(** The message the route builds for it on the [configured] server. *)
Definition welcome_message : SendEmail.Message :=
  {| SendEmail.From_Email := js "mariayoussef61@gmail.com";
     SendEmail.From_Name := js "Maria Youssef";
     SendEmail.To_Email := SendEmail.VStr (js "ada@example.org");
     SendEmail.To_Name := SendEmail.VStr (js "Ada Lovelace");
     SendEmail.Subject := "ðŸŽ‰ Welcome to MoonDev!";
     SendEmail.Parts := SendEmail.WelcomeTemplate;
     SendEmail.Parts_name := SendEmail.VStr (js "Ada Lovelace");
     SendEmail.Parts_feedback := SendEmail.VStr (js "Great work") |}.

End Cases.

(* ===================================================================== *)
(** * Proofs *)
(* ===================================================================== *)

(** ** Strings *)

Module JsStringFacts.
Import JsString.

Lemma trimStart_nil_iff s : trimStart s = [] ↔ Forall (λ c, is_ws c = true) s.
Proof.
  induction s as [|c s IH]; simpl.
  - split; [constructor | done].
  - destruct (is_ws c) eqn:E.
    + rewrite IH. split; [by constructor | by inversion 1].
    + split; [done |]. inversion 1; congruence.
Qed.

Lemma trimStart_suffix s : ∃ k, s = k ++ trimStart s ∧ Forall (λ c, is_ws c = true) k.
Proof.
  induction s as [|c s [k [IH1 IH2]]]; simpl.
  - by exists [].
  - destruct (is_ws c) eqn:E.
    + exists (c :: k). simpl. split; [by f_equal | by constructor].
    + by exists [].
Qed.

Lemma trimStart_length s : length (trimStart s) ≤ length s.
Proof.
  destruct (trimStart_suffix s) as [k [Hk _]].
  rewrite Hk at 2. rewrite length_app. lia.
Qed.

Lemma trimStart_id c s : is_ws c = false → trimStart (c :: s) = c :: s.
Proof. intros H. simpl. by rewrite H. Qed.

Lemma trim_nil_iff s : trim s = [] ↔ Forall (λ c, is_ws c = true) s.
Proof.
  unfold trim, trimEnd.
  split.
  - intros H. apply (f_equal reverse) in H. rewrite reverse_involutive in H.
    simpl in H. apply trimStart_nil_iff in H. apply Forall_reverse in H.
    rewrite reverse_involutive in H.
    destruct (trimStart_suffix s) as [k [Hk Hws]].
    rewrite Hk. apply Forall_app. split; done.
  - intros H. apply trimStart_nil_iff in H. rewrite H. done.
Qed.

Lemma trim_length s : length (trim s) ≤ length s.
Proof.
  unfold trim, trimEnd. rewrite length_reverse.
  etrans; [apply trimStart_length|]. rewrite length_reverse.
  apply trimStart_length.
Qed.

(** A string that neither starts nor ends with white space is its own trim. *)
Lemma trim_id s :
  (∀ c, head s = Some c → is_ws c = false) →
  (∀ c, last s = Some c → is_ws c = false) →
  trim s = s.
Proof.
  intros Hh Hl. unfold trim, trimEnd.
  assert (Hs : trimStart s = s).
  { destruct s as [|c s]; [done|]. apply trimStart_id, Hh. done. }
  rewrite Hs.
  destruct (reverse s) as [|c r] eqn:Hr.
  - apply (f_equal reverse) in Hr. rewrite reverse_involutive in Hr.
    by rewrite Hr.
  - rewrite trimStart_id.
    + by rewrite <- Hr, reverse_involutive.
    + apply Hl. apply (f_equal reverse) in Hr.
      rewrite reverse_involutive in Hr. rewrite Hr.
      rewrite reverse_cons. by rewrite last_snoc.
Qed.

Lemma trim_replicate n c : is_ws c = false → trim (replicate n c) = replicate n c.
Proof.
  intros Hc. apply trim_id.
  - destruct n; simpl; [done|]. by intros ? [= <-].
  - intros c' Hl. apply last_Some_elem_of in Hl.
    apply elem_of_replicate in Hl as [-> _]. done.
Qed.

Lemma digit_not_ws c : is_digit c = true → is_ws c = false.
Proof.
  unfold is_digit, is_ws. intros H.
  apply andb_true_iff in H as [H1 H2].
  apply N.leb_le in H1. apply N.leb_le in H2.
  replace (c <=? 13)%N with false by (symmetry; apply N.leb_gt; lia).
  replace (8192 <=? c)%N with false by (symmetry; apply N.leb_gt; lia).
  rewrite andb_false_r. simpl.
  repeat match goal with
  | |- context [(c =? ?b)%N] =>
      replace (c =? b)%N with false by (symmetry; apply N.eqb_neq; lia)
  end.
  reflexivity.
Qed.

Lemma endsWith_spec s suf : endsWith s suf = true ↔ ∃ k, s = k ++ suf.
Proof.
  unfold endsWith. rewrite bool_decide_eq_true. split.
  - intros [Hlen Hd]. exists (take (length s - length suf) s).
    rewrite <- Hd at 2. by rewrite take_drop.
  - intros [k ->]. rewrite length_app. split; [lia|].
    replace (length k + length suf - length suf) with (length k) by lia.
    by rewrite drop_app_length.
Qed.

End JsStringFacts.

(** ** The matcher decides the language of a pattern *)

Module RegexFacts.
Import JsString Regex.

Lemma nullable_spec r : nullable r = true ↔ matches r [].
Proof.
  induction r as [| |p|r1 IH1 r2 IH2|r1 IH1 r2 IH2|r IH]; simpl.
  - split; [done | inversion 1].
  - split; [constructor | done].
  - split; [done | inversion 1].
  - rewrite andb_true_iff, IH1, IH2. split.
    + intros [H1 H2]. apply (MSeq _ _ [] [] H1 H2).
    + inversion 1 as [| |? ? s1 s2 H1 H2 E1 E2| | | |]; subst.
      apply app_eq_nil in E2 as [-> ->]. done.
  - rewrite orb_true_iff, IH1, IH2. split.
    + intros [H|H]; [by apply MAltL | by apply MAltR].
    + inversion 1; subst; auto.
  - split; [constructor | done].
Qed.

Lemma star_cons_inv r c t :
  matches (Star r) (c :: t) →
  ∃ s1 s2, t = s1 ++ s2 ∧ matches r (c :: s1) ∧ matches (Star r) s2.
Proof.
  intros H. remember (Star r) as r' eqn:Er. remember (c :: t) as w eqn:Ew.
  revert t Ew.
  induction H as [| | | | | |r0 s1 s2 H1 _ H2 IH2]; intros t Ew; try discriminate.
  injection Er as ->.
  destruct s1 as [|c1 s1]; simpl in Ew.
  - apply IH2; done.
  - injection Ew as -> <-. exists s1, s2. done.
Qed.

Lemma deriv_spec r c s : matches (deriv c r) s ↔ matches r (c :: s).
Proof.
  revert s.
  induction r as [| |p|r1 IH1 r2 IH2|r1 IH1 r2 IH2|r IH]; intros s; simpl.
  - split; inversion 1.
  - split; inversion 1.
  - destruct (p c) eqn:Hp; split.
    + inversion 1; subst. by constructor.
    + inversion 1; subst. constructor.
    + inversion 1.
    + inversion 1; subst. congruence.
  - assert (Hfst : ∀ s, matches (Seq (deriv c r1) r2) s →
                        matches (Seq r1 r2) (c :: s)).
    { intros s0. inversion 1 as [| |? ? s1 s2 H1 H2| | | |]; subst.
      apply IH1 in H1. apply (MSeq _ _ (c :: s1) s2 H1 H2). }
    assert (Hinv : matches (Seq r1 r2) (c :: s) →
                   (∃ s1 s2, s = s1 ++ s2 ∧ matches r1 (c :: s1) ∧ matches r2 s2)
                   ∨ (matches r1 [] ∧ matches r2 (c :: s))).
    { inversion 1 as [| |? ? s1 s2 H1 H2 E1 E2| | | |]; subst.
      destruct s1 as [|c1 s1]; simpl in E2.
      - right. subst. done.
      - injection E2 as -> <-. left. eauto. }
    destruct (nullable r1) eqn:Hn; split.
    + inversion 1; subst; [by apply Hfst|].
      apply nullable_spec in Hn.
      apply (MSeq _ _ [] (c :: s) Hn). by apply IH2.
    + intros H. destruct (Hinv H) as [(s1 & s2 & -> & H1 & H2)|[H1 H2]].
      * apply MAltL. constructor; [by apply IH1 | done].
      * apply MAltR. by apply IH2.
    + apply Hfst.
    + intros H. destruct (Hinv H) as [(s1 & s2 & -> & H1 & H2)|[H1 H2]].
      * constructor; [by apply IH1 | done].
      * apply nullable_spec in H1. congruence.
  - split.
    + inversion 1; subst; [apply MAltL; by apply IH1 | apply MAltR; by apply IH2].
    + inversion 1; subst; [apply MAltL; by apply IH1 | apply MAltR; by apply IH2].
  - split.
    + inversion 1 as [| |? ? s1 s2 H1 H2| | | |]; subst.
      apply IH in H1. apply (MStarApp _ (c :: s1) s2 H1 H2).
    + intros H. apply star_cons_inv in H as (s1 & s2 & -> & H1 & H2).
      constructor; [by apply IH | done].
Qed.

(** The matcher decides the language. *)
Lemma test_anchored_spec r s : test_anchored r s = true ↔ matches r s.
Proof.
  revert r. induction s as [|c s IH]; intros r; simpl.
  - apply nullable_spec.
  - rewrite IH. apply deriv_spec.
Qed.

Lemma matches_star_class p s :
  matches (Star (Class p)) s ↔ Forall (λ c, p c = true) s.
Proof.
  split.
  - intros H. remember (Star (Class p)) as r eqn:Er.
    induction H as [| | | | | |r0 s1 s2 H1 _ H2 IH2]; try discriminate.
    + constructor.
    + injection Er as ->. inversion H1; subst. simpl.
      constructor; [done | by apply IH2].
  - induction 1 as [|c s Hc _ IH]; [constructor|].
    apply (MStarApp _ [c] s); [by constructor | done].
Qed.

Lemma matches_plus_class p s :
  matches (Plus (Class p)) s ↔ s ≠ [] ∧ Forall (λ c, p c = true) s.
Proof.
  unfold Plus. split.
  - inversion 1 as [| |? ? s1 s2 H1 H2| | | |]; subst.
    inversion H1; subst. apply matches_star_class in H2. simpl.
    split; [done | by constructor].
  - intros [Hne Hall]. destruct s as [|c s]; [done|].
    inversion Hall; subst.
    apply (MSeq _ _ [c] s); [by constructor | by apply matches_star_class].
Qed.

Lemma matches_seq_inv r1 r2 s :
  matches (Seq r1 r2) s ↔ ∃ s1 s2, s = s1 ++ s2 ∧ matches r1 s1 ∧ matches r2 s2.
Proof.
  split.
  - inversion 1; subst. eauto.
  - intros (s1 & s2 & -> & H1 & H2). by constructor.
Qed.

Lemma matches_class_inv p s :
  matches (Class p) s ↔ ∃ c, s = [c] ∧ p c = true.
Proof.
  split.
  - inversion 1; subst. eauto.
  - intros (c & -> & Hc). by constructor.
Qed.

End RegexFacts.

(** ** lib/validation *)

Module ValidationFacts.
Import JsString Regex Validation JsStringFacts RegexFacts.
Local Open Scope string_scope.
Local Open Scope nat_scope.
Local Open Scope list_scope.
Local Open Scope stdpp_scope.

Lemma falsy_str_iff s : falsy_str s = true ↔ s = [].
Proof. by destruct s. Qed.

Lemma falsy_str_false_iff s : falsy_str s = false ↔ s ≠ [].
Proof. by destruct s. Qed.

(** *** Phone numbers *)

Lemma replace_non_digits_length s :
  length (replace_non_digits s) = digit_count s.
Proof.
  unfold replace_non_digits.
  induction s as [|c s IH]; [done|].
  cbn [digit_count foldr]. fold (digit_count s).
  destruct (is_digit c) eqn:E.
  - rewrite filter_cons_True by done. cbn [length]. by rewrite IH.
  - rewrite filter_cons_False by congruence. done.
Qed.

Lemma validatePhoneNumber_iff p :
  validatePhoneNumber p = true ↔ 7 ≤ digit_count p ≤ 15.
Proof.
  unfold validatePhoneNumber. rewrite replace_non_digits_length.
  rewrite andb_true_iff, !Nat.leb_le. done.
Qed.

Lemma digit_count_blank s :
  Forall (λ c, is_ws c = true) s → digit_count s = 0.
Proof.
  induction 1 as [|c s Hc _ IH]; [done|]. simpl.
  destruct (is_digit c) eqn:E; [|done].
  apply digit_not_ws in E. congruence.
Qed.

Lemma phone_digits_not_blank p : 7 ≤ digit_count p → trim p ≠ [].
Proof.
  intros H Ht. apply trim_nil_iff, digit_count_blank in Ht. lia.
Qed.

(** *** Email addresses *)

Lemma not_ws_at_iff c : not_ws_at c = true ↔ is_ws c = false ∧ c ≠ 64%N.
Proof.
  unfold not_ws_at. rewrite negb_true_iff, orb_false_iff, N.eqb_neq. done.
Qed.

Lemma plus_not_ws_at_iff s : matches (Plus (Class not_ws_at)) s ↔ plain s.
Proof.
  rewrite matches_plus_class. unfold plain.
  split; intros [Hne Hall]; (split; [done|]);
    eapply Forall_impl; try exact Hall; intros c; apply not_ws_at_iff.
Qed.

(** The test of [validateEmail] accepts exactly the [local@domain.tld]
    shape. *)
Lemma validateEmail_iff s : validateEmail s = true ↔ email_shape s.
Proof.
  unfold validateEmail, emailRegex, email_shape.
  rewrite test_anchored_spec. split.
  - intros H.
    apply matches_seq_inv in H as (loc & r1 & -> & Hloc & H).
    apply matches_seq_inv in H as (at' & r2 & -> & Hat & H).
    apply matches_seq_inv in H as (dom & r3 & -> & Hdom & H).
    apply matches_seq_inv in H as (dot' & tld & -> & Hdot & Htld).
    apply matches_class_inv in Hat as (c1 & -> & Hc1).
    apply matches_class_inv in Hdot as (c2 & -> & Hc2).
    apply N.eqb_eq in Hc1 as ->. apply N.eqb_eq in Hc2 as ->.
    exists loc, dom, tld. rewrite <- !plus_not_ws_at_iff. done.
  - intros (loc & dom & tld & -> & Hloc & Hdom & Htld).
    apply plus_not_ws_at_iff in Hloc, Hdom, Htld.
    constructor; [done|].
    apply (MSeq _ _ [64%N]); [by constructor|].
    constructor; [done|].
    apply (MSeq _ _ [46%N]); [by constructor | done].
Qed.

Lemma email_shape_not_blank s : email_shape s → trim s ≠ [].
Proof.
  intros (loc & dom & tld & -> & _) Ht.
  apply trim_nil_iff in Ht.
  apply Forall_app in Ht as [_ Ht]. by inversion Ht.
Qed.

(** *** The blocks of [validateSubmissionForm] *)

(** The three-way length test shared by the name, location and hobbies
    blocks. *)
Lemma length_block_lookup (key : string) (s : jsstring) (lo hi : nat)
    (e1 e2 e3 : string) (m : FormErrors) :
  0 < lo →
  (if falsy_str s then <[key := e1]> m
   else if length s <? lo then <[key := e2]> m
   else if hi <? length s then <[key := e3]> m
   else m) !! key = None
  ↔ m !! key = None ∧ lo ≤ length s ≤ hi.
Proof.
  intros Hlo.
  destruct (falsy_str s) eqn:Hf.
  { apply falsy_str_iff in Hf as ->. rewrite lookup_insert_eq. simpl.
    split; [done | lia]. }
  destruct (Nat.ltb_spec (length s) lo).
  { rewrite lookup_insert_eq. split; [done | lia]. }
  destruct (Nat.ltb_spec hi (length s)).
  { rewrite lookup_insert_eq. split; [done | lia]. }
  split; [intros; split; [done | lia] | by intros [? _]].
Qed.

Lemma check_fullName_lookup d (m : FormErrors) :
  check_fullName d m !! "fullName" = None
  ↔ m !! "fullName" = None ∧ fullName_valid d.
Proof. apply length_block_lookup. lia. Qed.

Lemma check_location_lookup d (m : FormErrors) :
  check_location d m !! "location" = None
  ↔ m !! "location" = None ∧ location_valid d.
Proof. apply length_block_lookup. lia. Qed.

Lemma check_hobbies_lookup d (m : FormErrors) :
  check_hobbies d m !! "hobbies" = None
  ↔ m !! "hobbies" = None ∧ hobbies_valid d.
Proof. apply length_block_lookup. lia. Qed.

Lemma check_phoneNumber_lookup d (m : FormErrors) :
  check_phoneNumber d m !! "phoneNumber" = None
  ↔ m !! "phoneNumber" = None ∧ phoneNumber_valid d.
Proof.
  unfold check_phoneNumber, phoneNumber_valid.
  rewrite <- validatePhoneNumber_iff.
  destruct (validatePhoneNumber (phoneNumber d)) eqn:Hv; simpl.
  - apply validatePhoneNumber_iff in Hv as [Hv _].
    apply phone_digits_not_blank, falsy_str_false_iff in Hv. rewrite Hv.
    split; [done | by intros [? _]].
  - destruct (falsy_str _); rewrite lookup_insert_eq; split; try done;
      by intros [_ ?].
Qed.

Lemma check_email_lookup d (m : FormErrors) :
  check_email d m !! "email" = None
  ↔ m !! "email" = None ∧ email_valid d.
Proof.
  unfold check_email, email_valid.
  rewrite <- validateEmail_iff.
  destruct (validateEmail (email d)) eqn:Hv; simpl.
  - apply validateEmail_iff, email_shape_not_blank, falsy_str_false_iff in Hv.
    rewrite Hv. split; [done | by intros [? _]].
  - destruct (falsy_str _); rewrite lookup_insert_eq; split; try done;
      by intros [_ ?].
Qed.

Lemma check_profilePicture_lookup d (m : FormErrors) :
  check_profilePicture d m !! "profilePicture" = None
  ↔ m !! "profilePicture" = None ∧ profilePicture_valid d.
Proof.
  unfold check_profilePicture, profilePicture_valid.
  destruct (profilePicture d).
  - split; [by eauto | by intros [? _]].
  - rewrite lookup_insert_eq. split; [done | by intros [_ [? ?]]].
Qed.

Lemma check_sourceCode_lookup d (m : FormErrors) :
  check_sourceCode d m !! "sourceCode" = None
  ↔ m !! "sourceCode" = None ∧ sourceCode_valid d.
Proof.
  unfold check_sourceCode, sourceCode_valid.
  destruct (sourceCode d) as [f|].
  - destruct (endsWith (File.name f) (js ".zip")) eqn:He; simpl.
    + destruct (N.ltb_spec (50 * 1024 * 1024) (File.size f)).
      * rewrite lookup_insert_eq. split; [done|].
        intros [_ (f' & [= <-] & _ & Hs)]. lia.
      * apply endsWith_spec in He.
        split; [| by intros [? _]].
        intros Hm. split; [done|]. exists f. done.
    + rewrite lookup_insert_eq. split; [done|].
      intros [_ (f' & [= <-] & Hz & _)].
      apply endsWith_spec in Hz. congruence.
  - rewrite lookup_insert_eq. split; [done|]. by intros [_ (? & ? & _)].
Qed.

(** A block leaves the other keys alone. *)
Ltac other_key :=
  intros; repeat case_match; rewrite ?lookup_insert_ne by done; done.

Lemma check_fullName_other d (m : FormErrors) k :
  k ≠ "fullName" → check_fullName d m !! k = m !! k.
Proof. unfold check_fullName. other_key. Qed.
Lemma check_phoneNumber_other d (m : FormErrors) k :
  k ≠ "phoneNumber" → check_phoneNumber d m !! k = m !! k.
Proof. unfold check_phoneNumber. other_key. Qed.
Lemma check_location_other d (m : FormErrors) k :
  k ≠ "location" → check_location d m !! k = m !! k.
Proof. unfold check_location. other_key. Qed.
Lemma check_email_other d (m : FormErrors) k :
  k ≠ "email" → check_email d m !! k = m !! k.
Proof. unfold check_email. other_key. Qed.
Lemma check_hobbies_other d (m : FormErrors) k :
  k ≠ "hobbies" → check_hobbies d m !! k = m !! k.
Proof. unfold check_hobbies. other_key. Qed.
Lemma check_profilePicture_other d (m : FormErrors) k :
  k ≠ "profilePicture" → check_profilePicture d m !! k = m !! k.
Proof. unfold check_profilePicture. other_key. Qed.
Lemma check_sourceCode_other d (m : FormErrors) k :
  k ≠ "sourceCode" → check_sourceCode d m !! k = m !! k.
Proof. unfold check_sourceCode. other_key. Qed.

(** Looking a key up in the result, block by block. *)
Ltac peel_blocks :=
  unfold validateSubmissionForm; cbv zeta;
  repeat first
    [ rewrite check_sourceCode_other by done
    | rewrite check_profilePicture_other by done
    | rewrite check_hobbies_other by done
    | rewrite check_email_other by done
    | rewrite check_location_other by done
    | rewrite check_phoneNumber_other by done
    | rewrite check_fullName_other by done
    | rewrite check_sourceCode_lookup
    | rewrite check_profilePicture_lookup
    | rewrite check_hobbies_lookup
    | rewrite check_email_lookup
    | rewrite check_location_lookup
    | rewrite check_phoneNumber_lookup
    | rewrite check_fullName_lookup ];
  rewrite ?lookup_empty.

Lemma lookup_fullName d :
  validateSubmissionForm d !! "fullName" = None ↔ fullName_valid d.
Proof. peel_blocks. tauto. Qed.
Lemma lookup_phoneNumber d :
  validateSubmissionForm d !! "phoneNumber" = None ↔ phoneNumber_valid d.
Proof. peel_blocks. tauto. Qed.
Lemma lookup_location d :
  validateSubmissionForm d !! "location" = None ↔ location_valid d.
Proof. peel_blocks. tauto. Qed.
Lemma lookup_email d :
  validateSubmissionForm d !! "email" = None ↔ email_valid d.
Proof. peel_blocks. tauto. Qed.
Lemma lookup_hobbies d :
  validateSubmissionForm d !! "hobbies" = None ↔ hobbies_valid d.
Proof. peel_blocks. tauto. Qed.
Lemma lookup_profilePicture d :
  validateSubmissionForm d !! "profilePicture" = None ↔ profilePicture_valid d.
Proof. peel_blocks. tauto. Qed.
Lemma lookup_sourceCode d :
  validateSubmissionForm d !! "sourceCode" = None ↔ sourceCode_valid d.
Proof. peel_blocks. tauto. Qed.

Lemma lookup_other d k :
  k ≠ "fullName" → k ≠ "phoneNumber" → k ≠ "location" → k ≠ "email" →
  k ≠ "hobbies" → k ≠ "profilePicture" → k ≠ "sourceCode" →
  validateSubmissionForm d !! k = None.
Proof. intros. peel_blocks. done. Qed.

(** A key is one of the seven field names, or none of them. *)
Lemma key_cases (k : string) :
  k = "fullName" ∨ k = "phoneNumber" ∨ k = "location" ∨ k = "email"
  ∨ k = "hobbies" ∨ k = "profilePicture" ∨ k = "sourceCode"
  ∨ (k ≠ "fullName" ∧ k ≠ "phoneNumber" ∧ k ≠ "location" ∧ k ≠ "email"
     ∧ k ≠ "hobbies" ∧ k ≠ "profilePicture" ∧ k ≠ "sourceCode").
Proof.
  destruct (decide (k = "fullName")); [tauto|].
  destruct (decide (k = "phoneNumber")); [tauto|].
  destruct (decide (k = "location")); [tauto|].
  destruct (decide (k = "email")); [tauto|].
  destruct (decide (k = "hobbies")); [tauto|].
  destruct (decide (k = "profilePicture")); [tauto|].
  destruct (decide (k = "sourceCode")); tauto.
Qed.

Lemma in_dom_iff_fails d key :
  key ∈ dom (validateSubmissionForm d) ↔ field_fails d key.
Proof.
  rewrite elem_of_dom, <- not_eq_None_Some. unfold field_fails.
  pose proof (lookup_fullName d). pose proof (lookup_phoneNumber d).
  pose proof (lookup_location d). pose proof (lookup_email d).
  pose proof (lookup_hobbies d). pose proof (lookup_profilePicture d).
  pose proof (lookup_sourceCode d).
  destruct (key_cases key) as [->|[->|[->|[->|[->|[->|[->|Hne]]]]]]].
  8: { destruct Hne as (?&?&?&?&?&?&?).
       rewrite lookup_other by done. split; [done|].
       intros Hf.
       repeat (destruct Hf as [[Hk _]|Hf]; [congruence|]).
       destruct Hf as [Hk _]. congruence. }
  all: split.
  all: try (intros Hn;
            repeat first [ left; split; [reflexivity|] | right ];
            try (split; [reflexivity|]); tauto).
  all: intros Hf Hn.
  all: repeat (destruct Hf as [[Hk Hf]|Hf]; [first [discriminate Hk | tauto]|]).
  all: destruct Hf as [Hk Hf]; first [discriminate Hk | tauto].
Qed.

Lemma empty_iff_valid d :
  validateSubmissionForm d = ∅ ↔ all_fields_valid d.
Proof.
  unfold all_fields_valid.
  rewrite <- lookup_fullName, <- lookup_phoneNumber, <- lookup_location,
    <- lookup_email, <- lookup_hobbies, <- lookup_profilePicture,
    <- lookup_sourceCode.
  split.
  - intros ->. rewrite !lookup_empty. done.
  - intros (?&?&?&?&?&?&?). apply map_empty. intros k.
    destruct (key_cases k) as [->|[->|[->|[->|[->|[->|[->|Hne]]]]]]]; try done.
    destruct Hne as (?&?&?&?&?&?&?). by apply lookup_other.
Qed.

(** C4: for every draft, [validateSubmissionForm] returns a map whose keys
    are exactly the fields that fail their rule, and the map is empty if and
    only if the trimmed full name has 2 to 100 code units, the phone number
    has 7 to 15 digits, the trimmed location has 2 to 100 code units, the
    email has the [local@domain.tld] shape, the trimmed hobbies text has 20
    to 1000 code units, a profile picture is present, and a source archive
    is present whose name ends in [.zip] and whose size is at most 50 MiB.
    The hobbies bounds are exact: trimmed lengths 19 and 1001 are reported,
    20 and 1000 are not. *)
Theorem validateSubmissionForm_exact (d : SubmissionFormData) :
  (∀ key, key ∈ dom (validateSubmissionForm d) ↔ field_fails d key)
  ∧ (validateSubmissionForm d = ∅ ↔ all_fields_valid d)
  ∧ (length (trim (hobbies d)) = 19 → "hobbies" ∈ dom (validateSubmissionForm d))
  ∧ (length (trim (hobbies d)) = 20 → "hobbies" ∉ dom (validateSubmissionForm d))
  ∧ (length (trim (hobbies d)) = 1000 → "hobbies" ∉ dom (validateSubmissionForm d))
  ∧ (length (trim (hobbies d)) = 1001 → "hobbies" ∈ dom (validateSubmissionForm d)).
Proof.
  split; [apply in_dom_iff_fails|]. split; [apply empty_iff_valid|].
  rewrite !elem_of_dom, <- !not_eq_None_Some, !lookup_hobbies.
  unfold hobbies_valid. repeat split; intros; lia.
Qed.

(** C7: a phone string is valid exactly when the number of digit code units
    left after deleting every non-digit is between 7 and 15, so two strings
    with the same digit count get the same verdict; ["+1 555-123-4567"] is
    valid and ["123"] is not. *)
Theorem validatePhoneNumber_by_digit_count :
  (∀ p, validatePhoneNumber p = true ↔ 7 ≤ digit_count p ≤ 15)
  ∧ (∀ p q, digit_count p = digit_count q →
            validatePhoneNumber p = validatePhoneNumber q)
  ∧ validatePhoneNumber (js "+1 555-123-4567") = true
  ∧ validatePhoneNumber (js "123") = false.
Proof.
  split; [apply validatePhoneNumber_iff|]. split; [|split; reflexivity].
  intros p q Hpq. unfold validatePhoneNumber.
  by rewrite !replace_non_digits_length, Hpq.
Qed.

End ValidationFacts.

(** ** lib/imageUtils *)

Module ImageUtilsFacts.
Import JsString ImageUtils.
Local Open Scope string_scope.
Local Open Scope list_scope.
Local Open Scope stdpp_scope.

(** The accepted content types, one by one. *)
Lemma accepted_type_iff (t : jsstring) :
  t ∈ validTypes
  ↔ t = js "image/jpeg" ∨ t = js "image/jpg" ∨ t = js "image/png"
    ∨ t = js "image/webp".
Proof. unfold validTypes. rewrite !elem_of_cons, elem_of_nil. tauto. Qed.

(** C8: [validateImageFile] reports a file as invalid when its content type
    is none of [image/jpeg], [image/jpg], [image/png] and [image/webp] and
    when it is larger than 20 MiB (20 * 1024 * 1024 bytes), and as valid
    (with no error message) when the type is one of these four and the
    size is at most 20 MiB. *)
Theorem validateImageFile_exact (file : File.t) :
  let accepted :=
    File.type file = js "image/jpeg" ∨ File.type file = js "image/jpg"
    ∨ File.type file = js "image/png" ∨ File.type file = js "image/webp" in
  (¬ accepted → valid (validateImageFile file) = false)
  ∧ ((20 * 1024 * 1024 < File.size file)%N →
     valid (validateImageFile file) = false)
  ∧ (accepted → (File.size file ≤ 20 * 1024 * 1024)%N →
     validateImageFile file = {| valid := true; error := None |})
  ∧ (valid (validateImageFile file) = false ↔
     is_Some (error (validateImageFile file))).
Proof.
  intros accepted. subst accepted. rewrite <- accepted_type_iff.
  unfold validateImageFile.
  destruct (decide (File.type file ∈ validTypes)) as [Hin|Hout].
  - rewrite bool_decide_eq_true_2 by done. simpl.
    destruct (N.ltb_spec (20 * 1024 * 1024) (File.size file)); simpl.
    + split; [done|]. split; [done|]. split; [intros; lia|].
      split; [by eauto | done].
    + split; [done|]. split; [intros; lia|]. split; [done|].
      split; [done | by intros [? ?]].
  - rewrite bool_decide_eq_false_2 by done. simpl.
    split; [done|]. split; [done|]. split; [done|].
    split; [by eauto | done].
Qed.

End ImageUtilsFacts.

Module ImageUtilsExamples.
Import JsString ImageUtils Scenario.
Local Open Scope string_scope.
Local Open Scope list_scope.
Local Open Scope stdpp_scope.

Lemma validateImageFile_exact_witness :
  validateImageFile picture = {| valid := true; error := None |}.
Proof.
  pose proof (ImageUtilsFacts.validateImageFile_exact picture) as H.
  cbv zeta in H. destruct H as (_ & _ & H & _).
  apply H.
  - right. right. left. reflexivity.
  - vm_compute. discriminate.
Defined.

(** A picture of an accepted type that is one byte over the limit, and a
    document, are refused. *)
Example refused_files :
  valid (validateImageFile
           (File.mk (js "big.png") (20 * 1024 * 1024 + 1) (js "image/png")))
  = false
  ∧ valid (validateImageFile
             (File.mk (js "cv.pdf") 1024 (js "application/pdf")))
    = false
  ∧ valid (validateImageFile
             (File.mk (js "edge.webp") (20 * 1024 * 1024) (js "image/webp")))
    = true.
Proof. vm_compute. repeat split. Qed.

End ImageUtilsExamples.

(** ** Running handlers *)

Module HandlerFacts.
Import Handler.

(** Unfolds sequencing and the control operators, leaving the calls. *)
Ltac step_handler :=
  cbv beta iota zeta delta
    [mbind mret M_bind M_ret bind ret throw get modify try_catch finally when
     fst snd].

End HandlerFacts.

(** ** The route POST /api/send-email *)

Module SendEmailFacts.
Import JsString Handler SendEmail HandlerFacts Vocabulary.
Local Open Scope string_scope.
Local Open Scope nat_scope.
Local Open Scope list_scope.
Local Open Scope stdpp_scope.

Ltac unfold_POST :=
  unfold respond, POST, emit; step_handler.

Lemma respond_falsy env mailjet props :
  some_field_falsy props = true →
  respond env mailjet (BodyObject props) = (Some bad_request, [ReadJson]).
Proof.
  unfold some_field_falsy. intros H. unfold_POST. by rewrite H.
Qed.

Lemma respond_unconfigured env mailjet props :
  some_field_falsy props = false →
  unset (MAILJET_API_KEY env) || unset (MAILJET_SECRET_KEY env) = true →
  respond env mailjet (BodyObject props)
  = (Some {| status := 500; body := error_body "Email service not configured" |},
     [ReadJson; ReadEnv "MAILJET_API_KEY"; ReadEnv "MAILJET_SECRET_KEY";
      ReadEnv "MAILJET_FROM_EMAIL"; ReadEnv "MAILJET_FROM_NAME";
      ConsoleError "Mailjet credentials not configured"]).
Proof.
  unfold some_field_falsy. intros H1 H2. unfold_POST. by rewrite H1, H2.
Qed.

Lemma missing_is_falsy (props : gmap string JsValue) :
  props !! "to" = None ∨ props !! "name" = None ∨ props !! "decision" = None
  ∨ props !! "feedback" = None →
  some_field_falsy props = true.
Proof.
  unfold some_field_falsy.
  intros [H|[H|[H|H]]]; rewrite H; simpl; rewrite ?orb_true_r; done.
Qed.

Lemma given_is_truthy v : given v → truthy v = true.
Proof. intros (s & -> & Hs). simpl. by destruct s. Qed.

Lemma key_unset_iff v : key_unset v ↔ unset v = true.
Proof.
  unfold key_unset. destruct v as [[|c s]|]; simpl; split; try done.
  - by right.
  - by intros [?|?].
  - by left.
Qed.

Lemma key_set_iff v : key_set v ↔ unset v = false.
Proof.
  unfold key_set. destruct v as [[|c s]|]; simpl; split; try done.
  - by intros (s & [= <-] & ?).
  - intros _. by eexists.
  - by intros (s & ? & ?).
Qed.

(** C5: the body [null] is not answered 400, although it has none of the
    four fields: destructuring it throws before the test for missing
    fields is reached, and the handler of the route answers 500 with the
    message of that error. Every other JSON value without the fields, such
    as a number, an array or the empty object, is answered 400 with
    [{ error: "Missing required fields" }]. *)
Theorem POST_null_body_is_answered_500 env mailjet message :
  respond env mailjet (BodyNull message)
  = (Some {| status := 500;
             body := error_body (or_default message "Failed to send email") |},
     [ReadJson; ConsoleError "Email sending error:"])
  ∧ respond env mailjet BodyOther = (Some bad_request, [ReadJson])
  ∧ respond env mailjet (BodyObject ∅) = (Some bad_request, [ReadJson]).
Proof. done. Qed.

(** X21: on a JSON object the route answers 400 with
    [{ error: "Missing required fields" }], having only read the body,
    when one of [to], [name], [decision], [feedback] is absent. When all
    four are non-empty strings it answers 500 with
    [{ error: "Email service not configured" }], without sending, if the
    API key or the secret key is absent or empty; with both keys set it
    asks the transport to send once and answers 200 with
    [{ success: true }] if the transport's response is ok, and 500 with
    an error body if the call rejects or the response is not ok. *)
Theorem POST_status_codes env mailjet props :
  (props !! "to" = None ∨ props !! "name" = None ∨ props !! "decision" = None
   ∨ props !! "feedback" = None →
   respond env mailjet (BodyObject props) = (Some bad_request, [ReadJson]))
  ∧ (given (props !! "to") → given (props !! "name") →
     given (props !! "decision") → given (props !! "feedback") →
     let r := respond env mailjet (BodyObject props) in
     (key_unset (MAILJET_API_KEY env) ∨ key_unset (MAILJET_SECRET_KEY env) →
      r.1 = Some {| status := 500;
                    body := error_body "Email service not configured" |}
      ∧ sent_messages r.2 = [])
     ∧ (key_set (MAILJET_API_KEY env) → key_set (MAILJET_SECRET_KEY env) →
        length (sent_messages r.2) = 1
        ∧ (∀ j, mailjet = MailjetResponse true j →
                r.1 = Some {| status := 200; body := success_body |})
        ∧ (∀ m, mailjet = MailjetRejected m →
                r.1 = Some {| status := 500;
                              body := error_body
                                        (or_default m "Failed to send email") |})
        ∧ (mailjet = MailjetResponse false None →
           r.1 = Some {| status := 500;
                         body := error_body "Failed to send email" |})
        ∧ (∀ m, mailjet = MailjetResponse false (Some m) →
                r.1 = Some {| status := 500;
                              body := error_body
                                        (or_default m "Failed to send email") |}))).
Proof.
  split.
  { intros H. by rewrite respond_falsy by by apply missing_is_falsy. }
  intros Hto Hname Hdecision Hfeedback r. subst r.
  apply given_is_truthy in Hto, Hname, Hdecision, Hfeedback.
  unfold sent_messages. split.
  - intros Hkeys.
    rewrite respond_unconfigured; [done| |].
    + unfold some_field_falsy.
      by rewrite Hto, Hname, Hdecision, Hfeedback.
    + rewrite !key_unset_iff in Hkeys. apply orb_true_iff. tauto.
  - intros Hkey Hsecret. apply key_set_iff in Hkey, Hsecret.
    unfold_POST. rewrite Hto, Hname, Hdecision, Hfeedback, Hkey, Hsecret.
    destruct mailjet as [m|[] [m|]]; simpl.
    all: split; [done|].
    all: split; [by intros j [= <-] || by intros j [=] || done|].
    all: split; [by intros m' [= <-] || by intros m' [=] || done|].
    all: split; [done || by intros [=]|].
    all: by intros m' [= <-] || by intros m' [=] || done.
Qed.

(** C10: a body that has all four keys but an empty [feedback] string, and
    more generally a body in which one of [to], [name], [decision],
    [feedback] is falsy, is answered with 400 and
    [{ error: "Missing required fields" }]; the route has then only read
    the body: no environment variable was read and nothing was sent. *)
Theorem POST_falsy_field_is_missing env mailjet :
  (∀ props, some_field_falsy props = true →
     (respond env mailjet (BodyObject props)).1 = Some bad_request
     ∧ only_read_body (respond env mailjet (BodyObject props)).2)
  ∧ (∀ to name decision,
       let request :=
         BodyObject {[ "to" := to; "name" := name; "decision" := decision;
                       "feedback" := VStr [] ]} in
       (respond env mailjet request).1 = Some bad_request
       ∧ only_read_body (respond env mailjet request).2).
Proof.
  assert (Hlog : only_read_body [ReadJson]) by by repeat constructor.
  split.
  - intros props H. by rewrite respond_falsy.
  - intros to name decision request. subst request.
    rewrite respond_falsy; [done|].
    unfold some_field_falsy.
    replace (_ !! "feedback") with (Some (VStr [])) by by simplify_map_eq.
    simpl. by rewrite !orb_true_r.
Qed.

End SendEmailFacts.

(** ** The submit page *)

Module SubmitPageFacts.
Import JsString Handler Collab Validation SubmitPage HandlerFacts.
Local Open Scope string_scope.
Local Open Scope nat_scope.
Local Open Scope list_scope.
Local Open Scope stdpp_scope.

Ltac unfold_ops :=
  cbv beta iota zeta delta
    [emit set_page set_world request storage_upload insert_submission
     update_submission select_submission_of_user compressImage non_null
     access_denied handleLogout
     mbind mret M_bind M_ret bind ret throw get modify try_catch finally when
     fst snd page world trace].

#[local] Opaque js.
#[local] Arguments validateSubmissionForm : simpl never.
#[local] Arguments trim : simpl never.
#[local] Arguments split_pop : simpl never.

(** Runs [handleSubmit] along each of its paths. *)
Ltac exec_handleSubmit env st :=
  unfold handleSubmit; unfold_ops;
  let Hv := fresh "Hv" in let Hu := fresh "Huser" in
  let Hp := fresh "Hpic" in let Hc := fresh "Hcomp" in
  let Hi := fresh "Himg" in let Ha := fresh "Harch" in
  let Hcode := fresh "Hcode" in let Hins := fresh "Hins" in
  destruct (bool_decide (0 < size (validateSubmissionForm (formData st))))
    eqn:Hv;
  [ | destruct (userId st) as [[|c uid]|] eqn:Hu;
      [ | destruct (profilePicture (formData st)) as [picture|] eqn:Hp;
        [ destruct (imageCompression env picture) as [compressed|] eqn:Hc;
          [ destruct (image_upload_reply env) eqn:Hi;
            [ destruct (sourceCode (formData st)) as [archive|] eqn:Ha;
              [ destruct (code_upload_reply env) eqn:Hcode;
                [ destruct (insert_reply env) eqn:Hins | | ]
              | ]
            | | ]
          | ]
        | ]
      | ] ];
  simpl.

Lemma size_validation_false d :
  bool_decide (0 < size (validateSubmissionForm d)) = false ↔
  validateSubmissionForm d = ∅.
Proof.
  rewrite bool_decide_eq_false, <- map_size_empty_iff. lia.
Qed.

Lemma valid_has_files d :
  validateSubmissionForm d = ∅ →
  is_Some (profilePicture d) ∧ is_Some (sourceCode d).
Proof.
  intros H. apply ValidationFacts.empty_iff_valid in H.
  destruct H as (_&_&_&_&_&Hp&(f&Hf&_)). split; [done | by eauto].
Qed.

Lemma handleSubmit_steps env st w :
  let s' := (handleSubmit env (mkSys st w [])).2 in
  (steps (trace s')) `prefix_of`
    [compress_step; upload_image_step; upload_archive_step; insert_step]
  ∧ (early_step_fails env st →
     (insert_step ∉ steps (trace s'))
     ∧ submissions_table (world s') = submissions_table w)
  ∧ (insert_reply env ≠ Answered →
     submissions_table (world s') = submissions_table w)
  ∧ (submissions_table (world s') ≠ submissions_table w →
     attempt_succeeds env st)
  ∧ (attempt_succeeds env st →
     steps (trace s')
     = [compress_step; upload_image_step; upload_archive_step; insert_step]
     ∧ ∃ row, submissions_table (world s') = submissions_table w ++ [row]
              ∧ Submission.status row = Submission.pending
              ∧ userId st = Some (Submission.user_id row)).
Proof.
  intros s'. subst s'.
  exec_handleSubmit env st.
  all: try (apply size_validation_false in Hv;
            pose proof (valid_has_files _ Hv) as [Hfp Hfs]).
  all: unfold early_step_fails, attempt_succeeds.
  all: split; [by eexists|].
  (* a failing early step: the insert is not among the steps taken *)
  all: split;
    [ intros Hearly;
      first
        [ split; [|done]; intros Hin;
          repeat (apply elem_of_cons in Hin as [Hin|Hin]; [discriminate|]);
          by apply elem_of_nil in Hin
        | exfalso; destruct Hearly as [H|[H|H]];
          [ match goal with
            | Hp : profilePicture _ = Some _ |- _ => specialize (H _ Hp)
            end | .. ]; congruence ] | ].
  (* a failing insert *)
  all: split; [first [done | congruence] |].
  (* a new row needs every step to succeed *)
  all: split; [first [done | intros _; by eauto 10] |].
  (* every step succeeding leads to the new row *)
  3: { intros _. split; [done|]. eexists. done. }
  all: intros (Hval & (u & Hus & Hne) & (p & Hp & Hc) & Hi & Hco & Hin);
    exfalso.
  all: try congruence.
  all: try (rewrite Hval, map_size_empty in Hv; done).
  all: simplify_eq.
  all: try match goal with H : is_Some None |- _ => by apply is_Some_None in H end.
  all: rewrite ?Hcomp, ?Harch, ?Huser in *.
  all: match goal with H : is_Some None |- _ => by apply is_Some_None in H end.
Qed.

(** An upload that succeeded stays in storage when a later step fails. *)
Lemma handleSubmit_orphaned_upload env st w uid picture compressed :
  validateSubmissionForm (formData st) = ∅ →
  userId st = Some uid → uid ≠ [] →
  profilePicture (formData st) = Some picture →
  imageCompression env picture = Some compressed →
  image_upload_reply env = Answered →
  code_upload_reply env ≠ Answered ∨ insert_reply env ≠ Answered →
  let s' := (handleSubmit env (mkSys st w [])).2 in
  blobs (world s')
    !! ("profile-pictures",
        uid ++ js "/profile." ++ split_pop 46%N (File.name compressed))
  = Some compressed
  ∧ submissions_table (world s') = submissions_table w.
Proof.
  intros Hval Hu Hne Hp Hc Hi Hlater s'. subst s'.
  destruct uid as [|c uid]; [done|].
  pose proof (valid_has_files _ Hval) as [_ [archive Ha]].
  apply size_validation_false in Hval.
  unfold handleSubmit. unfold_ops.
  rewrite Hval, Hu, Hp. simpl. rewrite Hc. simpl. rewrite Hi, Ha. simpl.
  destruct (code_upload_reply env) eqn:Hcode; simpl.
  2,3: by rewrite lookup_insert_eq.
  destruct Hlater as [?|Hins]; [done|].
  destruct (insert_reply env); simpl; [done|..].
  all: rewrite lookup_insert_ne by done; by rewrite lookup_insert_eq.
Qed.

(** C3: an attempt runs compress image, upload image, upload archive and
    insert row in this order and stops at the first step that fails. If
    compression or one of the uploads fails the insert is never reached; if
    any of the four steps fails the table is as before; a row (with status
    [pending], for the signed-in user) is added exactly by an attempt in
    which all four succeed. An upload that succeeded stays in storage
    when a later step fails. *)
Theorem handleSubmit_ordered_steps env st w :
  let s' := (handleSubmit env (mkSys st w [])).2 in
  ((steps (trace s')) `prefix_of`
     [compress_step; upload_image_step; upload_archive_step; insert_step]
   ∧ (early_step_fails env st →
      (insert_step ∉ steps (trace s'))
      ∧ submissions_table (world s') = submissions_table w)
   ∧ (insert_reply env ≠ Answered →
      submissions_table (world s') = submissions_table w)
   ∧ (submissions_table (world s') ≠ submissions_table w →
      attempt_succeeds env st)
   ∧ (attempt_succeeds env st →
      steps (trace s')
      = [compress_step; upload_image_step; upload_archive_step; insert_step]
      ∧ ∃ row, submissions_table (world s') = submissions_table w ++ [row]
               ∧ Submission.status row = Submission.pending
               ∧ userId st = Some (Submission.user_id row)))
  ∧ (∀ uid picture compressed,
       validateSubmissionForm (formData st) = ∅ →
       userId st = Some uid → uid ≠ [] →
       profilePicture (formData st) = Some picture →
       imageCompression env picture = Some compressed →
       image_upload_reply env = Answered →
       code_upload_reply env ≠ Answered ∨ insert_reply env ≠ Answered →
       blobs (world s')
         !! ("profile-pictures",
             uid ++ js "/profile." ++ split_pop 46%N (File.name compressed))
       = Some compressed
       ∧ submissions_table (world s') = submissions_table w).
Proof.
  intros s'. split.
  - apply handleSubmit_steps.
  - intros uid picture compressed ? ? ? ? ? ? ?.
    by apply (handleSubmit_orphaned_upload env st w uid picture).
Qed.

(** *** Page loads and actions *)

Lemma single_None_at_most_one {A} (l : list A) :
  length l ≤ 1 → single l = None → l = [].
Proof.
  intros Hlen Hs.
  destruct l as [|a [|b l]]; [done | done | simpl in Hlen; lia].
Qed.

Lemma single_Some_of_one {A} (l : list A) :
  length l ≤ 1 → l ≠ [] → is_Some (single l).
Proof.
  intros Hlen Hne.
  destruct l as [|a [|b l]]; [done | by eauto | simpl in Hlen; lia].
Qed.

Lemma rows_of_user_snoc uid table row :
  rows_of_user uid (table ++ [row])
  = rows_of_user uid table
    ++ (if decide (Submission.user_id row = uid) then [row] else []).
Proof.
  unfold rows_of_user. by rewrite filter_app.
Qed.

Lemma one_per_user_snoc table row :
  one_submission_per_user table →
  rows_of_user (Submission.user_id row) table = [] →
  one_submission_per_user (table ++ [row]).
Proof.
  intros H Hnone uid. rewrite rows_of_user_snoc, length_app.
  destruct (decide (Submission.user_id row = uid)) as [<-|Hne].
  - rewrite Hnone. simpl. lia.
  - specialize (H uid). simpl. lia.
Qed.

(** Loading the page never writes. *)
Lemma load_world env s :
  world (step s (Load, env)) = world s.
Proof.
  unfold step, dispatch, checkAuth. simpl. unfold_ops.
  destruct (getUser env) as [[uid|]|]; simpl; try done.
  destruct (profile env) as [role| |]; simpl; try done.
  destruct (bool_decide (role ≠ js "developer")); simpl; try done.
  unfold select_submission_of_user. unfold_ops.
  destruct (lookup_reply env); simpl; try done.
  all: destruct (bool_decide _); done.
Qed.

(** After a load the form is shown only to a signed-in user for whom the
    lookup gave no data. *)
Lemma load_form env s :
  render (page (step s (Load, env))) = FormView →
  ∃ uid, userId (page (step s (Load, env))) = Some uid
         ∧ (lookup_reply env = Errored
            ∨ single (rows_of_user uid (submissions_table (world s))) = None).
Proof.
  unfold step, dispatch, checkAuth. simpl. unfold_ops.
  destruct (getUser env) as [[uid|]|]; simpl; try done.
  destruct (profile env) as [role| |]; simpl; try done.
  destruct (bool_decide (role ≠ js "developer")); simpl; try done.
  unfold select_submission_of_user. unfold_ops.
  destruct (lookup_reply env); simpl; try done.
  - destruct (single _) eqn:Hs; simpl; [done|]. eauto.
  - eauto.
Qed.

(** A load that signs a user in who has exactly one row shows the
    "Submission Received!" card. *)
Lemma load_detects env uid s :
  signs_in env uid →
  is_Some (single (rows_of_user uid (submissions_table (world s)))) →
  render (page (step s (Load, env))) = SubmittedView.
Proof.
  intros (Hu & Hp & Hl) Hrow.
  unfold step, dispatch, checkAuth. simpl. unfold_ops.
  rewrite Hu, Hp. simpl.
  rewrite bool_decide_eq_false_2 by (intros H; by apply H).
  unfold select_submission_of_user. unfold_ops. rewrite Hl. simpl.
  rewrite bool_decide_eq_true_2 by done. done.
Qed.

(** What a submit attempt does to the page and to the table. *)
Lemma handleSubmit_page env st w t :
  let s' := (handleSubmit env (mkSys st w t)).2 in
  loading (page s') = loading st
  ∧ userId (page s') = userId st
  ∧ ((submissions_table (world s') = submissions_table w
      ∧ hasSubmission (page s') = hasSubmission st)
     ∨ (∃ row, userId st = Some (Submission.user_id row)
               ∧ submissions_table (world s') = submissions_table w ++ [row]
               ∧ hasSubmission (page s') = true)).
Proof.
  intros s'. subst s'.
  exec_handleSubmit env st.
  3: { split; [done|]. split; [done|]. right. eexists.
       split; [|split; reflexivity]; reflexivity. }
  all: split; [done|]; split; [done|]; by left.
Qed.

(** What an action other than a load does. *)
Lemma action_outcome s a env :
  a ≠ Load →
  let s' := step s (a, env) in
  loading (page s') = loading (page s)
  ∧ userId (page s') = userId (page s)
  ∧ ((submissions_table (world s') = submissions_table (world s)
      ∧ hasSubmission (page s') = hasSubmission (page s))
     ∨ (render (page s) = FormView
        ∧ ∃ row, userId (page s) = Some (Submission.user_id row)
                 ∧ submissions_table (world s')
                   = submissions_table (world s) ++ [row]
                 ∧ hasSubmission (page s') = true)).
Proof.
  intros Ha s'. subst s'. destruct s as [st w t].
  unfold step, dispatch, render.
  cbv beta iota zeta delta [mbind M_bind bind get]. cbn [fst snd page].
  destruct (loading st) eqn:Hl.
  { destruct a; try done; unfold_ops; simpl; rewrite ?Hl; by eauto. }
  destruct (hasSubmission st) eqn:Hh.
  { destruct a; try done; unfold_ops; simpl; rewrite ?Hl, ?Hh; by eauto. }
  destruct a as [|f value|file|file| |]; try done.
  - destruct (submitting st); unfold_ops; simpl; [by eauto|].
    unfold handleInputChange. unfold_ops.
    destruct (bool_decide _); simpl; by eauto.
  - destruct (submitting st); unfold_ops; simpl; [by eauto|].
    unfold handleProfilePictureChange. unfold_ops.
    destruct file as [file|]; simpl; [|by eauto].
    destruct (negb _); simpl; by eauto.
  - destruct (submitting st); unfold_ops; simpl; [by eauto|].
    unfold handleSourceCodeChange. unfold_ops.
    destruct file as [file|]; simpl; [|by eauto].
    destruct (negb _); simpl; [by eauto|].
    destruct (N.ltb _ _); simpl; by eauto.
  - destruct (submitting st); [unfold_ops; simpl; by eauto|].
    destruct (handleSubmit_page env st w t) as (H1 & H2 & H3).
    cbn [world page]. split; [by rewrite H1|]. split; [done|].
    destruct H3 as [H3|H3]; [left | by right].
    by rewrite <- Hh.
  - unfold_ops. simpl. rewrite Hl, Hh. by eauto.
Qed.

Lemma step_preserves_inv uid0 rows0 s ae :
  rows0 ≠ [] → lookup_not_errored ae →
  page_inv uid0 rows0 s → page_inv uid0 rows0 (step s ae).
Proof.
  intros Hrows Hlook (Hone & Hkeep & Hform). destruct ae as [a env].
  assert (a = Load ∨ a ≠ Load) as [->|Ha] by (destruct a; by eauto).
  - unfold page_inv. rewrite load_world. split; [done|]. split; [done|].
    intros Hv. apply load_form in Hv as (uid & Hu & [He|Hs]).
    + by destruct (Hlook eq_refl).
    + exists uid. split; [done|]. by apply single_None_at_most_one.
  - destruct (action_outcome s a env Ha) as (Hl & Hu & [[Ht Hh]|[Hv Hrow]]).
    + unfold page_inv. rewrite Ht. split; [done|]. split; [done|].
      unfold render. rewrite Hl, Hh, Hu. exact Hform.
    + destruct Hrow as (row & Hur & Ht & Hh).
      destruct (Hform Hv) as (uid & Hu' & Hnone).
      assert (uid = Submission.user_id row) as -> by congruence.
      unfold page_inv. rewrite Ht. split; [by apply one_per_user_snoc|].
      split.
      * rewrite rows_of_user_snoc.
        destruct (decide (Submission.user_id row = uid0)) as [<-|_].
        -- congruence.
        -- by rewrite app_nil_r.
      * unfold render. rewrite Hl, Hh.
        by destruct (loading (page s)).
Qed.

Lemma run_preserves_inv uid0 rows0 script s :
  rows0 ≠ [] → Forall lookup_not_errored script →
  page_inv uid0 rows0 s → page_inv uid0 rows0 (run s script).
Proof.
  intros Hrows Hall. revert s.
  induction Hall as [|ae script Hae _ IH]; intros s Hinv; [done|].
  simpl. apply IH. by apply step_preserves_inv.
Qed.

Lemma enter_is_load env w : enter env w = step (mkSys initial w []) (Load, env).
Proof. reflexivity. Qed.

(** Behind the "Submission Received!" card no action writes to the table,
    whatever the draft in the page state is. *)
Lemma blocked_page_is_read_only st w t a env :
  hasSubmission st = true → a ≠ Load →
  submissions_table (world (step (mkSys st w t) (a, env))) = submissions_table w.
Proof.
  intros Hh Ha.
  destruct (action_outcome (mkSys st w t) a env Ha) as (_ & _ & [[Ht _]|[Hv _]]).
  - done.
  - unfold render in Hv. simpl in Hv. rewrite Hh in Hv.
    by destruct (loading st).
Qed.

(** X20: when a page load signs in a developer who has a row in
    a table with at most one row per user, and the lookup of that row is
    answered, the page shows the "Submission Received!" card and has
    written nothing; behind that card no action writes to the table,
    whatever draft the page state holds; and along any later loads and
    actions whose lookups do not end with an error the table keeps at most
    one row per user, the rows of this user stay as they were, the form is
    never shown to this user, and loading the page again for this user
    shows the card again. *)
Theorem existing_submission_blocks env w uid :
  signs_in env uid →
  one_submission_per_user (submissions_table w) →
  rows_of_user uid (submissions_table w) ≠ [] →
  render (page (enter env w)) = SubmittedView
  ∧ world (enter env w) = w
  ∧ (∀ st w' t a env',
       hasSubmission st = true → a ≠ Load →
       submissions_table (world (step (mkSys st w' t) (a, env')))
       = submissions_table w')
  ∧ (∀ script, Forall lookup_not_errored script →
       let s := run (enter env w) script in
       one_submission_per_user (submissions_table (world s))
       ∧ rows_of_user uid (submissions_table (world s))
         = rows_of_user uid (submissions_table w)
       ∧ (render (page s) = FormView → userId (page s) ≠ Some uid)
       ∧ (∀ env', signs_in env' uid →
                  render (page (step s (Load, env'))) = SubmittedView)).
Proof.
  intros Hsign Hone Hrow.
  assert (Hinv0 : page_inv uid (rows_of_user uid (submissions_table w))
                    (enter env w)).
  { rewrite enter_is_load. apply step_preserves_inv; [done| |].
    - intros _. simpl. destruct Hsign as (_ & _ & Hl). by rewrite Hl.
    - split; [done|]. split; [done|]. done. }
  split.
  { rewrite enter_is_load. apply (load_detects _ uid); [done|].
    by apply single_Some_of_one. }
  split; [by rewrite enter_is_load, load_world|].
  split; [intros; by apply blocked_page_is_read_only|].
  intros script Hall s.
  destruct (run_preserves_inv _ _ script _ Hrow Hall Hinv0) as (H1 & H2 & H3).
  fold s in H1, H2, H3.
  split; [done|]. split; [done|]. split.
  - intros Hv Hu. destruct (H3 Hv) as (uid' & Hu' & Hnone).
    congruence.
  - intros env' Hsign'. apply (load_detects _ uid); [done|].
    apply single_Some_of_one; [done | by rewrite H2].
Qed.

End SubmitPageFacts.

Module SubmitPageExamples.
Import JsString Handler Collab Validation SubmitPage Scenario.
Local Open Scope string_scope.
Local Open Scope nat_scope.
Local Open Scope list_scope.
Local Open Scope stdpp_scope.

(** C2: [ada] has a row, yet when the lookup of that row is answered with
    an error the page shows the form, and filling it in and submitting it
    adds a second row for her: [checkAuth] reads only the data of the
    lookup and not its error. *)
Lemma lookup_error_admits_second_submission :
    rows_of_user ada (submissions_table (world_with_row Submission.pending))
    = [earlier_row Submission.pending]
  ∧ render (page (enter (submit_env Errored)
                    (world_with_row Submission.pending)))
    = FormView
  ∧ length (rows_of_user ada
      (submissions_table (world
         (run (enter (submit_env Errored) (world_with_row Submission.pending))
              (fill_and_submit (submit_env Errored)))))) = 2.
Proof. vm_compute. repeat split. Qed.

Lemma one_row_table st :
  one_submission_per_user (submissions_table (world_with_row st)).
Proof.
  intros uid. unfold rows_of_user, world_with_row. simpl.
  destruct (decide (Submission.user_id (earlier_row st) = uid)).
  - rewrite filter_cons_True by done. simpl. lia.
  - rewrite filter_cons_False by done. simpl. lia.
Defined.

Lemma existing_submission_blocks_witness :
  render (page (enter (submit_env Answered)
                  (world_with_row Submission.pending)))
  = SubmittedView
  ∧ world (enter (submit_env Answered) (world_with_row Submission.pending))
    = world_with_row Submission.pending.
Proof.
  destruct (SubmitPageFacts.existing_submission_blocks
              (submit_env Answered) (world_with_row Submission.pending) ada)
    as (H1 & H2 & _).
  - repeat split.
  - apply one_row_table.
  - vm_compute. discriminate.
  - split; assumption.
Defined.

(** An attempt in which every step succeeds. *)
Example successful_attempt :
  let s' := (handleSubmit (submit_env Answered)
               (mkSys filled_form empty_world [])).2 in
  steps (trace s')
  = [compress_step; upload_image_step; upload_archive_step; insert_step]
  ∧ Submission.status <$> submissions_table (world s') = [Submission.pending]
  ∧ Submission.user_id <$> submissions_table (world s') = [ada]
  ∧ hasSubmission (page s') = true.
Proof. vm_compute. repeat split. Qed.

End SubmitPageExamples.

(** ** The evaluate page *)

Module EvaluatePageFacts.
Import JsString Handler Collab EvaluatePage HandlerFacts JsStringFacts.
Local Open Scope string_scope.
Local Open Scope nat_scope.
Local Open Scope list_scope.
Local Open Scope stdpp_scope.

#[local] Opaque js.
#[local] Arguments trim : simpl never.
#[local] Arguments newest_first : simpl never.

Ltac unfold_ops :=
  cbv beta iota zeta delta
    [emit set_page set_world request update_submission handleLogout
     mbind mret M_bind M_ret bind ret throw get modify try_catch finally when
     fst snd page world trace].

Lemma blank_iff (fb : jsstring) :
  Forall (λ c, is_ws c = true) fb ↔ falsy_str (trim fb) = true.
Proof.
  rewrite <- trim_nil_iff. by destruct (trim fb).
Qed.

(** Runs [handleDecision] along each of its paths. *)
Ltac exec_handleDecision env st :=
  unfold handleDecision, loadSubmissions; unfold_ops;
  let Hsel := fresh "Hsel" in let Hfb := fresh "Hfb" in
  let Hup := fresh "Hup" in let Hfetch := fresh "Hfetch" in
  let Hload := fresh "Hload" in
  destruct (selectedSubmission st) as [selected'|] eqn:Hsel;
  [ destruct (falsy_str (trim (feedback st))) eqn:Hfb;
    [ | destruct (update_reply env) eqn:Hup;
        [ destruct (fetch_reply env) as [|[]|unreadable] eqn:Hfetch;
          [ | destruct (select_all_reply env) eqn:Hload
            | destruct (select_all_reply env) eqn:Hload | ]
        | | ] ]
  | ];
  simpl.

Ltac not_in_trace H :=
  repeat (apply elem_of_cons in H as [H|H]; [discriminate|]);
  by apply elem_of_nil in H.

(** The notification is sent only after the store has answered the update
    without an error. *)
Lemma fetch_only_after_update env decision st w payload :
  FetchSendEmail payload ∈ trace (handleDecision env decision (mkSys st w [])).2 →
  update_reply env = Answered.
Proof.
  exec_handleDecision env st; intros Hin; try done; not_in_trace Hin.
Qed.

Lemma updated_rows (table : list Submission.t) id st fb row :
  row ∈ (λ r, if decide (Submission.id r = id)
               then Submission.set_decision st fb r else r) <$> table →
  Submission.id row = id →
  Submission.status row = st ∧ Submission.feedback row = Some fb.
Proof.
  intros Hin Hid. apply list_elem_of_fmap in Hin as (r & -> & _).
  destruct (decide (Submission.id r = id)); [done|]. done.
Qed.

(** X22: once the store has answered the update, a response of
    [/api/send-email] that is not ok changes nothing that was written,
    whether its text can be read or not: the world is the one the update
    left, every row with the selected id carries the decision and the
    trimmed feedback, the update is the only write the handler asks for,
    and the page is no longer processing. When the text of the response is
    read, the page logs the failure, reports success, clears the
    selection, empties the feedback box and reloads the list. When
    reading the text rejects, the page reports an error instead and keeps
    the selection and the feedback. *)
Theorem notification_failure_is_not_rolled_back env decision st w selected :
  selectedSubmission st = Some selected →
  ¬ Forall (λ c, is_ws c = true) (feedback st) →
  update_reply env = Answered →
  (fetch_reply env = FetchResponse false
   ∨ ∃ message, fetch_reply env = FetchUnreadable message) →
  let s' := (handleDecision env decision (mkSys st w [])).2 in
  let fb := trim (feedback st) in
  (world s'
   = world (update_submission Answered (Submission.id selected)
              (decision_status decision) fb (mkSys st w [])).2
   ∧ (∀ row, row ∈ submissions_table (world s') →
             Submission.id row = Submission.id selected →
             Submission.status row = decision_status decision
             ∧ Submission.feedback row = Some fb)
   ∧ (∃ rest,
        trace s'
        = [ UpdateSubmission (Submission.id selected)
              (decision_status decision) fb;
            FetchSendEmail {| to := Submission.email selected;
                              name := Submission.full_name selected;
                              Collab.decision := decision;
                              Collab.feedback := fb |} ] ++ rest
        ∧ Forall (λ e, is_write e = false) rest)
   ∧ processing (page s') = false)
  ∧ (fetch_reply env = FetchResponse false →
     (∃ rest,
        trace s'
        = [ UpdateSubmission (Submission.id selected)
              (decision_status decision) fb;
            FetchSendEmail {| to := Submission.email selected;
                              name := Submission.full_name selected;
                              Collab.decision := decision;
                              Collab.feedback := fb |};
            ConsoleError "Email API error:";
            ToastSuccess match decision with
                         | decide_accepted => "Candidate accepted! 🎉"
                         | decide_rejected => "Decision recorded."
                         end;
            SelectAllSubmissions ] ++ rest
        ∧ Forall (λ e, is_request e = false) rest)
     ∧ selectedSubmission (page s') = None
     ∧ feedback (page s') = []
     ∧ (select_all_reply env = Answered →
        submissions (page s') = newest_first (submissions_table (world s'))))
  ∧ (∀ message, fetch_reply env = FetchUnreadable message →
     trace s'
     = [ UpdateSubmission (Submission.id selected)
           (decision_status decision) fb;
         FetchSendEmail {| to := Submission.email selected;
                           name := Submission.full_name selected;
                           Collab.decision := decision;
                           Collab.feedback := fb |};
         ConsoleError "Decision error:";
         ToastError (or_default message "Failed to process decision") ]
     ∧ selectedSubmission (page s') = Some selected
     ∧ feedback (page s') = feedback st
     ∧ submissions (page s') = submissions st).
Proof.
  intros Hsel Hfb Hup Hfetch s' fb. subst s' fb.
  rewrite blank_iff in Hfb. apply not_true_is_false in Hfb.
  unfold handleDecision, loadSubmissions. unfold_ops.
  rewrite Hsel, Hfb, Hup.
  destruct Hfetch as [Hfetch|[message Hfetch]]; rewrite Hfetch; simpl.
  - destruct (select_all_reply env); simpl.
    all: split;
      [split; [done|]; split; [intros row; apply updated_rows|];
       split; [eexists; split; [reflexivity | by repeat constructor]|];
       done|].
    all: split; [|done].
    all: intros _.
    all: split; [eexists; split; [reflexivity | by repeat constructor]|].
    all: done.
  - split;
      [split; [done|]; split; [intros row; apply updated_rows|];
       split; [eexists; split; [reflexivity | by repeat constructor]|];
       done|].
    split; [done|].
    intros ? [= <-]. done.
Qed.

(** C9: when the store answers the update with an error, the handler
    stops there: the world is as before, the only request made is the
    update itself, the failure is reported and no success is, the
    selection, the feedback text and the list are as they were, and the
    page is no longer processing. In every run the notification request is
    made only when the update was answered without an error. *)
Theorem failed_update_aborts_decision env decision st w selected :
  selectedSubmission st = Some selected →
  ¬ Forall (λ c, is_ws c = true) (feedback st) →
  update_reply env = Errored →
  let s' := (handleDecision env decision (mkSys st w [])).2 in
  world s' = w
  ∧ trace s'
    = [ UpdateSubmission (Submission.id selected) (decision_status decision)
          (trim (feedback st));
        ConsoleError "Decision error:";
        ToastError "Failed to update submission" ]
  ∧ selectedSubmission (page s') = Some selected
  ∧ feedback (page s') = feedback st
  ∧ submissions (page s') = submissions st
  ∧ processing (page s') = false
  ∧ (∀ env' decision' st' w' payload,
       FetchSendEmail payload
         ∈ trace (handleDecision env' decision' (mkSys st' w' [])).2 →
       update_reply env' = Answered).
Proof.
  intros Hsel Hfb Hup s'. subst s'.
  rewrite blank_iff in Hfb. apply not_true_is_false in Hfb.
  split_and!; [..|intros; by eapply fetch_only_after_update].
  all: unfold handleDecision, loadSubmissions; unfold_ops.
  all: rewrite Hsel, Hfb, Hup; simpl; done.
Qed.

(** C1: with a submission selected, a decision does nothing outside the page
    when the feedback is empty or only white space, or when the selected
    submission is not pending. Through the page, clicking Accept or Reject
    then runs no handler (the buttons are disabled for blank feedback and
    are not rendered for a submission that is not pending): the page state
    and the world are as before and nothing is requested. Called directly
    with blank feedback, [handleDecision] only shows an error toast. *)
Theorem decision_rejected_locally env decision st w selected :
  selectedSubmission st = Some selected →
  Forall (λ c, is_ws c = true) (feedback st)
  ∨ Submission.status selected ≠ Submission.pending →
  step (mkSys st w []) (ClickDecision decision, env) = mkSys st w []
  ∧ (Forall (λ c, is_ws c = true) (feedback st) →
     (handleDecision env decision (mkSys st w [])).2
     = mkSys st w
         [ToastError "Please provide feedback before making a decision"]).
Proof.
  intros Hsel Hwhy. split.
  - unfold step, dispatch. unfold_ops. cbn [fst snd].
    unfold decision_buttons_rendered, decision_buttons_disabled.
    rewrite Hsel.
    destruct Hwhy as [Hblank|Hstatus].
    + apply blank_iff in Hblank. rewrite Hblank, orb_true_r, andb_false_r.
      done.
    + rewrite (bool_decide_eq_false_2 _ Hstatus).
      by destruct (render st).
  - intros Hblank. apply blank_iff in Hblank.
    unfold handleDecision. unfold_ops. by rewrite Hsel, Hblank.
Qed.

End EvaluatePageFacts.

(** ** The theorems at concrete inputs *)

Module ValidationExamples.
Import JsString Validation Scenario.
Local Open Scope string_scope.
Local Open Scope nat_scope.
Local Open Scope list_scope.
Local Open Scope stdpp_scope.

Example draft_is_valid : validateSubmissionForm draft = ∅.
Proof. vm_compute. reflexivity. Qed.

Example hobbies_19 :
  validateSubmissionForm (with_hobbies (replicate 19 97%N)) !! "hobbies"
  = Some "Please provide more detail (at least 20 characters)".
Proof. vm_compute. reflexivity. Qed.

Example hobbies_20 :
  validateSubmissionForm (with_hobbies (replicate 20 97%N)) = ∅.
Proof. vm_compute. reflexivity. Qed.

Example hobbies_1000 :
  validateSubmissionForm (with_hobbies (replicate 1000 97%N)) = ∅.
Proof. vm_compute. reflexivity. Qed.

Example hobbies_1001 :
  validateSubmissionForm (with_hobbies (replicate 1001 97%N)) !! "hobbies"
  = Some "Please keep your response under 1000 characters".
Proof. vm_compute. reflexivity. Qed.

(** Surrounding white space does not count. *)
Example hobbies_padded :
  validateSubmissionForm
    (with_hobbies (js "   " ++ replicate 19 97%N ++ js "   ")) !! "hobbies"
  = Some "Please provide more detail (at least 20 characters)".
Proof. vm_compute. reflexivity. Qed.

Example email_examples :
  validateEmail (js "ada@example.org") = true
  ∧ validateEmail (js "ada@example") = false
  ∧ validateEmail (js "ada lovelace@example.org") = false
  ∧ validateEmail (js "ada@@example.org") = false
  ∧ validateEmail (js "a@b.c.d") = true.
Proof. vm_compute. repeat split. Qed.

End ValidationExamples.


Module EvaluatePageExamples.
Import JsString Handler Collab EvaluatePage Scenario.
Local Open Scope string_scope.
Local Open Scope nat_scope.
Local Open Scope list_scope.
Local Open Scope stdpp_scope.

Lemma great_work_not_blank :
  ¬ Forall (λ c, is_ws c = true) (js "Great work").
Proof.
  intros H. apply Forall_cons in H as [H _]. vm_compute in H. discriminate.
Defined.

Lemma decision_rejected_locally_witness :
  step (mkSys (review_state Submission.accepted (js "Great work"))
          (world_with_row Submission.accepted) [])
       (ClickDecision decide_rejected, review_env Answered true)
  = mkSys (review_state Submission.accepted (js "Great work"))
      (world_with_row Submission.accepted) [].
Proof.
  destruct (EvaluatePageFacts.decision_rejected_locally
              (review_env Answered true) decide_rejected
              (review_state Submission.accepted (js "Great work"))
              (world_with_row Submission.accepted)
              (earlier_row Submission.accepted)) as [H _].
  - reflexivity.
  - right. discriminate.
  - exact H.
Defined.

Lemma notification_failure_is_not_rolled_back_witness :
  let s' := (handleDecision (review_env Answered false) decide_accepted
               (mkSys (review_state Submission.pending (js "Great work"))
                  (world_with_row Submission.pending) [])).2 in
  selectedSubmission (page s') = None ∧ feedback (page s') = [].
Proof.
  destruct (EvaluatePageFacts.notification_failure_is_not_rolled_back
              (review_env Answered false) decide_accepted
              (review_state Submission.pending (js "Great work"))
              (world_with_row Submission.pending)
              (earlier_row Submission.pending))
    as (_ & H & _).
  - reflexivity.
  - apply great_work_not_blank.
  - reflexivity.
  - left. reflexivity.
  - destruct (H eq_refl) as (_ & H1 & H2 & _). split; assumption.
Defined.

(** C6: the update is answered and the row of [ada] is accepted with the
    feedback, the response of [/api/send-email] is not ok, and reading its
    text rejects. The decision stays written, but the page reports no
    success: it shows an error, keeps the selection and the feedback text,
    and does not reload the list. *)
Lemma unreadable_response_is_reported_as_failure :
  let s' := (handleDecision unreadable_response decide_accepted
               (mkSys (review_state Submission.pending (js "Great work"))
                  (world_with_row Submission.pending) [])).2 in
  fetch_reply unreadable_response = FetchUnreadable "The network connection was lost."
  ∧ (Submission.status <$> submissions_table (world s')
     = [Submission.accepted])
  ∧ Vocabulary.success_toasts (trace s') = []
  ∧ Vocabulary.error_toasts (trace s') = ["The network connection was lost."]
  ∧ selectedSubmission (page s') = Some (earlier_row Submission.pending)
  ∧ feedback (page s') = js "Great work"
  ∧ (SelectAllSubmissions ∉ trace s').
Proof.
  vm_compute. repeat split.
  intros H. repeat (apply elem_of_cons in H as [H|H]; [discriminate|]).
  by apply elem_of_nil in H.
Qed.

Lemma failed_update_aborts_decision_witness :
  world (handleDecision (review_env Errored true) decide_accepted
           (mkSys (review_state Submission.pending (js "Great work"))
              (world_with_row Submission.pending) [])).2
  = world_with_row Submission.pending.
Proof.
  destruct (EvaluatePageFacts.failed_update_aborts_decision
              (review_env Errored true) decide_accepted
              (review_state Submission.pending (js "Great work"))
              (world_with_row Submission.pending)
              (earlier_row Submission.pending)) as (H & _).
  - reflexivity.
  - apply great_work_not_blank.
  - reflexivity.
  - exact H.
Defined.

(** The end-to-end decision of the specification: the row becomes
    accepted with the feedback, and one notification is requested. *)
Example accepted_with_feedback :
  let s' := (handleDecision (review_env Answered true) decide_accepted
               (mkSys (review_state Submission.pending (js "Great work"))
                  (world_with_row Submission.pending) [])).2 in
  Submission.status <$> submissions_table (world s') = [Submission.accepted]
  ∧ Submission.feedback <$> submissions_table (world s')
    = [Some (js "Great work")]
  ∧ trace s'
    = [ UpdateSubmission (js "row-1") Submission.accepted (js "Great work");
        FetchSendEmail {| to := js "ada@example.org";
                          name := js "Ada Lovelace";
                          decision := decide_accepted;
                          Collab.feedback := js "Great work" |};
        ToastSuccess "Candidate accepted! 🎉";
        SelectAllSubmissions ].
Proof. vm_compute. repeat split. Qed.

(** [handleDecision] itself does not look at the status of the selected
    submission: what keeps a decided submission read-only is that the page
    renders no Accept and Reject buttons for it. *)
Example handleDecision_does_not_check_status :
  Submission.status
  <$> submissions_table
        (world (handleDecision (review_env Answered true) decide_rejected
                  (mkSys (review_state Submission.accepted (js "Great work"))
                     (world_with_row Submission.accepted) [])).2)
  = [Submission.rejected].
Proof. vm_compute. reflexivity. Qed.

End EvaluatePageExamples.

Module SendEmailExamples.
Import JsString Handler SendEmail Scenario.
Local Open Scope string_scope.
Local Open Scope nat_scope.
Local Open Scope list_scope.
Local Open Scope stdpp_scope.

Example sent :
  (respond configured (MailjetResponse true None)
     (accepted_request (VStr (js "Great work")))).1
  = Some {| status := 200; body := success_body |}.
Proof. vm_compute. reflexivity. Qed.

Example transport_failed :
  (respond configured (MailjetResponse false None)
     (accepted_request (VStr (js "Great work")))).1
  = Some {| status := 500; body := error_body "Failed to send email" |}.
Proof. vm_compute. reflexivity. Qed.

Example zero_is_missing :
  (respond configured (MailjetResponse true None)
     (accepted_request (VNum 0))).1
  = Some bad_request.
Proof. vm_compute. reflexivity. Qed.

End SendEmailExamples.

(* ===================================================================== *)
(** * Further properties of the code *)
(* ===================================================================== *)

(** ** The login page *)

Module LoginPageFacts.
Import JsString Handler Collab LoginPage HandlerFacts.
Local Open Scope string_scope.
Local Open Scope nat_scope.
Local Open Scope list_scope.
Local Open Scope stdpp_scope.

Lemma developer_not_evaluator : js "developer" ≠ js "evaluator".
Proof. vm_compute. discriminate. Qed.

#[local] Opaque js.

Ltac exec_handleLogin env :=
  unfold handleLogin, emit, setLoading; step_handler;
  destruct (signIn env) as [|message| |uid] eqn:Hsign; simpl;
  [ | | | destruct (profile env) as [role| |] eqn:Hprofile; simpl;
          [ destruct (decide (role = js "developer")) as [Hdev|Hdev];
            [ rewrite (bool_decide_eq_true_2 _ Hdev)
            | rewrite (bool_decide_eq_false_2 _ Hdev);
              destruct (decide (role = js "evaluator")) as [Hev|Hev];
              [ rewrite (bool_decide_eq_true_2 _ Hev)
              | rewrite (bool_decide_eq_false_2 _ Hev) ] ]
          | | ] ];
  simpl.

(** X1: a login attempt sends the browser to at most one page, and only
    after a successful sign-in whose profile has a known role: to
    [./submit] exactly for the role [developer], to [./evaluate] exactly for
    the role [evaluator]. It signs the user out again exactly when the
    sign-in succeeded but the profile could not be read or has another
    role. Whatever happens, the page ends with [loading] off and the typed
    email and password as they were. *)
Theorem handleLogin_routes_by_role env st :
  let s' := (handleLogin env (st, [])).2 in
  loading s'.1 = false
  ∧ email s'.1 = email st ∧ password s'.1 = password st
  ∧ (destination s'.2 = ["./submit"]
     ↔ ∃ uid, signIn env = SignInUser uid
              ∧ profile env = ProfileRole (js "developer"))
  ∧ (destination s'.2 = ["./evaluate"]
     ↔ ∃ uid, signIn env = SignInUser uid
              ∧ profile env = ProfileRole (js "evaluator"))
  ∧ (destination s'.2 = [] ∨ destination s'.2 = ["./submit"]
     ∨ destination s'.2 = ["./evaluate"])
  ∧ (SignOut ∈ s'.2
     ↔ ∃ uid, signIn env = SignInUser uid
              ∧ (profile env = ProfileError
                 ∨ ∃ role, profile env = ProfileRole role
                           ∧ role ≠ js "developer" ∧ role ≠ js "evaluator")).
Proof.
  intros s'. subst s'.
  pose proof developer_not_evaluator as Hde.
  exec_handleLogin env.
  all: split; [done|]; split; [done|]; split; [done|].
  all: split; [split; [try done | intros (u & Hu & Hp); simplify_eq; try done]|].
  all: try (exists uid; by subst).
  all: split; [split; [try done | intros (u & Hu & Hp); simplify_eq; try done]|].
  all: try (exists uid; by subst).
  all: split; [by eauto|].
  all: split;
    [ intros Hin; first [ by (exists uid; eauto 10)
                        | exfalso;
                          repeat (apply elem_of_cons in Hin as [Hin|Hin];
                                  [discriminate|]);
                          by apply elem_of_nil in Hin ]
    | intros (u & Hu & [Hp|(r & Hp & H1 & H2)]); simplify_eq;
      rewrite !elem_of_cons; by eauto 10 ].
Qed.

End LoginPageFacts.

(** ** Who gets to see the pages *)

Module AccessFacts.
Import JsString Handler Collab HandlerFacts.
Local Open Scope string_scope.
Local Open Scope nat_scope.
Local Open Scope list_scope.
Local Open Scope stdpp_scope.

#[local] Opaque js.
#[local] Arguments EvaluatePage.newest_first : simpl never.

Ltac unfold_ops :=
  cbv beta iota zeta delta
    [emit set_page set_world request select_submission_of_user
     SubmitPage.access_denied EvaluatePage.access_denied
     EvaluatePage.subscribeToSubmissions
     mbind mret M_bind M_ret bind ret throw get modify try_catch finally when
     fst snd page world trace].

Ltac in_trace :=
  rewrite ?elem_of_cons, ?elem_of_nil; by eauto 10.

Ltac not_in_trace H :=
  exfalso;
  repeat (apply elem_of_cons in H as [H|H]; [discriminate|]);
  by apply elem_of_nil in H.

(** X2: opening the submit page never writes. The page leaves its loading
    placeholder exactly for a signed-in user whose profile has the role
    [developer] and whose submission lookup was not rejected; in every
    other case it sends the browser to [/login]. It signs the user out
    exactly when a user is signed in but the profile could not be read or
    has another role, and it asks the store for the user's submission only
    after the role check has passed. *)
Theorem submit_page_is_for_developers env w :
  let s := SubmitPage.enter env w in
  world s = w
  ∧ (SubmitPage.render (page s) ≠ SubmitPage.LoadingView
     ↔ (∃ uid, SubmitPage.getUser env = Some (Some uid))
       ∧ SubmitPage.profile env = ProfileRole (js "developer")
       ∧ SubmitPage.lookup_reply env ≠ Rejected)
  ∧ (RouterPush "/login" ∈ trace s
     ↔ SubmitPage.render (page s) = SubmitPage.LoadingView)
  ∧ (AuthSignOut ∈ trace s
     ↔ (∃ uid, SubmitPage.getUser env = Some (Some uid))
       ∧ (SubmitPage.profile env = ProfileError
          ∨ ∃ role, SubmitPage.profile env = ProfileRole role
                    ∧ role ≠ js "developer"))
  ∧ (∀ uid, SelectSubmissionOfUser uid ∈ trace s →
            SubmitPage.getUser env = Some (Some uid)
            ∧ SubmitPage.profile env = ProfileRole (js "developer")).
Proof.
  intros s. subst s.
  unfold SubmitPage.enter, SubmitPage.checkAuth. unfold_ops.
  destruct (SubmitPage.getUser env) as [[uid|]|] eqn:Hu; simpl.
  2,3: split; [done|]; split; [split; [done | by intros ([? ?] & _)]|];
       split; [split; [done | intros _; in_trace]|];
       split; [split; [intros H; not_in_trace H | by intros ([? ?] & _)]|];
       intros ? H; not_in_trace H.
  destruct (SubmitPage.profile env) as [role| |] eqn:Hp; simpl.
  2,3: split; [done|]; split; [split; [done | by intros (_ & ? & _)]|];
       split; [split; [done | intros _; in_trace]|];
       split; [split; [first [by eauto 10 | intros H; not_in_trace H]
                      | first [intros _; in_trace
                              | by intros (_ & [?|(? & ? & _)])]]|];
       intros ? H; not_in_trace H.
  destruct (decide (role = js "developer")) as [->|Hrole].
  - rewrite bool_decide_eq_false_2 by (intros H; by apply H).
    destruct (SubmitPage.lookup_reply env) eqn:Hl; simpl.
    1: destruct (bool_decide _); simpl.
    all: split; [done|].
    all: split; [split; [first [by eauto 10 | done]
                        | first [done | by intros (_ & _ & ?)]]|].
    all: split; [split; [first [intros H; not_in_trace H | done]
                        | first [done | intros _; in_trace]]|].
    all: split; [split; [intros H; not_in_trace H
                        | intros (_ & [?|(? & ? & ?)]); by simplify_eq]|].
    all: intros u H; apply elem_of_cons in H as [H|H]; [discriminate|];
         apply elem_of_cons in H as [H|H]; [discriminate|];
         apply elem_of_cons in H as [H|H]; [by simplify_eq|];
         not_in_trace H.
  - rewrite bool_decide_eq_true_2 by done. simpl.
    split; [done|]. split; [split; [done | intros (_ & ? & _); by simplify_eq]|].
    split; [split; [done | intros _; in_trace]|].
    split; [split; [by eauto 10 | intros _; in_trace]|].
    intros ? H; not_in_trace H.
Qed.

(** X3: opening the evaluate page never writes. It asks the store for the
    submissions, and subscribes to their changes, exactly for a signed-in
    user whose profile has the role [evaluator]; everybody else is sent to
    [/login]. A list that is not empty was therefore loaded for an
    evaluator, from an answered request. When that first request is
    answered with an error the page keeps showing its loading placeholder
    and sends the browser nowhere. *)
Theorem evaluate_page_is_for_evaluators env w :
  let s := (EvaluatePage.checkAuth env (mkSys EvaluatePage.initial w [])).2 in
  world s = w
  ∧ (SelectAllSubmissions ∈ trace s ↔ Vocabulary.is_evaluator env = true)
  ∧ (EvaluatePage.subscribed (page s) = Vocabulary.is_evaluator env)
  ∧ (RouterPush "/login" ∈ trace s ↔ Vocabulary.is_evaluator env = false)
  ∧ (EvaluatePage.submissions (page s) ≠ [] →
     Vocabulary.is_evaluator env = true
     ∧ EvaluatePage.select_all_reply env = Answered)
  ∧ (Vocabulary.is_evaluator env = true →
     EvaluatePage.select_all_reply env = Errored →
     EvaluatePage.render (page s) = EvaluatePage.LoadingView).
Proof.
  intros s. subst s.
  unfold EvaluatePage.checkAuth, EvaluatePage.loadSubmissions,
    Vocabulary.is_evaluator.
  unfold_ops.
  destruct (EvaluatePage.getUser env) as [[uid|]|] eqn:Hu; simpl.
  2,3: split; [done|]; split; [split; [intros H; not_in_trace H | done]|];
       split; [done|]; split; [split; [done | intros _; in_trace]|];
       by split.
  destruct (EvaluatePage.profile env) as [role| |] eqn:Hp; simpl.
  2,3: split; [done|]; split; [split; [intros H; not_in_trace H | done]|];
       split; [done|]; split; [split; [done | intros _; in_trace]|];
       by split.
  destruct (decide (role = js "evaluator")) as [->|Hrole].
  - rewrite bool_decide_eq_false_2 by (intros H; by apply H).
    rewrite bool_decide_eq_true_2 by done.
    destruct (EvaluatePage.select_all_reply env) eqn:Hl; simpl.
    all: split; [done|].
    all: split; [split; [done | intros _; in_trace]|].
    all: split; [done|].
    all: split; [split; [intros H; not_in_trace H | done]|].
    all: by split.
  - rewrite bool_decide_eq_true_2 by done.
    rewrite (bool_decide_eq_false_2 _ Hrole). simpl.
    split; [done|]. split; [split; [intros H; not_in_trace H | done]|].
    split; [done|]. split; [split; [done | intros _; in_trace]|].
    by split.
Qed.

(** The role behind a redirect of the login page. *)
Lemma login_submit_role lenv lst :
  LoginPage.destination (LoginPage.handleLogin lenv (lst, [])).2.2
  = ["./submit"] →
  LoginPage.profile lenv = ProfileRole (js "developer").
Proof.
  unfold LoginPage.handleLogin, LoginPage.emit, LoginPage.setLoading.
  step_handler.
  destruct (LoginPage.signIn lenv); simpl; try done.
  destruct (LoginPage.profile lenv) as [role| |]; simpl; try done.
  destruct (decide (role = js "developer")) as [->|Hd]; [done|].
  rewrite (bool_decide_eq_false_2 _ Hd).
  by destruct (bool_decide (role = js "evaluator")).
Qed.

Lemma login_evaluate_role lenv lst :
  LoginPage.destination (LoginPage.handleLogin lenv (lst, [])).2.2
  = ["./evaluate"] →
  LoginPage.profile lenv = ProfileRole (js "evaluator").
Proof.
  unfold LoginPage.handleLogin, LoginPage.emit, LoginPage.setLoading.
  step_handler.
  destruct (LoginPage.signIn lenv); simpl; try done.
  destruct (LoginPage.profile lenv) as [role| |]; simpl; try done.
  destruct (bool_decide (role = js "developer")); [done|].
  destruct (decide (role = js "evaluator")) as [->|He]; [done|].
  by rewrite (bool_decide_eq_false_2 _ He).
Qed.

(** X4: the login page and the two pages agree on the role. When a login
    sends the browser to [./submit], the submit page opened for the same
    user and the same profile answer passes its role check: it does not
    sign the user out and it goes on to look for the user's submission.
    When a login sends the browser to [./evaluate], the evaluate page
    likewise goes on to load the submissions. *)
Theorem login_agrees_with_pages lenv lst uid :
  LoginPage.signIn lenv = LoginPage.SignInUser uid →
  (LoginPage.destination (LoginPage.handleLogin lenv (lst, [])).2.2
   = ["./submit"] →
   ∀ env w,
     SubmitPage.getUser env = Some (Some uid) →
     SubmitPage.profile env = LoginPage.profile lenv →
     (AuthSignOut ∉ trace (SubmitPage.enter env w))
     ∧ SelectSubmissionOfUser uid ∈ trace (SubmitPage.enter env w))
  ∧ (LoginPage.destination (LoginPage.handleLogin lenv (lst, [])).2.2
     = ["./evaluate"] →
     ∀ env w,
       EvaluatePage.getUser env = Some (Some uid) →
       EvaluatePage.profile env = LoginPage.profile lenv →
       let s := (EvaluatePage.checkAuth env
                   (mkSys EvaluatePage.initial w [])).2 in
       (AuthSignOut ∉ trace s) ∧ SelectAllSubmissions ∈ trace s).
Proof.
  intros Hsign. split.
  - intros Hdest env w Hu Hp.
    apply login_submit_role in Hdest. rewrite Hdest in Hp.
    unfold SubmitPage.enter, SubmitPage.checkAuth. unfold_ops.
    rewrite Hu, Hp. simpl.
    rewrite bool_decide_eq_false_2 by (intros H; by apply H).
    destruct (SubmitPage.lookup_reply env); simpl;
      try destruct (bool_decide _); simpl.
    all: split; [intros H; not_in_trace H | in_trace].
  - intros Hdest env w Hu Hp s.
    apply login_evaluate_role in Hdest. rewrite Hdest in Hp.
    subst s. unfold EvaluatePage.checkAuth, EvaluatePage.loadSubmissions.
    unfold_ops. rewrite Hu, Hp. simpl.
    rewrite bool_decide_eq_false_2 by (intros H; by apply H).
    destruct (EvaluatePage.select_all_reply env); simpl.
    all: split; [intros H; not_in_trace H | in_trace].
Qed.

End AccessFacts.

(** ** More about strings *)

Module JsStringMoreFacts.
Import JsString JsStringFacts Validation ValidationFacts Vocabulary.
Local Open Scope string_scope.
Local Open Scope nat_scope.
Local Open Scope list_scope.
Local Open Scope stdpp_scope.

Lemma trimStart_head s c : head (trimStart s) = Some c → is_ws c = false.
Proof.
  induction s as [|a s IH]; simpl; [done|].
  destruct (is_ws a) eqn:E; [done|]. simpl. by intros [= <-].
Qed.

Lemma trimEnd_decompose s :
  ∃ k, s = trimEnd s ++ k ∧ Forall (λ c, is_ws c = true) k.
Proof.
  unfold trimEnd.
  destruct (trimStart_suffix (reverse s)) as (k & Hk & Hws).
  exists (reverse k). split; [|by apply Forall_reverse].
  rewrite <- reverse_app, <- Hk. by rewrite reverse_involutive.
Qed.

Lemma trimEnd_last s c : last (trimEnd s) = Some c → is_ws c = false.
Proof.
  unfold trimEnd. rewrite last_reverse. apply trimStart_head.
Qed.

Lemma trim_decompose s :
  ∃ k1 k2, s = k1 ++ trim s ++ k2
           ∧ Forall (λ c, is_ws c = true) k1
           ∧ Forall (λ c, is_ws c = true) k2.
Proof.
  destruct (trimStart_suffix s) as (k1 & H1 & Hw1).
  destruct (trimEnd_decompose (trimStart s)) as (k2 & H2 & Hw2).
  exists k1, k2. unfold trim. by rewrite <- H2.
Qed.

Lemma trim_trimmed s : trimmed (trim s).
Proof.
  split; intros c Hc.
  - unfold trim in Hc.
    destruct (trimEnd_decompose (trimStart s)) as (k & Hk & _).
    destruct (trimEnd (trimStart s)) as [|a r]; [done|].
    simpl in Hc. injection Hc as ->.
    apply (trimStart_head s). by rewrite Hk.
  - by apply trimEnd_last in Hc.
Qed.

Lemma trim_idempotent s : trim (trim s) = trim s.
Proof. destruct (trim_trimmed s). by apply trim_id. Qed.

Lemma digit_count_app s t : digit_count (s ++ t) = digit_count s + digit_count t.
Proof.
  induction s as [|c s IH]; [done|]. simpl. fold (digit_count (s ++ t)).
  fold (digit_count s). rewrite IH. by destruct (is_digit c).
Qed.

Lemma digit_count_trim s : digit_count (trim s) = digit_count s.
Proof.
  destruct (trim_decompose s) as (k1 & k2 & Hs & H1 & H2).
  rewrite Hs at 2. rewrite !digit_count_app.
  rewrite (digit_count_blank k1), (digit_count_blank k2) by done. lia.
Qed.

(** A text of the email shape has no white space to trim. *)
Lemma email_shape_trim s : email_shape s → trim s = s.
Proof.
  intros (loc & dom & tld & -> & [Hl1 Hl2] & _ & [Ht1 Ht2]).
  apply trim_id.
  - destruct loc as [|a loc]; [done|]. simpl. intros c [= <-].
    by inversion Hl2 as [|? ? [? _]].
  - intros c. rewrite !app_assoc.
    destruct (exists_last Ht1) as (tl & z & ->).
    rewrite app_assoc, last_snoc. intros [= <-].
    apply Forall_app in Ht2 as [_ Ht2]. by inversion Ht2 as [|? ? [? _]].
Qed.

Lemma split_pop_extension (stem ext : jsstring) :
  46%N ∉ ext → split_pop 46%N (stem ++ 46%N :: ext) = ext.
Proof.
  intros Hext. induction stem as [|c stem IH]; simpl.
  - by rewrite bool_decide_eq_false_2.
  - rewrite bool_decide_eq_true_2; [done|].
    apply elem_of_app. right. by left.
Qed.

Lemma split_pop_zip stem : split_pop 46%N (stem ++ js ".zip") = js "zip".
Proof.
  change (js ".zip") with (46%N :: js "zip").
  apply split_pop_extension. vm_compute.
  intros H. repeat (apply elem_of_cons in H as [H|H]; [discriminate|]).
  by apply elem_of_nil in H.
Qed.

End JsStringMoreFacts.

(** ** More about the submit page *)

Module SubmitPageMoreFacts.
Import JsString Handler Collab Validation SubmitPage HandlerFacts.
Import JsStringFacts ValidationFacts JsStringMoreFacts Vocabulary.
Local Open Scope string_scope.
Local Open Scope nat_scope.
Local Open Scope list_scope.
Local Open Scope stdpp_scope.

Lemma zip_suffix : ∀ stem, split_pop 46%N (stem ++ js ".zip") = js "zip".
Proof. apply split_pop_zip. Qed.

#[local] Opaque js.
#[local] Arguments validateSubmissionForm : simpl never.
#[local] Arguments trim : simpl never.
#[local] Arguments split_pop : simpl never.

Ltac trace_cases H :=
  rewrite ?elem_of_cons, ?elem_of_nil in H;
  repeat (destruct H as [H|H]; [try discriminate H|]);
  try (exfalso; exact H); try discriminate H.

(** X5: a row the submit handler sends to the store carries the trimmed
    texts of a draft that passed validation, so its columns meet the rules
    of the form: name and location of 2 to 100 code units, a phone number
    with 7 to 15 digits, an email of the [local@domain.tld] shape (the
    email as typed: trimming does not change it), hobbies of 20 to 1000
    code units, none of them with white space at either end. The row is
    pending, has no feedback, belongs to the signed-in user, and points to
    that user's [source-code.zip] and [profile.<ext>] paths. *)
Theorem inserted_row_meets_rules env st w row :
  InsertSubmission row ∈ trace (handleSubmit env (mkSys st w [])).2 →
  stored_fields_ok row
  ∧ Submission.status row = Submission.pending
  ∧ Submission.feedback row = None
  ∧ userId st = Some (Submission.user_id row)
  ∧ Submission.user_id row ≠ []
  ∧ Submission.email row = email (formData st)
  ∧ Submission.source_code_url row
    = publicUrl env "source-code"
        (Submission.user_id row ++ js "/source-code.zip")
  ∧ ∃ ext, Submission.profile_picture_url row
           = publicUrl env "profile-pictures"
               (Submission.user_id row ++ js "/profile." ++ ext).
Proof.
  SubmitPageFacts.exec_handleSubmit env st; intros Hin; trace_cases Hin.
  all: injection Hin as ->; simpl.
  all: apply SubmitPageFacts.size_validation_false in Hv.
  all: apply empty_iff_valid in Hv
         as (Hname & Hphone & Hloc & Hmail & Hhob & _ & (f & Hf & [stem Hz] & _)).
  all: assert (f = archive) as -> by congruence.
  all: unfold stored_fields_ok; simpl.
  all: rewrite (email_shape_trim _ Hmail), digit_count_trim, Hz, zip_suffix.
  all: unfold fullName_valid, phoneNumber_valid, location_valid,
         hobbies_valid, email_valid in *.
  all: repeat match goal with
       | |- trimmed _ => apply trim_trimmed
       | |- _ ∧ _ => split
       end; try done; try lia.
  all: by eexists.
Qed.

Lemma changed_key (m : gmap (string * jsstring) File.t) k1 v1 k2 v2 key uid :
  own_key uid k1 → own_key uid k2 →
  (<[k2 := v2]> (<[k1 := v1]> m)) !! key ≠ m !! key → own_key uid key.
Proof.
  intros H1 H2 Hne.
  destruct (decide (k2 = key)) as [<-|?]; [done|].
  rewrite lookup_insert_ne in Hne by done.
  destruct (decide (k1 = key)) as [<-|?]; [done|].
  by rewrite lookup_insert_ne in Hne.
Qed.

Lemma changed_key_one (m : gmap (string * jsstring) File.t) k1 v1 key uid :
  own_key uid k1 → (<[k1 := v1]> m) !! key ≠ m !! key → own_key uid key.
Proof.
  intros H1 Hne.
  destruct (decide (k1 = key)) as [<-|?]; [done|].
  by rewrite lookup_insert_ne in Hne.
Qed.

Lemma upsert_twice (m : gmap (string * jsstring) File.t) k1 v1 k2 v2 :
  <[k2 := v2]> (<[k1 := v1]> (<[k2 := v2]> (<[k1 := v1]> m)))
  = <[k2 := v2]> (<[k1 := v1]> m).
Proof.
  apply map_eq. intros k. rewrite !lookup_insert.
  repeat case_decide; done.
Qed.

(** X6: an attempt writes to blob storage only under keys of the signed-in
    user: the key [<uid>/source-code.zip] of the source bucket and a key
    [<uid>/profile.<ext>] of the picture bucket; every other key keeps its
    content. Uploads replace: repeating the attempt with the same draft and
    the same answers leaves storage exactly as the first attempt left
    it. *)
Theorem uploads_stay_in_own_folder env st w :
  let s1 := (handleSubmit env (mkSys st w [])).2 in
  (∀ key, blobs (world s1) !! key ≠ blobs w !! key →
          ∃ uid, userId st = Some uid ∧ own_key uid key)
  ∧ blobs (world (handleSubmit env (mkSys st (world s1) [])).2)
    = blobs (world s1).
Proof.
  intros s1. subst s1.
  SubmitPageFacts.exec_handleSubmit env st.
  all: try (split; [by intros key Hne|done]).
  all: try apply SubmitPageFacts.size_validation_false in Hv.
  all: try (apply empty_iff_valid in Hv as Hvalid;
            destruct Hvalid as (_&_&_&_&_&_&(f & Hf & [stem Hz] & _));
            rewrite ?Harch in Hf; simplify_eq).
  all: rewrite ?Hz, ?zip_suffix.
  all: split;
    [ intros key Hne; eexists; split; [done|];
      first [ eapply changed_key; [| |exact Hne]
            | eapply changed_key_one; [|exact Hne] ];
      first [ by left | right; by eexists ]
    | first [ apply upsert_twice | apply insert_insert_eq ] ].
Qed.

(** X7: however an attempt ends, the draft, the signed-in user and the
    loading flag are as before and the page is not left in its submitting
    state. A draft that fails validation only gets its error map and one
    toast: nothing leaves the page. An attempt either succeeds, with one
    success toast (the text of the source, [Submission successful!]
    followed by the four characters that stand there), no error toast,
    one more row and the page switched to "Submission Received!"; or it
    fails, with exactly one error toast, no
    success toast, the table and [hasSubmission] unchanged, so that the
    form stays available for another try. *)
Theorem attempt_ends_ready env st w :
  let s' := (handleSubmit env (mkSys st w [])).2 in
  formData (page s') = formData st
  ∧ userId (page s') = userId st
  ∧ loading (page s') = loading st
  ∧ (submitting st = false → submitting (page s') = false)
  ∧ (validateSubmissionForm (formData st) ≠ ∅ →
     errors (page s') = validateSubmissionForm (formData st)
     ∧ world s' = w
     ∧ trace s' = [ToastError "Please fix the errors in the form"])
  ∧ ((hasSubmission (page s') = true
      ∧ success_toasts (trace s') = ["Submission successful! ðŸŽ‰"]
      ∧ error_toasts (trace s') = []
      ∧ ∃ row, submissions_table (world s') = submissions_table w ++ [row])
     ∨ (hasSubmission (page s') = hasSubmission st
        ∧ submissions_table (world s') = submissions_table w
        ∧ success_toasts (trace s') = []
        ∧ ∃ m, error_toasts (trace s') = [m])).
Proof.
  intros s'. subst s'.
  SubmitPageFacts.exec_handleSubmit env st.
  all: try apply SubmitPageFacts.size_validation_false in Hv.
  all: split; [done|]; split; [done|]; split; [done|]; split; [done|].
  all: split; [first [done | by intros ?]|].
  all: first [ left; split; [done|]; split; [done|]; split; [done|];
               by eexists
             | right; split; [done|]; split; [done|]; split; [done|];
               by eexists ].
Qed.

(** *** Files on their way through the page *)

Ltac trace_ok :=
  rewrite ?Forall_app; repeat split; try assumption;
  repeat constructor; simpl; try done.

Lemma handleSubmit_formData env st w t :
  formData (page (handleSubmit env (mkSys st w t)).2) = formData st.
Proof. SubmitPageFacts.exec_handleSubmit env st; done. Qed.

Lemma handleSubmit_files env st w t :
  files_ok (formData st) → Forall handled_file_ok t →
  let s' := (handleSubmit env (mkSys st w t)).2 in
  files_ok (formData (page s')) ∧ Forall handled_file_ok (trace s').
Proof.
  intros Hf Ht s'. subst s'.
  split; [by rewrite handleSubmit_formData|].
  destruct Hf as [Hp Ha].
  SubmitPageFacts.exec_handleSubmit env st.
  all: trace_ok.
  all: try first [by apply Hp | by intros [=] | intros _; by apply Ha].
  all: destruct (Ha _ eq_refl); done.
Qed.

Lemma step_files s ae :
  files_ok (formData (page s)) → Forall handled_file_ok (trace s) →
  files_ok (formData (page (step s ae)))
  ∧ Forall handled_file_ok (trace (step s ae)).
Proof.
  destruct s as [st w t], ae as [a env]. simpl. intros Hf Ht.
  unfold step, dispatch, render.
  cbv beta iota zeta delta [mbind M_bind bind get]. cbn [fst snd page].
  destruct a as [|fld value|file|file| |].
  - (* a page load starts from the empty form *)
    unfold checkAuth. SubmitPageFacts.unfold_ops.
    destruct (getUser env) as [[uid|]|]; simpl; [| |].
    2,3: split; [by split | trace_ok].
    destruct (profile env) as [role| |]; simpl.
    2,3: split; [by split | trace_ok].
    destruct (bool_decide (role ≠ js "developer")); simpl.
    { split; [by split | trace_ok]. }
    destruct (lookup_reply env); simpl; try destruct (bool_decide _); simpl.
    all: split; [by split | trace_ok].
  - destruct (loading st), (hasSubmission st), (submitting st);
      SubmitPageFacts.unfold_ops; simpl; try done.
    unfold handleInputChange. SubmitPageFacts.unfold_ops.
    destruct (bool_decide _); simpl; (split; [|done]); by destruct fld.
  - destruct (loading st), (hasSubmission st), (submitting st);
      SubmitPageFacts.unfold_ops; simpl; try done.
    unfold handleProfilePictureChange. SubmitPageFacts.unfold_ops.
    destruct file as [file|]; simpl; [|done].
    destruct (ImageUtils.valid (ImageUtils.validateImageFile file)) eqn:Hv;
      simpl; [|done].
    split; [|done]. destruct Hf as [Hp Ha]. split; simpl; [|done].
    by intros ? [= <-].
  - destruct (loading st), (hasSubmission st), (submitting st);
      SubmitPageFacts.unfold_ops; simpl; try done.
    unfold handleSourceCodeChange. SubmitPageFacts.unfold_ops.
    destruct file as [file|]; simpl; [|done].
    destruct (endsWith (File.name file) (js ".zip")) eqn:Hz; simpl; [|done].
    destruct (N.ltb_spec (50 * 1024 * 1024) (File.size file)); simpl; [done|].
    split; [|done]. destruct Hf as [Hp Ha]. split; simpl; [done|].
    by intros ? [= <-].
  - destruct (loading st), (hasSubmission st), (submitting st);
      try (SubmitPageFacts.unfold_ops; simpl; done).
    by apply handleSubmit_files.
  - destruct (loading st), (hasSubmission st);
      SubmitPageFacts.unfold_ops; simpl; try done.
    all: split; [done | trace_ok].
Qed.

(** X8: along any sequence of loads and actions on the submit page, the
    picture held by the form has passed [validateImageFile] and the archive
    held by the form has a name ending in [.zip] and at most 50 MiB; so
    every file handed to the compressor passed the picture check, and every
    file uploaded to the source bucket passed the archive check. *)
Theorem only_checked_files_are_handled w script :
  let s := run (mkSys initial w []) script in
  files_ok (formData (page s)) ∧ Forall handled_file_ok (trace s).
Proof.
  intros s. subst s.
  assert (H0 : files_ok (formData (page (mkSys initial w [])))
               ∧ Forall handled_file_ok (trace (mkSys initial w []))).
  { split; [by split | constructor]. }
  revert H0. generalize (mkSys initial w []).
  induction script as [|ae script IH]; intros s [Hf Ht]; [done|].
  simpl. apply IH. by apply step_files.
Qed.

Lemma archive_ok_iff file d :
  archive_ok file
  ↔ validateSubmissionForm (set_sourceCode file d) !! "sourceCode" = None.
Proof.
  rewrite lookup_sourceCode. unfold sourceCode_valid, archive_ok. simpl.
  rewrite endsWith_spec. split.
  - intros [Hz Hs]. by exists file.
  - by intros (f & [= <-] & Hz & Hs).
Qed.

(** X9: the two file inputs and the form validation agree. The archive
    input takes a file exactly when [validateSubmissionForm] has no
    complaint about that file as source code: it then puts the file into
    the draft and clears the source-code message, and otherwise leaves the
    draft alone and sets a message. The picture input takes a file exactly
    when [validateImageFile] accepts it. Neither input writes or requests
    anything. *)
Theorem file_inputs_agree_with_validation file st w t :
  let sa := (handleSourceCodeChange (Some file) (mkSys st w t)).2 in
  let sp := (handleProfilePictureChange (Some file) (mkSys st w t)).2 in
  (∀ d, archive_ok file
        ↔ validateSubmissionForm (set_sourceCode file d) !! "sourceCode"
          = None)
  ∧ (archive_ok file →
     formData (page sa) = set_sourceCode file (formData st)
     ∧ errors (page sa) !! "sourceCode" = None)
  ∧ (¬ archive_ok file →
     formData (page sa) = formData st
     ∧ is_Some (errors (page sa) !! "sourceCode"))
  ∧ (picture_ok file →
     formData (page sp) = set_profilePicture file (formData st)
     ∧ errors (page sp) !! "profilePicture" = None)
  ∧ (¬ picture_ok file →
     formData (page sp) = formData st
     ∧ is_Some (errors (page sp) !! "profilePicture"))
  ∧ world sa = w ∧ trace sa = t ∧ world sp = w ∧ trace sp = t.
Proof.
  intros sa sp. subst sa sp.
  split; [intros d; apply archive_ok_iff|].
  unfold handleSourceCodeChange, handleProfilePictureChange,
    archive_ok, picture_ok, ImageUtils.validateImageFile.
  SubmitPageFacts.unfold_ops.
  destruct (endsWith (File.name file) (js ".zip")) eqn:Hz; simpl.
  2: destruct (bool_decide (File.type file ∈ ImageUtils.validTypes)); simpl.
  1: destruct (N.ltb_spec (50 * 1024 * 1024) (File.size file)); simpl.
  1,2: destruct (bool_decide (File.type file ∈ ImageUtils.validTypes)); simpl.
  all: try destruct (N.ltb_spec (20 * 1024 * 1024) (File.size file)); simpl.
  all: rewrite ?lookup_insert_eq, ?lookup_delete_eq.
  all: repeat split; try done; try (intros [? ?]; try done; lia);
       try (intros Hn; exfalso; apply Hn; by split); try by eauto.
  all: exfalso;
    match goal with
    | H : _ ∧ _ |- _ => destruct H; first [done | lia]
    | H : ¬ _ |- _ => apply H; split; first [done | lia]
    end.
Qed.

End SubmitPageMoreFacts.

(** ** More about the evaluate page *)

Module EvaluatePageMoreFacts.
Import JsString Handler Collab EvaluatePage HandlerFacts.
Import JsStringFacts JsStringMoreFacts Vocabulary.
Local Open Scope string_scope.
Local Open Scope nat_scope.
Local Open Scope list_scope.
Local Open Scope stdpp_scope.

#[local] Opaque js.
#[local] Arguments trim : simpl never.
#[local] Arguments newest_first : simpl never.

#[local] Instance not_older_total : Total not_older.
Proof. intros a b. unfold not_older. lia. Qed.

#[local] Instance not_older_trans : Transitive not_older.
Proof. intros a b c. unfold not_older. lia. Qed.

(** X10: reloading the list never throws and never writes, and it leaves
    the selection, the feedback text and the processing flag alone. When
    the store answers, the page shows exactly the rows of the table, each
    as often as it is there, newest first, and stops showing the loading
    placeholder. When the store answers with an error the list and the
    loading flag stay as they were and one error toast is shown; when the
    request is rejected the list stays and the placeholder goes away. *)
Theorem loadSubmissions_refreshes env st w t :
  let r := loadSubmissions env (mkSys st w t) in
  r.1 = Value tt
  ∧ world r.2 = w
  ∧ selectedSubmission (page r.2) = selectedSubmission st
  ∧ feedback (page r.2) = feedback st
  ∧ processing (page r.2) = processing st
  ∧ (select_all_reply env = Answered →
     submissions (page r.2) ≡ₚ submissions_table w
     ∧ StronglySorted not_older (submissions (page r.2))
     ∧ loading (page r.2) = false
     ∧ trace r.2 = t ++ [SelectAllSubmissions])
  ∧ (select_all_reply env = Errored →
     submissions (page r.2) = submissions st
     ∧ loading (page r.2) = loading st
     ∧ trace r.2
       = t ++ [SelectAllSubmissions; ToastError "Failed to load submissions"])
  ∧ (select_all_reply env = Rejected →
     submissions (page r.2) = submissions st
     ∧ loading (page r.2) = false
     ∧ error_toasts (trace r.2)
       = error_toasts t ++ ["Failed to load submissions"]).
Proof.
  intros r. subst r. unfold loadSubmissions. EvaluatePageFacts.unfold_ops.
  destruct (select_all_reply env); simpl.
  all: split; [done|]; split; [done|]; split; [done|]; split; [done|].
  all: split; [done|].
  - split; [|split; intros [=]]. intros _. unfold newest_first.
    split; [apply merge_sort_Permutation|].
    split; [apply StronglySorted_merge_sort; apply _|]. done.
  - split; [intros [=]|]. split; [|intros [=]]. intros _.
    split; [done|]. split; [done|]. symmetry. apply (app_assoc t [_] [_]).
  - split; [intros [=]|]. split; [intros [=]|]. intros _.
    split; [done|]. split; [done|].
    unfold error_toasts. rewrite !omap_app. simpl. by rewrite !app_nil_r.
Qed.

Ltac unfold_page :=
  cbv beta iota zeta delta
    [emit set_page set_world request update_submission handleLogout
     access_denied subscribeToSubmissions handleSelectSubmission
     mbind mret M_bind M_ret bind ret throw get modify try_catch finally when
     fst snd page world trace].

Lemma frozen_after_update (table : list Submission.t) id st fb :
  frozen_columns <$> ((λ row, if decide (Submission.id row = id)
                              then Submission.set_decision st fb row
                              else row) <$> table)
  = frozen_columns <$> table.
Proof.
  rewrite <- list_fmap_compose. apply list_fmap_ext. intros i row _. simpl.
  by destruct (decide (Submission.id row = id)).
Qed.

Lemma handleDecision_frozen env decision st w t :
  let s' := (handleDecision env decision (mkSys st w t)).2 in
  frozen_columns <$> submissions_table (world s')
  = frozen_columns <$> submissions_table w
  ∧ blobs (world s') = blobs w.
Proof.
  intros s'. subst s'.
  EvaluatePageFacts.exec_handleDecision env st;
    rewrite ?frozen_after_update; done.
Qed.

Lemma step_frozen s ae :
  frozen_columns <$> submissions_table (world (step s ae))
  = frozen_columns <$> submissions_table (world s)
  ∧ blobs (world (step s ae)) = blobs (world s).
Proof.
  destruct s as [st w t], ae as [a env]. simpl.
  unfold step, dispatch.
  cbv beta iota zeta delta [mbind M_bind bind get]. cbn [fst snd page].
  destruct a as [| |sub|value|decision|].
  - unfold checkAuth, loadSubmissions. unfold_page.
    destruct (getUser env) as [[uid|]|]; simpl; try done.
    destruct (profile env) as [role| |]; simpl; try done.
    destruct (bool_decide (role ≠ js "evaluator")); simpl; try done.
    by destruct (select_all_reply env).
  - destruct (subscribed st); [|done].
    unfold loadSubmissions. unfold_page.
    by destruct (select_all_reply env).
  - destruct (render st); try done.
    destruct (bool_decide (sub ∈ submissions st)); done.
  - by destruct (feedback_box_enabled st).
  - destruct (decision_buttons_rendered st && negb (decision_buttons_disabled st));
      [|done].
    apply handleDecision_frozen.
  - by destruct (render st).
Qed.

(** X11: the evaluate page never adds or removes a row and never touches
    blob storage. Along any sequence of loads and actions, the rows of the
    table are the same rows in the same order as far as every column but
    status and feedback is concerned, and the blobs are unchanged. *)
Theorem evaluate_page_only_decides s script :
  frozen_columns <$> submissions_table (world (run s script))
  = frozen_columns <$> submissions_table (world s)
  ∧ blobs (world (run s script)) = blobs (world s).
Proof.
  revert s. induction script as [|ae script IH]; intros s; [done|].
  simpl. destruct (IH (step s ae)) as [H1 H2].
  destruct (step_frozen s ae) as [H3 H4]. split; congruence.
Qed.

(** X12: the only way the evaluate page writes. If one step of the page
    asks the store for an update, the step was a click on Accept or Reject
    with the buttons rendered and enabled: a submission was selected whose
    status in the page is pending, the page was not processing, and the
    update carries the id of that submission, the status of the clicked
    decision and the trimmed feedback text, which is not empty and has no
    white space at either end. *)
Theorem update_comes_from_enabled_decision st w a env id status fb :
  UpdateSubmission id status fb ∈ trace (step (mkSys st w []) (a, env)) →
  ∃ selected decision,
    a = ClickDecision decision
    ∧ selectedSubmission st = Some selected
    ∧ Submission.status selected = Submission.pending
    ∧ processing st = false
    ∧ id = Submission.id selected
    ∧ status = decision_status decision
    ∧ status ≠ Submission.pending
    ∧ fb = trim (feedback st) ∧ fb ≠ [] ∧ trimmed fb.
Proof.
  unfold step, dispatch.
  cbv beta iota zeta delta [mbind M_bind bind get]. cbn [fst snd page].
  destruct a as [| |sub|value|decision|].
  - unfold checkAuth, loadSubmissions. unfold_page.
    destruct (getUser env) as [[uid|]|]; simpl;
      try (intros H; by AccessFacts.not_in_trace H).
    destruct (profile env) as [role| |]; simpl;
      try (intros H; by AccessFacts.not_in_trace H).
    destruct (bool_decide (role ≠ js "evaluator")); simpl;
      try (intros H; by AccessFacts.not_in_trace H).
    destruct (select_all_reply env); simpl;
      intros H; by AccessFacts.not_in_trace H.
  - destruct (subscribed st); unfold loadSubmissions; unfold_page;
      [destruct (select_all_reply env)|]; simpl;
      intros H; by AccessFacts.not_in_trace H.
  - destruct (render st); unfold_page; simpl;
      try (intros H; by AccessFacts.not_in_trace H).
    destruct (bool_decide (sub ∈ submissions st)); simpl;
      intros H; by AccessFacts.not_in_trace H.
  - destruct (feedback_box_enabled st); unfold_page; simpl;
      intros H; by AccessFacts.not_in_trace H.
  - unfold decision_buttons_rendered, decision_buttons_disabled.
    destruct (render st); simpl;
      try (intros H; by AccessFacts.not_in_trace H).
    destruct (selectedSubmission st) as [selected|] eqn:Hsel; simpl;
      try (intros H; by AccessFacts.not_in_trace H).
    destruct (decide (Submission.status selected = Submission.pending))
      as [Hpending|Hne].
    2: { rewrite (bool_decide_eq_false_2 _ Hne). simpl.
         intros H; by AccessFacts.not_in_trace H. }
    rewrite (bool_decide_eq_true_2 _ Hpending). simpl.
    destruct (processing st) eqn:Hproc; simpl;
      try (intros H; by AccessFacts.not_in_trace H).
    destruct (falsy_str (trim (feedback st))) eqn:Hfb; simpl;
      try (intros H; by AccessFacts.not_in_trace H).
    unfold handleDecision, loadSubmissions. unfold_page.
    rewrite Hsel, Hfb. simpl.
    intros Hin. exists selected, decision.
    assert (Hev : UpdateSubmission id status fb
                  = UpdateSubmission (Submission.id selected)
                      (decision_status decision) (trim (feedback st))).
    { destruct (update_reply env); simpl in Hin;
        [destruct (fetch_reply env) as [|[]|unreadable]; simpl in Hin;
         try destruct (select_all_reply env); simpl in Hin|..].
      all: apply elem_of_cons in Hin as [Hin|Hin]; [done|].
      all: by AccessFacts.not_in_trace Hin. }
    injection Hev as -> -> ->.
    split; [done|]. split; [done|]. split; [done|]. split; [done|].
    split; [done|]. split; [done|]. split; [by destruct decision|].
    split; [done|]. split; [by destruct (trim (feedback st))|].
    apply trim_trimmed.
  - destruct (render st); unfold_page; simpl;
      intros H; by AccessFacts.not_in_trace H.
Qed.

(** *** Read-only details *)

Lemma read_only_step st w t ae :
  (∀ sel, selectedSubmission st = Some sel →
          Submission.status sel ≠ Submission.pending) →
  edits_only ae → step (mkSys st w t) ae = mkSys st w t.
Proof.
  intros Hsel [[value Ha]|[decision Ha]]; destruct ae as [a env];
    simpl in Ha; subst a.
  - unfold step, dispatch, feedback_box_enabled.
    cbv beta iota zeta delta [mbind M_bind bind get]. cbn [fst snd page].
    destruct (render st); try done.
    destruct (selectedSubmission st) as [sel|]; [|done].
    rewrite (bool_decide_eq_true_2 _ (Hsel sel eq_refl)).
    by rewrite orb_true_r.
  - unfold step, dispatch, decision_buttons_rendered.
    cbv beta iota zeta delta [mbind M_bind bind get]. cbn [fst snd page].
    destruct (render st); try done.
    destruct (selectedSubmission st) as [sel|]; [|done].
    by rewrite (bool_decide_eq_false_2 _ (Hsel sel eq_refl)).
Qed.

Lemma read_only_run st w t script :
  (∀ sel, selectedSubmission st = Some sel →
          Submission.status sel ≠ Submission.pending) →
  Forall edits_only script → run (mkSys st w t) script = mkSys st w t.
Proof.
  intros Hsel. induction 1 as [|ae script Hae _ IH]; [done|].
  simpl. by rewrite read_only_step.
Qed.

Lemma select_step st w t sub env :
  render st = DashboardView → sub ∈ submissions st →
  step (mkSys st w t) (ClickSubmission sub, env)
  = mkSys (setFeedback (default [] (Submission.feedback sub))
             (setSelectedSubmission (Some sub) st)) w t.
Proof.
  intros Hview Hin. unfold step, dispatch.
  cbv beta iota zeta delta [mbind M_bind bind get]. cbn [fst snd page].
  by rewrite Hview, (bool_decide_eq_true_2 _ Hin).
Qed.

(** X13: selecting a submission of the list shows it with its stored
    feedback in the box (an empty box when there is none) and does nothing
    else. If the submission is not pending, the details are read-only:
    whatever is typed and whichever decision button is aimed at, the page
    state, the world and the trace stay exactly as they are. If it is
    pending and the page is not processing, typing replaces the text. *)
Theorem terminal_submission_is_read_only st w t sub env :
  render st = DashboardView → sub ∈ submissions st →
  let s1 := step (mkSys st w t) (ClickSubmission sub, env) in
  selectedSubmission (page s1) = Some sub
  ∧ feedback (page s1) = default [] (Submission.feedback sub)
  ∧ submissions (page s1) = submissions st
  ∧ world s1 = w ∧ trace s1 = t
  ∧ (Submission.status sub ≠ Submission.pending →
     ∀ script, Forall edits_only script → run s1 script = s1)
  ∧ (Submission.status sub = Submission.pending → processing st = false →
     ∀ value env',
       feedback (page (step s1 (TypeFeedback value, env'))) = value).
Proof.
  intros Hview Hin s1. subst s1. rewrite select_step by done. simpl.
  split; [done|]. split; [done|]. split; [done|]. split; [done|].
  split; [done|]. split.
  - intros Hstatus script Hall. apply read_only_run; [|done].
    simpl. by intros sel [= <-].
  - intros Hstatus Hproc value env'.
    unfold step, dispatch, feedback_box_enabled.
    cbv beta iota zeta delta [mbind M_bind bind get]. cbn [fst snd page].
    replace (render _) with DashboardView by (by rewrite <- Hview).
    simpl. rewrite Hproc. simpl.
    rewrite bool_decide_eq_false_2 by (intros H; by apply H). done.
Qed.

(** X14: when the request to the notification endpoint is rejected, the
    decision stays written (the world is the one the update left), but the
    page treats the decision as failed: it shows one error toast and no
    success toast, keeps the selection, the feedback text and the list,
    does not reload, and stops processing. The selection still being the
    pending snapshot, the decision buttons stay rendered and enabled. *)
Theorem rejected_notification_keeps_selection env decision st w selected :
  selectedSubmission st = Some selected →
  ¬ Forall (λ c, is_ws c = true) (feedback st) →
  update_reply env = Answered →
  fetch_reply env = FetchRejected →
  let s' := (handleDecision env decision (mkSys st w [])).2 in
  world s'
  = world (update_submission Answered (Submission.id selected)
             (decision_status decision) (trim (feedback st))
             (mkSys st w [])).2
  ∧ selectedSubmission (page s') = Some selected
  ∧ feedback (page s') = feedback st
  ∧ submissions (page s') = submissions st
  ∧ processing (page s') = false
  ∧ success_toasts (trace s') = []
  ∧ (∃ m, error_toasts (trace s') = [m])
  ∧ (SelectAllSubmissions ∉ trace s')
  ∧ (decision_buttons_rendered st = true →
     decision_buttons_rendered (page s') = true
     ∧ decision_buttons_disabled (page s') = false).
Proof.
  intros Hsel Hfb Hup Hfetch s'. subst s'.
  rewrite EvaluatePageFacts.blank_iff in Hfb. apply not_true_is_false in Hfb.
  unfold handleDecision, loadSubmissions, decision_buttons_rendered,
    decision_buttons_disabled, render.
  unfold_page. rewrite Hsel, Hfb, Hup, Hfetch. simpl. rewrite Hfb.
  split; [done|]. split; [done|]. split; [done|]. split; [done|].
  split; [done|]. split; [done|]. split; [by eexists|].
  split; [intros H; by AccessFacts.not_in_trace H|].
  rewrite Hsel. done.
Qed.

(** X15: a decision that goes through (the update is answered, the
    endpoint responds and, when its response is not ok, the text of the
    response is read, the reload is answered) posts exactly one
    notification, addressed to the email and name of the selected
    submission, with the clicked decision and the trimmed feedback. In the
    reloaded list every row with the id of the decided submission carries
    that decision and feedback, and selecting such a row gives read-only
    details: neither typing nor the decision buttons change anything any
    more. *)
Theorem decision_is_final_on_the_page env decision st w selected ok :
  selectedSubmission st = Some selected →
  ¬ Forall (λ c, is_ws c = true) (feedback st) →
  update_reply env = Answered →
  fetch_reply env = FetchResponse ok →
  select_all_reply env = Answered →
  let s1 := (handleDecision env decision (mkSys st w [])).2 in
  notifications (trace s1)
  = [ {| to := Submission.email selected;
         name := Submission.full_name selected;
         Collab.decision := decision;
         Collab.feedback := trim (feedback st) |} ]
  ∧ ∀ sub, sub ∈ submissions (page s1) →
           Submission.id sub = Submission.id selected →
           Submission.status sub = decision_status decision
           ∧ Submission.feedback sub = Some (trim (feedback st))
           ∧ ∀ env1 script,
               Forall edits_only script →
               run (step s1 (ClickSubmission sub, env1)) script
               = step s1 (ClickSubmission sub, env1).
Proof.
  intros Hsel Hfb Hup Hfetch Hload s1.
  rewrite EvaluatePageFacts.blank_iff in Hfb. apply not_true_is_false in Hfb.
  assert (Hs1 : ∃ t1,
    s1 = mkSys
           (setProcessing false
              (setLoading false
                 (setSubmissions
                    (newest_first
                       (submissions_table
                          (world (update_submission Answered
                                    (Submission.id selected)
                                    (decision_status decision)
                                    (trim (feedback st))
                                    (mkSys st w [])).2)))
                    (setFeedback []
                       (setSelectedSubmission None
                          (setProcessing true st))))))
           (world (update_submission Answered (Submission.id selected)
                     (decision_status decision) (trim (feedback st))
                     (mkSys st w [])).2)
           t1
    ∧ notifications t1
      = [ {| to := Submission.email selected;
             name := Submission.full_name selected;
             Collab.decision := decision;
             Collab.feedback := trim (feedback st) |} ]).
  { subst s1. unfold handleDecision, loadSubmissions. unfold_page.
    rewrite Hsel, Hfb, Hup, Hfetch, Hload. simpl.
    destruct ok; simpl; eexists; split; reflexivity. }
  destruct Hs1 as (t1 & -> & Hnote). simpl.
  split; [done|].
  intros sub Hin Hid.
  assert (Hin' := Hin). unfold newest_first in Hin'.
  rewrite merge_sort_Permutation in Hin'. unfold_page. simpl in Hin'.
  destruct (EvaluatePageFacts.updated_rows _ _ _ _ _ Hin' Hid)
    as [Hstatus Hfeedback].
  split; [done|]. split; [done|].
  intros env1 script Hall.
  rewrite select_step.
  - apply read_only_run; [|done]. simpl. intros sel [= <-].
    rewrite Hstatus. by destruct decision.
  - unfold render. simpl.
    rewrite bool_decide_eq_false_2; [done|].
    intros Hlen. apply nil_length_inv in Hlen.
    rewrite Hlen in Hin. by apply elem_of_nil in Hin.
  - done.
Qed.

End EvaluatePageMoreFacts.

(** ** More about the route *)

Module SendEmailMoreFacts.
Import JsString Handler SendEmail HandlerFacts Vocabulary.
Local Open Scope string_scope.
Local Open Scope nat_scope.
Local Open Scope list_scope.
Local Open Scope stdpp_scope.

Lemma accepted_literal s : bool_decide (s = js "accepted") = true ↔ s = js "accepted".
Proof. apply bool_decide_eq_true. Qed.

#[local] Opaque js.

Ltac exec_POST env mailjet props :=
  unfold respond, POST, emit, sendable, transport_ok, sent_messages;
  step_handler;
  let Hf := fresh "Hfalsy" in let Hk := fresh "Hkey" in
  let Hs := fresh "Hsecret" in
  destruct (some_field_falsy props) eqn:Hf;
  [ pose proof Hf as Hf'; unfold some_field_falsy in Hf'; rewrite Hf'
  | pose proof Hf as Hf'; unfold some_field_falsy in Hf'; rewrite Hf';
    destruct (unset (MAILJET_API_KEY env)) eqn:Hk;
    [ | destruct (unset (MAILJET_SECRET_KEY env)) eqn:Hs;
        [ | destruct mailjet as [message|[] []] ] ] ];
  simpl.


(** X17: every message the route hands to the transport is built from
    the request: it is addressed to the request's [to] and [name] and the
    template is filled with its [name] and [feedback]. The welcome
    template and the welcome subject are used exactly when [decision] is
    the string [accepted]; everything else gets the update template and
    the update subject. The sender is the configured address, or the
    built-in one when none is configured, and the transport is called with
    the configured credentials. *)
Theorem sent_message_follows_request env mailjet request key secret m :
  MailjetSend key secret m ∈ (respond env mailjet request).2 →
  ∃ props,
    request = BodyObject props
    ∧ To_Email m = the (props !! "to")
    ∧ To_Name m = the (props !! "name")
    ∧ Parts_name m = the (props !! "name")
    ∧ Parts_feedback m = the (props !! "feedback")
    ∧ (Parts m = WelcomeTemplate
       ↔ props !! "decision" = Some (VStr (js "accepted")))
    ∧ (Subject m = "ðŸŽ‰ Welcome to MoonDev!" ↔ Parts m = WelcomeTemplate)
    ∧ (Subject m = "MoonDev Internship Application Update"
       ↔ Parts m = UpdateTemplate)
    ∧ (∀ address, MAILJET_FROM_EMAIL env = Some address → address ≠ [] →
                  From_Email m = address)
    ∧ (unset (MAILJET_FROM_EMAIL env) = true →
       From_Email m = js "mariayoussef61@gmail.com")
    ∧ MAILJET_API_KEY env = Some key ∧ key ≠ []
    ∧ MAILJET_SECRET_KEY env = Some secret ∧ secret ≠ [].
Proof.
  intros Hin.
  destruct request as [| | |props].
  1,2,3: revert Hin; unfold respond, POST, emit; step_handler; simpl;
         intros Hin; by AccessFacts.not_in_trace Hin.
  exists props. split; [done|].
  assert (Hm : m = {| From_Email :=
                        or_else (MAILJET_FROM_EMAIL env)
                          (js "mariayoussef61@gmail.com");
                      From_Name :=
                        or_else (MAILJET_FROM_NAME env) (js "Maria Youssef");
                      To_Email := the (props !! "to");
                      To_Name := the (props !! "name");
                      Subject :=
                        if is_accepted (props !! "decision")
                        then "ðŸŽ‰ Welcome to MoonDev!"
                        else "MoonDev Internship Application Update";
                      Parts :=
                        if is_accepted (props !! "decision")
                        then WelcomeTemplate else UpdateTemplate;
                      Parts_name := the (props !! "name");
                      Parts_feedback := the (props !! "feedback") |}
                ∧ MAILJET_API_KEY env = Some key ∧ key ≠ []
                ∧ MAILJET_SECRET_KEY env = Some secret ∧ secret ≠ []).
  { revert Hin. exec_POST env mailjet props; intros Hin.
    1,2,3: by AccessFacts.not_in_trace Hin.
    all: repeat (apply elem_of_cons in Hin as [Hin|Hin];
                 [first [discriminate | injection Hin as -> -> ->]|]);
         try (by apply elem_of_nil in Hin).
    all: destruct (MAILJET_API_KEY env) as [[|]|];
         destruct (MAILJET_SECRET_KEY env) as [[|]|]; done. }
  destruct Hm as (-> & Hkey); simpl.
  do 4 (split; [done|]).
  split.
  { unfold is_accepted.
    destruct (props !! "decision") as [[| | |s|]|]; try done.
    case_bool_decide; [by subst|].
    split; [done|]. intros [= ->]. done. }
  split; [by destruct (is_accepted _)|].
  split; [by destruct (is_accepted _)|].
  split.
  { intros address -> Hne. simpl. by destruct address. }
  split; [|done].
  destruct (MAILJET_FROM_EMAIL env) as [[|]|]; done.
Qed.

End SendEmailMoreFacts.

(** ** The evaluate page and the route together *)

Module NotificationFacts.
Import JsString Handler Collab EvaluatePage HandlerFacts Vocabulary.
Local Open Scope string_scope.
Local Open Scope nat_scope.
Local Open Scope list_scope.
Local Open Scope stdpp_scope.

Lemma accepted_not_rejected : js "rejected" ≠ js "accepted".
Proof. by vm_compute. Qed.

#[local] Opaque js.
#[local] Arguments trim : simpl never.
#[local] Arguments newest_first : simpl never.

Lemma payload_lookups p :
  ∃ props,
    payload_body p = SendEmail.BodyObject props
    ∧ props !! "to" = Some (SendEmail.VStr (to p))
    ∧ props !! "name" = Some (SendEmail.VStr (name p))
    ∧ props !! "decision"
      = Some (SendEmail.VStr match Collab.decision p with
                             | decide_accepted => js "accepted"
                             | decide_rejected => js "rejected"
                             end)
    ∧ props !! "feedback" = Some (SendEmail.VStr (Collab.feedback p)).
Proof.
  eexists. split; [reflexivity|]. by simplify_map_eq.
Qed.

Lemma posted_payload env decision st w p :
  p ∈ notifications (trace (handleDecision env decision (mkSys st w [])).2) →
  ∃ selected,
    selectedSubmission st = Some selected
    ∧ trim (feedback st) ≠ []
    ∧ p = {| to := Submission.email selected;
             name := Submission.full_name selected;
             Collab.decision := decision;
             Collab.feedback := trim (feedback st) |}.
Proof.
  unfold notifications.
  EvaluatePageFacts.exec_handleDecision env st; intros Hin;
    try (by apply elem_of_nil in Hin).
  all: apply list_elem_of_singleton in Hin as ->.
  all: eexists; split; [done|]; split; [|done].
  all: by apply ValidationFacts.falsy_str_false_iff.
Qed.

(** X18: a notification the evaluate page posts for a submission whose
    email and name are not empty is never answered 400 by the route. When
    the server has its credentials the route hands the transport exactly
    one message: to the email and name of the selected submission, with
    the trimmed feedback of the page, and with the welcome template
    exactly when the evaluator clicked accept. *)
Theorem page_notification_is_well_formed env decision st w selected p
    senv mailjet :
  selectedSubmission st = Some selected →
  Submission.email selected ≠ [] →
  Submission.full_name selected ≠ [] →
  p ∈ notifications (trace (handleDecision env decision (mkSys st w [])).2) →
  let r := SendEmail.respond senv mailjet (payload_body p) in
  (∀ resp, r.1 = Some resp → SendEmail.status resp ≠ 400%N)
  ∧ (SendEmail.unset (SendEmail.MAILJET_API_KEY senv) = false →
     SendEmail.unset (SendEmail.MAILJET_SECRET_KEY senv) = false →
     ∃ m, sent_messages r.2 = [m]
          ∧ SendEmail.To_Email m = SendEmail.VStr (Submission.email selected)
          ∧ SendEmail.To_Name m
            = SendEmail.VStr (Submission.full_name selected)
          ∧ SendEmail.Parts_name m
            = SendEmail.VStr (Submission.full_name selected)
          ∧ SendEmail.Parts_feedback m
            = SendEmail.VStr (trim (feedback st))
          ∧ (SendEmail.Parts m = SendEmail.WelcomeTemplate
             ↔ decision = decide_accepted)).
Proof.
  intros Hsel Hemail Hname Hin r. subst r.
  apply posted_payload in Hin as (sel & Hsel' & Hfb & ->).
  rewrite Hsel in Hsel'. injection Hsel' as <-.
  destruct (payload_lookups
              {| to := Submission.email selected;
                 name := Submission.full_name selected;
                 Collab.decision := decision;
                 Collab.feedback := trim (feedback st) |})
    as (props & -> & Hto & Hn & Hd & Hf).
  simpl in Hto, Hn, Hd, Hf.
  assert (Hfalsy : SendEmail.some_field_falsy props = false).
  { unfold SendEmail.some_field_falsy. rewrite Hto, Hn, Hd, Hf. simpl.
    apply ValidationFacts.falsy_str_false_iff in Hemail, Hname, Hfb.
    rewrite Hemail, Hname, Hfb. simpl.
    destruct decision; by vm_compute. }
  assert (Haccepted : SendEmail.is_accepted (props !! "decision")
                      = match decision with
                        | decide_accepted => true
                        | decide_rejected => false
                        end).
  { rewrite Hd. simpl. destruct decision.
    - by apply bool_decide_eq_true_2.
    - apply bool_decide_eq_false_2, accepted_not_rejected. }
  pose proof Hfalsy as Hfalsy'. unfold SendEmail.some_field_falsy in Hfalsy'.
  unfold SendEmail.respond, SendEmail.POST, SendEmail.emit, sent_messages.
  step_handler. rewrite Hfalsy'.
  split.
  - intros resp.
    destruct (SendEmail.unset (SendEmail.MAILJET_API_KEY senv)
              || SendEmail.unset (SendEmail.MAILJET_SECRET_KEY senv));
      [simpl; by intros [= <-]|].
    destruct mailjet as [message|[] []]; simpl; by intros [= <-].
  - intros -> ->. simpl. rewrite Hto, Hn, Hf, Haccepted.
    destruct mailjet as [message|[] []]; simpl; eexists;
      (split; [reflexivity|]); simpl; repeat (split; [done|]);
      by destruct decision.
Qed.

End NotificationFacts.

(** ** More about the validators *)

Module ValidationMoreFacts.
Import JsString Validation.
Local Open Scope string_scope.
Local Open Scope nat_scope.
Local Open Scope list_scope.
Local Open Scope stdpp_scope.

Lemma plain_parts s :
  plain s ↔ s ≠ [] ∧ Forall (λ c, is_ws c = false) s ∧ 64%N ∉ s.
Proof.
  unfold plain. split.
  - intros [Hne Hall]. split; [done|]. split.
    + eapply Forall_impl; [exact Hall|]. by intros c [? _].
    + intros Hin. rewrite Forall_forall in Hall.
      by destruct (Hall _ Hin) as [_ ?].
  - intros (Hne & Hws & Hat). split; [done|].
    rewrite Forall_forall in Hws. apply Forall_forall. intros c Hc.
    split; [by apply Hws|]. by intros ->.
Qed.

Lemma at_sign : js "@" = [64%N].
Proof. reflexivity. Qed.

Lemma dot_sign : js "." = [46%N].
Proof. reflexivity. Qed.

Lemma dot_not_ws : is_ws 46%N = false.
Proof. reflexivity. Qed.

(** X19: [validateEmail] accepts a text exactly when it contains no white
    space and exactly one [@], which has something before it, and after
    the [@] there is a dot that is neither the first nor the last
    character of that part. *)
Theorem validateEmail_accepts_addresses s :
  validateEmail s = true
  ↔ Forall (λ c, is_ws c = false) s
    ∧ ∃ before after,
        s = before ++ 64%N :: after
        ∧ before ≠ []
        ∧ (64%N ∉ before) ∧ (64%N ∉ after)
        ∧ ∃ i, 1 ≤ i ∧ i + 1 < length after ∧ after !! i = Some 46%N.
Proof.
  rewrite ValidationFacts.validateEmail_iff. unfold email_shape.
  rewrite at_sign, dot_sign. split.
  - intros (loc & dom & tld & -> & Hloc & Hdom & Htld).
    apply plain_parts in Hloc as (Hloc & Hlw & Hla).
    apply plain_parts in Hdom as (Hdom & Hdw & Hda).
    apply plain_parts in Htld as (Htld & Htw & Hta).
    split.
    { rewrite !Forall_app. split; [done|]. split; [by repeat constructor|].
      split; [done|]. split; [|done]. repeat constructor. }
    exists loc, (dom ++ [46%N] ++ tld).
    split; [done|]. split; [done|]. split; [done|].
    split.
    { rewrite !elem_of_app. intros [?|[Hd|?]]; [done| |done].
      apply list_elem_of_singleton in Hd. done. }
    exists (length dom).
    split; [destruct dom; [done|simpl; lia]|].
    split; [rewrite !length_app; destruct tld; [done|simpl; lia]|].
    rewrite lookup_app_r by lia. by rewrite Nat.sub_diag.
  - intros (Hws & before & after & -> & Hb & Hba & Haa & i & Hi1 & Hi2 & Hi).
    apply Forall_app in Hws as [Hwb Hwa].
    apply Forall_cons in Hwa as [_ Hwa].
    exists before, (take i after), (drop (S i) after).
    split.
    { simpl. do 2 f_equal.
      rewrite <- (take_drop_middle after i 46%N Hi) at 1. done. }
    split; [by apply plain_parts|].
    split.
    + apply plain_parts. split.
      { intros Hnil. apply (f_equal length) in Hnil.
        rewrite length_take in Hnil. simpl in Hnil. lia. }
      split; [by apply Forall_take|].
      intros Hin. apply Haa. rewrite <- (take_drop i after).
      apply elem_of_app. by left.
    + apply plain_parts. split.
      { intros Hnil. apply (f_equal length) in Hnil.
        rewrite length_drop in Hnil. simpl in Hnil. lia. }
      split; [by apply Forall_drop|].
      intros Hin. apply Haa. rewrite <- (take_drop (S i) after).
      apply elem_of_app. by right.
Qed.

End ValidationMoreFacts.

(** ** The properties above on concrete data *)

Module CasesExamples.
Import JsString Handler Collab Scenario Cases Vocabulary.
Local Open Scope string_scope.
Local Open Scope nat_scope.
Local Open Scope list_scope.
Local Open Scope stdpp_scope.

Ltac found := vm_compute; repeat first [apply list_elem_of_here | apply list_elem_of_further].

Lemma feedback_not_blank :
  ¬ Forall (λ c, is_ws c = true) (js "Great work").
Proof.
  intros H. apply Forall_cons in H as [H _]. vm_compute in H. discriminate.
Defined.

Lemma login_agrees_with_pages_witness :
  SelectSubmissionOfUser ada
  ∈ trace (SubmitPage.enter (submit_env Answered) empty_world).
Proof.
  destruct (AccessFacts.login_agrees_with_pages developer_login
              LoginPage.initial ada) as [H _].
  - reflexivity.
  - destruct (H eq_refl (submit_env Answered) empty_world) as [_ H'].
    + reflexivity.
    + reflexivity.
    + exact H'.
Defined.

Lemma inserted_row_meets_rules_witness :
  stored_fields_ok new_row ∧ Submission.status new_row = Submission.pending.
Proof.
  destruct (SubmitPageMoreFacts.inserted_row_meets_rules
              (submit_env Answered) filled_form empty_world new_row)
    as (H1 & H2 & _).
  - found.
  - split; assumption.
Defined.

Lemma update_comes_from_enabled_decision_witness :
  ∃ selected decision,
    EvaluatePage.ClickDecision decide_accepted
    = EvaluatePage.ClickDecision decision
    ∧ EvaluatePage.selectedSubmission
        (review_state Submission.pending (js "Great work"))
      = Some selected
    ∧ Submission.status selected = Submission.pending.
Proof.
  destruct (EvaluatePageMoreFacts.update_comes_from_enabled_decision
              (review_state Submission.pending (js "Great work"))
              (world_with_row Submission.pending)
              (EvaluatePage.ClickDecision decide_accepted)
              (review_env Answered true)
              (js "row-1") Submission.accepted (js "Great work"))
    as (selected & decision & H1 & H2 & H3 & _).
  - found.
  - exists selected, decision. repeat split; assumption.
Defined.

Lemma terminal_submission_is_read_only_witness :
  let s1 := EvaluatePage.step
              (mkSys (review_state Submission.accepted [])
                 (world_with_row Submission.accepted) [])
              (EvaluatePage.ClickSubmission (earlier_row Submission.accepted),
               review_env Answered true) in
  EvaluatePage.run s1
    [(EvaluatePage.ClickDecision decide_rejected, review_env Answered true)]
  = s1.
Proof.
  destruct (EvaluatePageMoreFacts.terminal_submission_is_read_only
              (review_state Submission.accepted [])
              (world_with_row Submission.accepted) []
              (earlier_row Submission.accepted) (review_env Answered true))
    as (_ & _ & _ & _ & _ & H & _).
  - reflexivity.
  - apply list_elem_of_here.
  - intros s1. apply H; [discriminate|].
    constructor; [|constructor]. right. by eexists.
Defined.

Lemma rejected_notification_keeps_selection_witness :
  let s' := (EvaluatePage.handleDecision unreachable_endpoint decide_accepted
               (mkSys (review_state Submission.pending (js "Great work"))
                  (world_with_row Submission.pending) [])).2 in
  EvaluatePage.selectedSubmission (page s')
  = Some (earlier_row Submission.pending)
  ∧ success_toasts (trace s') = [].
Proof.
  destruct (EvaluatePageMoreFacts.rejected_notification_keeps_selection
              unreachable_endpoint decide_accepted
              (review_state Submission.pending (js "Great work"))
              (world_with_row Submission.pending)
              (earlier_row Submission.pending))
    as (_ & H1 & _ & _ & _ & H2 & _).
  - reflexivity.
  - apply feedback_not_blank.
  - reflexivity.
  - reflexivity.
  - split; assumption.
Defined.

Lemma decision_is_final_on_the_page_witness :
  notifications
    (trace (EvaluatePage.handleDecision (review_env Answered true)
              decide_accepted
              (mkSys (review_state Submission.pending (js "Great work"))
                 (world_with_row Submission.pending) [])).2)
  = [ {| to := js "ada@example.org";
         name := js "Ada Lovelace";
         decision := decide_accepted;
         feedback := trim (js "Great work") |} ].
Proof.
  destruct (EvaluatePageMoreFacts.decision_is_final_on_the_page
              (review_env Answered true) decide_accepted
              (review_state Submission.pending (js "Great work"))
              (world_with_row Submission.pending)
              (earlier_row Submission.pending) true) as [H _].
  - reflexivity.
  - apply feedback_not_blank.
  - reflexivity.
  - reflexivity.
  - reflexivity.
  - exact H.
Defined.

Lemma sent_message_follows_request_witness :
  SendEmail.Parts welcome_message = SendEmail.WelcomeTemplate
  ↔ ∃ props,
      accepted_request (SendEmail.VStr (js "Great work"))
      = SendEmail.BodyObject props
      ∧ props !! "decision" = Some (SendEmail.VStr (js "accepted")).
Proof.
  destruct (SendEmailMoreFacts.sent_message_follows_request configured
              (SendEmail.MailjetResponse true None)
              (accepted_request (SendEmail.VStr (js "Great work")))
              (js "key") (js "secret") welcome_message)
    as (props & H1 & _ & _ & _ & _ & H2 & _).
  - found.
  - split.
    + intros H. exists props. split; [exact H1 | by apply H2].
    + intros _. reflexivity.
Defined.

Lemma page_notification_is_well_formed_witness :
  ∃ m,
    sent_messages
      (SendEmail.respond configured (SendEmail.MailjetResponse true None)
         (payload_body ada_accepted)).2 = [m]
    ∧ SendEmail.To_Email m = SendEmail.VStr (js "ada@example.org").
Proof.
  destruct (NotificationFacts.page_notification_is_well_formed
              (review_env Answered true) decide_accepted
              (review_state Submission.pending (js "Great work"))
              (world_with_row Submission.pending)
              (earlier_row Submission.pending) ada_accepted
              configured (SendEmail.MailjetResponse true None)) as [_ H].
  - reflexivity.
  - discriminate.
  - discriminate.
  - found.
  - destruct (H eq_refl eq_refl) as (m & H1 & H2 & _).
    exists m. split; assumption.
Defined.

Lemma POST_status_codes_witness :
  (SendEmail.respond configured (SendEmail.MailjetResponse true None)
     (accepted_request (SendEmail.VStr (js "Great work")))).1
  = Some {| SendEmail.status := 200; SendEmail.body := SendEmail.success_body |}
  ∧ (SendEmail.respond unconfigured (SendEmail.MailjetResponse true None)
       (accepted_request (SendEmail.VStr (js "Great work")))).1
    = Some {| SendEmail.status := 500;
              SendEmail.body :=
                SendEmail.error_body "Email service not configured" |}.
Proof.
  split.
  - destruct (SendEmailFacts.POST_status_codes configured
                (SendEmail.MailjetResponse true None)
                {[ "to" := SendEmail.VStr (js "ada@example.org");
                   "name" := SendEmail.VStr (js "Ada Lovelace");
                   "decision" := SendEmail.VStr (js "accepted");
                   "feedback" := SendEmail.VStr (js "Great work") ]})
      as [_ H].
    destruct H as [_ H].
    + eexists. split; [by simplify_map_eq | discriminate].
    + eexists. split; [by simplify_map_eq | discriminate].
    + eexists. split; [by simplify_map_eq | discriminate].
    + eexists. split; [by simplify_map_eq | discriminate].
    + destruct H as (_ & H & _).
      * eexists. split; [reflexivity | discriminate].
      * eexists. split; [reflexivity | discriminate].
      * exact (H None eq_refl).
  - destruct (SendEmailFacts.POST_status_codes unconfigured
                (SendEmail.MailjetResponse true None)
                {[ "to" := SendEmail.VStr (js "ada@example.org");
                   "name" := SendEmail.VStr (js "Ada Lovelace");
                   "decision" := SendEmail.VStr (js "accepted");
                   "feedback" := SendEmail.VStr (js "Great work") ]})
      as [_ H].
    destruct H as [H _].
    + eexists. split; [by simplify_map_eq | discriminate].
    + eexists. split; [by simplify_map_eq | discriminate].
    + eexists. split; [by simplify_map_eq | discriminate].
    + eexists. split; [by simplify_map_eq | discriminate].
    + destruct H as [H _]; [left; by left | exact H].
Defined.

End CasesExamples.
